(** * AutoProject: extraction of code blocks from a Markdown document

    A shallow embedding of [src/AutoProject.cpp] and the properties of its
    scanner, rule matcher and project materializer.

    Conventions of the embedding:
    - a [std::string] is a [string]; [std::string::npos] is [None];
    - the input stream [in] is the list of lines [getline] yields;
    - the filesystem is a finite map from path names to nodes, a path being
      looked up as it is written (no resolution of [.], [..] or links);
    - a C++ exception ends the computation with the state reached so far. *)

From Stdlib Require Import Ascii String Bool Arith Lia.
From stdpp Require Import base decidable option list gmap strings fin_maps fin_sets.

(** ** Local constants *)

Definition mdextension : string := ".md".
Definition cmakeVersion : string := "VERSION 3.1".
Definition indentLevel : nat := 4.
Definition delimLength : nat := 3.

(** ** The parts of [std::string] the program uses *)

Module Str.

Definition tab : ascii := "009"%char.
Definition lf : ascii := "010"%char.
Definition cr : ascii := "013"%char.
Definition dquote : ascii := "034"%char.
Definition backslash : ascii := "092"%char.

(** [isspace] in the "C" locale. *)
Definition isspace (c : ascii) : bool :=
  match c with
  | " " | "009" | "010" | "011" | "012" | "013" => true
  | _ => false
  end%char.

Definition eqc (a b : ascii) : bool := Ascii.eqb a b.

(** [s.size()] *)
Definition size (s : string) : nat := String.length s.

(** [s.substr(n)] for [n <= s.size()] *)
Fixpoint substr (n : nat) (s : string) : string :=
  match n, s with
  | 0, _ => s
  | S n', String _ s' => substr n' s'
  | S _, "" => ""
  end.

(** [std::string(n, c)] *)
Fixpoint fill (n : nat) (c : ascii) : string :=
  match n with
  | 0 => ""
  | S n' => String c (fill n' c)
  end.

(** [s.find_first_not_of(ch)]: the index of the first character other
    than [ch]; [None] is [npos]. *)
Fixpoint find_first_not_of (ch : ascii) (s : string) : option nat :=
  match s with
  | "" => None
  | String c s' =>
      if eqc c ch then S <$> find_first_not_of ch s' else Some 0
  end.

(** [pos >= n] for a position that may be [npos], the largest [size_t]. *)
Definition pos_ge (pos : option nat) (n : nat) : bool :=
  match pos with
  | None => true
  | Some i => n <=? i
  end.

(** [s.find(pat)]: the first index at which [pat] occurs. *)
Fixpoint find_from (pat s : string) (i : nat) : option nat :=
  if String.prefix pat s then Some i
  else match s with
       | "" => None
       | String _ s' => find_from pat s' (S i)
       end.
Definition find (pat s : string) : option nat := find_from pat s 0.

(** [s.rfind(pat)]: the last index at which [pat] occurs. *)
Fixpoint rfind_from (pat s : string) (i : nat) : option nat :=
  match s with
  | "" => if String.prefix pat "" then Some i else None
  | String _ s' =>
      match rfind_from pat s' (S i) with
      | Some j => Some j
      | None => if String.prefix pat s then Some i else None
      end
  end.
Definition rfind (pat s : string) : option nat := rfind_from pat s 0.

(** [s.erase(0, n)] and [s.erase(s.size() - n, n)] *)
Definition erase_front (n : nat) (s : string) : string := substr n s.
Definition erase_back (n : nat) (s : string) : string :=
  String.substring 0 (size s - n) s.

(** [std::reverse(s.begin(), s.end())] *)
Definition reverse (s : string) : string := String.rev s.

(** The characters of [s] from the first one that fails [p]. *)
Fixpoint skip (p : ascii -> bool) (s : string) : string :=
  match s with
  | "" => ""
  | String c s' => if p c then skip p s' else s
  end.

(** Does [c] occur in [s]? *)
Fixpoint mem (c : ascii) (s : string) : bool :=
  match s with
  | "" => false
  | String d s' => eqc d c || mem c s'
  end.

End Str.

(** ** Line classification (lines 338-360) *)

Definition isNonEmptyIndented (line : string) : bool :=
  match Str.find_first_not_of " " line with
  | Some indent => indentLevel <=? indent
  | None => false
  end.

Definition isIndentedOrEmpty (line : string) : bool :=
  Str.pos_ge (Str.find_first_not_of " " line) indentLevel.

Definition isEmptyOrUnderline (line : string) : bool :=
  match line with
  | "" => true
  | _ => match Str.find_first_not_of "-" line with None => true | Some _ => false end
  end.

Definition isDelimited (line : string) : bool :=
  match line with
  | "" => false
  | String c _ =>
      if negb (Str.eqc c "`") && negb (Str.eqc c "~") then false
      else
        let backtickDelim := Str.find_first_not_of "`" line in
        let tildeDelim := Str.find_first_not_of "~" line in
        Str.pos_ge backtickDelim delimLength || Str.pos_ge tildeDelim delimLength
  end.

(** ** Leading tabs and emission (lines 362-385) *)

Fixpoint tabcount (line : string) : nat :=
  match line with
  | String c s' => if Str.eqc c Str.tab then S (tabcount s') else 0
  | "" => 0
  end.

Definition replaceLeadingTabs (line : string) : string :=
  let n := tabcount line in
  match n with
  | 0 => line
  | _ => Str.fill (indentLevel * n) " " +:+ Str.substr n line
  end.

(** What [emit] sends to the stream for [line]. *)
Definition emit_text (line : string) : string :=
  (if Str.size line <? indentLevel then line
   else match line with
        | String " "%char _ => Str.substr indentLevel line
        | _ => Str.substr 1 line
        end) +:+ String Str.lf "".

(** What [emitVerbatim] sends to the stream for [line]. *)
Definition emitVerbatim_text (line : string) : string :=
  line +:+ String Str.lf "".

(** ** Decoration stripping (lines 167-226) *)

(** [trim(str, pattern)] *)
Definition trim_pat (pattern str : string) : string :=
  match Str.find pattern str with
  | Some 0 => Str.erase_front (Str.size pattern) str
  | _ => str
  end.

(** [rtrim(str, pattern)] *)
Definition rtrim_pat (pattern str : string) : string :=
  match Str.rfind pattern str with
  | Some loc =>
      if loc =? Str.size str - Str.size pattern
      then Str.erase_back (Str.size pattern) str
      else str
  | None => str
  end.

(** [trim(str, ch)]: the loop reads [*it] before it tests [it != str.end()];
    at the end it reads the terminating null character, which is neither
    [ch] nor a space, so the loop stops there and nothing is erased. *)
Definition trim (ch : ascii) (str : string) : string :=
  match Str.skip (fun c => Str.eqc c ch || Str.isspace c) str with
  | "" => str
  | rest => rest
  end.

(** [rtrim(str, ch)] *)
Definition rtrim (ch : ascii) (str : string) : string :=
  Str.reverse (trim ch (Str.reverse str)).

(** [trimExtras(line)]: the value left in [line]. *)
Definition trimExtras (line : string) : string :=
  match line with
  | "" => line
  | _ =>
      let line := trim "#" line in
      let line := rtrim "#" line in
      let line := trim "*" line in
      let line := rtrim "*" line in
      let line := trim_pat "<b>" line in
      let line := rtrim_pat "</b>" line in
      let line := trim Str.dquote line in
      let line := rtrim Str.dquote line in
      let line := rtrim "-" line in
      let line := rtrim ":" line in
      line
  end.

(** ** The parts of [std::filesystem::path] the program uses *)

Module Path.

(** The characters after the last ['/'], [acc] being those read since
    the last one. *)
Fixpoint filename_go (acc s : string) : string :=
  match s with
  | "" => String.rev acc
  | String c s' =>
      if Str.eqc c "/" then filename_go "" s' else filename_go (String c acc) s'
  end.

(** [p.filename()] *)
Definition filename (p : string) : string := filename_go "" p.

(** [p.extension()]: of the file name, the part from its last period,
    unless that period is its first character or the name is [.] or
    [..]. *)
Definition extension (p : string) : string :=
  let f := filename p in
  match f with
  | "" => ""
  | String c _ =>
      if (Str.size f <=? 2) && Str.eqc c "." then ""
      else match Str.rfind "." f with
           | Some 0 => ""
           | Some pos => Str.substr pos f
           | None => ""
           end
  end.

(** [p.stem()]: the file name without its extension. *)
Definition stem (p : string) : string :=
  let f := filename p in
  String.substring 0 (Str.size f - Str.size (extension p)) f.

Definition is_absolute (p : string) : bool :=
  match p with
  | String "/"%char _ => true
  | _ => false
  end.

(** [p / q] for a [p] that does not end in a separator. *)
Definition join (p q : string) : string :=
  if is_absolute q then q else p +:+ "/" +:+ q.

(** The characters before the last ['/']. *)
Definition parent_path (p : string) : string :=
  Str.erase_back (Str.size (filename p) + 1) p.

End Path.

(** ** Recognized source files (lines 52-56, 201-204) *)

Definition source_extensions : gset string := {[ ".cpp"; ".c"; ".h"; ".hpp" ]}.

Definition isSourceExtension (ext : string) : bool :=
  bool_decide (ext ∈ source_extensions).

(** [isSourceFilename(line)] strips [line] in place: the caller's string is
    [trimExtras line] afterwards. *)
Definition isSourceFilename (line : string) : bool :=
  isSourceExtension (Path.extension (trimExtras line)).

(** ** Regular expressions of the rule table

    The patterns of [checkRules] use literal characters, [.], [\s], [*],
    [?] and grouping. They are matched by derivatives; [regex_search]
    succeeds when some substring of the line matches. *)

Module Regex.

Inductive t : Type :=
| Void                    (* matches nothing *)
| Eps                     (* matches the empty string *)
| Chr (c : ascii)         (* a literal character *)
| Dot                     (* [.]: any character but a line terminator *)
| Space                   (* [\s] *)
| Seq (r1 r2 : t)
| Alt (r1 r2 : t)
| Star (r : t).

(** [r?] *)
Definition Opt (r : t) : t := Alt r Eps.

Fixpoint nullable (r : t) : bool :=
  match r with
  | Void | Chr _ | Dot | Space => false
  | Eps | Star _ => true
  | Seq r1 r2 => nullable r1 && nullable r2
  | Alt r1 r2 => nullable r1 || nullable r2
  end.

Fixpoint deriv (c : ascii) (r : t) : t :=
  match r with
  | Void | Eps => Void
  | Chr d => if Str.eqc c d then Eps else Void
  | Dot => if Str.eqc c Str.lf || Str.eqc c Str.cr then Void else Eps
  | Space => if Str.isspace c then Eps else Void
  | Seq r1 r2 =>
      if nullable r1 then Alt (Seq (deriv c r1) r2) (deriv c r2)
      else Seq (deriv c r1) r2
  | Alt r1 r2 => Alt (deriv c r1) (deriv c r2)
  | Star r1 => Seq (deriv c r1) (Star r1)
  end.

(** Does a prefix of [s] match [r]? *)
Fixpoint match_prefix (r : t) (s : string) : bool :=
  nullable r ||
  match s with
  | "" => false
  | String c s' => match_prefix (deriv c r) s'
  end.

(** [std::regex_search(s, sm, r)] *)
Fixpoint regex_search (s : string) (r : t) : bool :=
  match_prefix r s ||
  match s with
  | "" => false
  | String _ s' => regex_search s' r
  end.

(** The pattern text [s], in which only [.] is special. *)
Fixpoint text (s : string) : t :=
  match s with
  | "" => Eps
  | String c s' => Seq (if Str.eqc c "." then Dot else Chr c) (text s')
  end.

(** [\s*#include\s*] followed by [r] *)
Definition include (r : t) : t :=
  Seq (Star Space) (Seq (text "#include") (Seq (Star Space) r)).

End Regex.

(** ** The rule table (lines 266-328) *)

Module Rule.
Record t : Type := mk { re : Regex.t; cmake : string; libraries : string }.
End Rule.

Definition nl : string := String Str.lf "".

Definition rules : list Rule.t :=
  [ (* \s*#include\s*<(experimental/)?filesystem> *)
    Rule.mk (Regex.include
               (Regex.Seq (Regex.text "<")
                  (Regex.Seq (Regex.Opt (Regex.text "experimental/"))
                     (Regex.text "filesystem>"))))
      "" "stdc++fs";
    Rule.mk (Regex.include (Regex.text "<thread>"))
      ("find_package(Threads REQUIRED)" +:+ nl) "${CMAKE_THREAD_LIBS_INIT}";
    Rule.mk (Regex.include (Regex.text "<future>"))
      ("find_package(Threads REQUIRED)" +:+ nl) "${CMAKE_THREAD_LIBS_INIT}";
    Rule.mk (Regex.include (Regex.text "<SFML/Graphics.hpp>"))
      ("find_package(SFML REQUIRED COMPONENTS System Window Graphics)" +:+ nl +:+
       "include_directories(${SFML_INCLUDE_DIR})" +:+ nl)
      "${SFML_LIBRARIES}";
    Rule.mk (Regex.include (Regex.text "<GL/glew.h>"))
      ("find_package(GLEW REQUIRED)" +:+ nl) "${GLEW_LIBRARIES}";
    Rule.mk (Regex.include (Regex.text "<GL/glut.h>"))
      ("find_package(GLUT REQUIRED)" +:+ nl +:+
       "find_package(OpenGL REQUIRED)" +:+ nl)
      "${OPENGL_LIBRARIES} ${GLUT_LIBRARIES}";
    Rule.mk (Regex.include (Regex.text "<OpenGL/gl.h>"))
      ("find_package(OpenGL REQUIRED)" +:+ nl) "${OPENGL_LIBRARIES}";
    Rule.mk (Regex.include (Regex.text "<SDL2/SDL.h>"))
      ("find_package(SDL2 REQUIRED)" +:+ nl) "${SDL2_LIBRARIES}";
    Rule.mk (Regex.include (Regex.text "<SDL2/SDL_ttf.h>"))
      ("find_package(SDL2_ttf REQUIRED)" +:+ nl) "${SDL2_TTF_LIBRARIES}";
    Rule.mk (Regex.include (Regex.text "<GLFW/glfw3.h>"))
      ("find_package(glfw3 REQUIRED)" +:+ nl) "glfw";
    Rule.mk (Regex.include (Regex.text "<boost/regex.hpp>"))
      ("find_package(Boost REQUIRED COMPONENTS regex)" +:+ nl)
      "${Boost_LIBRARIES}";
    Rule.mk (Regex.include (Regex.text "<png.h>"))
      ("find_package(PNG REQUIRED)" +:+ nl) "${PNG_LIBRARIES}";
    Rule.mk (Regex.include (Regex.text "<ncurses.h>"))
      ("find_package(Curses REQUIRED)" +:+ nl) "${CURSES_LIBRARIES}";
    Rule.mk (Regex.include (Regex.text "<SDL2.SDL.h>"))
      ("include(FindPkgConfig)" +:+ nl +:+
       "PKG_SEARCH_MODULE(SDL2 REQUIRED sdl2)" +:+ nl +:+
       "INCLUDE_DIRECTORIES(${SDL2_INCLUDE_DIRS})" +:+ nl)
      "${SDL2_LIBRARIES}";
    Rule.mk (Regex.include (Regex.text "<QString>"))
      ("find_package(Qt5Widgets)" +:+ nl +:+
       "set(CMAKE_AUTOMOC ON)" +:+ nl +:+
       "set(CMAKE_AUTOUIC ON)" +:+ nl +:+
       "set(CMAKE_INCLUDE_CURRENT_DIR ON)" +:+ nl)
      "Qt5::Widgets";
    Rule.mk (Regex.include (Regex.text "<openssl/ssl.h>"))
      ("find_package(OpenSSL REQUIRED)" +:+ nl) "${OPENSSL_LIBRARIES}" ].

(** ** The filesystem *)

Inductive node : Type :=
| Dir
| File (content : string).

Module Fs.

(** [fs::exists(p)] *)
Definition exists_ (fs : gmap string node) (p : string) : bool :=
  match fs !! p with Some _ => true | None => false end.

Definition is_directory (fs : gmap string node) (p : string) : bool :=
  match fs !! p with Some Dir => true | _ => false end.

(** The directory [d] a new file is to be created in exists; the empty
    path stands for the current directory or the root. *)
Definition dir_exists (fs : gmap string node) (d : string) : bool :=
  match d with
  | "" => true
  | _ => is_directory fs d
  end.

(** A file can be opened for writing at [p]. *)
Definition can_open (fs : gmap string node) (p : string) : bool :=
  dir_exists fs (Path.parent_path p) && negb (is_directory fs p).

(** The path [p] cut after each of its components: for [a/b/c] the
    paths [a], [a/b] and [a/b/c]. [seen] holds the characters read, in
    reverse. *)
Fixpoint prefixes_go (seen rest : string) : list string :=
  match rest with
  | "" => [String.rev seen]
  | String c rest' =>
      (if Str.eqc c "/"
       then match seen with "" => [] | _ => [String.rev seen] end
       else [])
      ++ prefixes_go (String c seen) rest'
  end.
Definition prefixes (p : string) : list string := prefixes_go "" p.

(** Creates the directories [ds], outermost first. The result is [None]
    when a regular file is in the way ([filesystem_error]), and otherwise
    whether the last directory was created by this call. *)
Fixpoint mkdirs (ds : list string) (created : bool) (fs : gmap string node)
  : gmap string node * option bool :=
  match ds with
  | [] => (fs, Some created)
  | d :: ds' =>
      match fs !! d with
      | Some (File _) => (fs, None)
      | Some Dir => mkdirs ds' false fs
      | None => mkdirs ds' true (<[d := Dir]> fs)
      end
  end.

(** [fs::create_directories(p)] *)
Definition create_directories (p : string) (fs : gmap string node)
  : gmap string node * option bool :=
  mkdirs (prefixes p) false fs.

(** Appends [txt] to the regular file at [p]. *)
Definition append (p txt : string) (fs : gmap string node) : gmap string node :=
  alter (fun n => match n with File c => File (c +:+ txt) | Dir => Dir end) p fs.

(** What an [std::ofstream] constructed on [p], written once and closed
    leaves behind: nothing when the file cannot be opened. *)
Definition write_file (p txt : string) (fs : gmap string node) : gmap string node :=
  if can_open fs p then <[p := File txt]> fs else fs.

End Fs.

(** ** [std::ofstream] *)

Module Ofstream.

(** The file the stream is open on, and its fail bit. *)
Record t : Type := mk { path : option string; fail : bool }.

Definition closed : t := mk None false.

(** [if (s)] *)
Definition good (s : t) : bool := negb (fail s).

(** [s.open(p)]: fails on a stream that is open; otherwise creates or
    truncates the file and clears the state. *)
Definition open (p : string) (s : t) (fs : gmap string node)
  : t * gmap string node :=
  match path s with
  | Some _ => (mk (path s) true, fs)
  | None =>
      if Fs.can_open fs p then (mk (Some p) false, <[p := File ""]> fs)
      else (mk None true, fs)
  end.

(** [s.close()] *)
Definition close (s : t) : t :=
  match path s with
  | Some _ => mk None (fail s)
  | None => mk None true
  end.

(** [s << txt] *)
Definition write (txt : string) (s : t) (fs : gmap string node)
  : t * gmap string node :=
  if fail s then (s, fs)
  else match path s with
       | Some p => (s, Fs.append p txt fs)
       | None => (mk None true, fs)
       end.

End Ofstream.

(** ** The state: the [AutoProject] object, the locals of [createProject]
    and the filesystem *)

(** Modelled from the spec: the declarations of the members [extraRules],
    [libraries] and [srcnames], which are in [AutoProject.h] and not among the
    sources; the spec has them as sets, of build snippets, of library
    references and of file names, without duplicates. The other fields are
    the members the constructor sets (lines 38-43), the locals of
    [createProject] (lines 67-72) and the filesystem. *)

Record state : Type := mkState {
  mdfile : string;
  projname : string;
  srcdir : string;
  input : list string;
  extraRules : gset string;
  libraries : gset string;
  srcnames : gset string;
  prevline : string;
  inIndentedFile : bool;
  inDelimitedFile : bool;
  firstFile : bool;
  srcfile : Ofstream.t;
  srcfilename : string;
  disk : gmap string node
}.

Definition set_input (v : list string) (s : state) : state :=
  {| mdfile := mdfile s; projname := projname s; srcdir := srcdir s;
     input := v; extraRules := extraRules s; libraries := libraries s;
     srcnames := srcnames s; prevline := prevline s;
     inIndentedFile := inIndentedFile s;
     inDelimitedFile := inDelimitedFile s; firstFile := firstFile s;
     srcfile := srcfile s; srcfilename := srcfilename s; disk := disk s |}.

Definition set_extraRules (v : gset string) (s : state) : state :=
  {| mdfile := mdfile s; projname := projname s; srcdir := srcdir s;
     input := input s; extraRules := v; libraries := libraries s;
     srcnames := srcnames s; prevline := prevline s;
     inIndentedFile := inIndentedFile s;
     inDelimitedFile := inDelimitedFile s; firstFile := firstFile s;
     srcfile := srcfile s; srcfilename := srcfilename s; disk := disk s |}.

Definition set_libraries (v : gset string) (s : state) : state :=
  {| mdfile := mdfile s; projname := projname s; srcdir := srcdir s;
     input := input s; extraRules := extraRules s; libraries := v;
     srcnames := srcnames s; prevline := prevline s;
     inIndentedFile := inIndentedFile s;
     inDelimitedFile := inDelimitedFile s; firstFile := firstFile s;
     srcfile := srcfile s; srcfilename := srcfilename s; disk := disk s |}.

Definition set_srcnames (v : gset string) (s : state) : state :=
  {| mdfile := mdfile s; projname := projname s; srcdir := srcdir s;
     input := input s; extraRules := extraRules s; libraries := libraries s;
     srcnames := v; prevline := prevline s;
     inIndentedFile := inIndentedFile s;
     inDelimitedFile := inDelimitedFile s; firstFile := firstFile s;
     srcfile := srcfile s; srcfilename := srcfilename s; disk := disk s |}.

Definition set_prevline (v : string) (s : state) : state :=
  {| mdfile := mdfile s; projname := projname s; srcdir := srcdir s;
     input := input s; extraRules := extraRules s; libraries := libraries s;
     srcnames := srcnames s; prevline := v;
     inIndentedFile := inIndentedFile s;
     inDelimitedFile := inDelimitedFile s; firstFile := firstFile s;
     srcfile := srcfile s; srcfilename := srcfilename s; disk := disk s |}.

Definition set_inIndentedFile (v : bool) (s : state) : state :=
  {| mdfile := mdfile s; projname := projname s; srcdir := srcdir s;
     input := input s; extraRules := extraRules s; libraries := libraries s;
     srcnames := srcnames s; prevline := prevline s; inIndentedFile := v;
     inDelimitedFile := inDelimitedFile s; firstFile := firstFile s;
     srcfile := srcfile s; srcfilename := srcfilename s; disk := disk s |}.

Definition set_inDelimitedFile (v : bool) (s : state) : state :=
  {| mdfile := mdfile s; projname := projname s; srcdir := srcdir s;
     input := input s; extraRules := extraRules s; libraries := libraries s;
     srcnames := srcnames s; prevline := prevline s;
     inIndentedFile := inIndentedFile s; inDelimitedFile := v;
     firstFile := firstFile s; srcfile := srcfile s;
     srcfilename := srcfilename s; disk := disk s |}.

Definition set_firstFile (v : bool) (s : state) : state :=
  {| mdfile := mdfile s; projname := projname s; srcdir := srcdir s;
     input := input s; extraRules := extraRules s; libraries := libraries s;
     srcnames := srcnames s; prevline := prevline s;
     inIndentedFile := inIndentedFile s;
     inDelimitedFile := inDelimitedFile s; firstFile := v;
     srcfile := srcfile s; srcfilename := srcfilename s; disk := disk s |}.

Definition set_srcfile (v : Ofstream.t) (s : state) : state :=
  {| mdfile := mdfile s; projname := projname s; srcdir := srcdir s;
     input := input s; extraRules := extraRules s; libraries := libraries s;
     srcnames := srcnames s; prevline := prevline s;
     inIndentedFile := inIndentedFile s;
     inDelimitedFile := inDelimitedFile s; firstFile := firstFile s;
     srcfile := v; srcfilename := srcfilename s; disk := disk s |}.

Definition set_srcfilename (v : string) (s : state) : state :=
  {| mdfile := mdfile s; projname := projname s; srcdir := srcdir s;
     input := input s; extraRules := extraRules s; libraries := libraries s;
     srcnames := srcnames s; prevline := prevline s;
     inIndentedFile := inIndentedFile s;
     inDelimitedFile := inDelimitedFile s; firstFile := firstFile s;
     srcfile := srcfile s; srcfilename := v; disk := disk s |}.

Definition set_disk (v : gmap string node) (s : state) : state :=
  {| mdfile := mdfile s; projname := projname s; srcdir := srcdir s;
     input := input s; extraRules := extraRules s; libraries := libraries s;
     srcnames := srcnames s; prevline := prevline s;
     inIndentedFile := inIndentedFile s;
     inDelimitedFile := inDelimitedFile s; firstFile := firstFile s;
     srcfile := srcfile s; srcfilename := srcfilename s; disk := v |}.

(** ** Computations that change the state or throw *)

Inductive exn : Type :=
| AlreadyExists           (* runtime_error: projname already exists: will not overwrite. *)
| CannotCreateDirectory   (* runtime_error: Cannot create directory srcdir *)
| FilesystemError.        (* filesystem_error of the library *)

Inductive outcome (A : Type) : Type :=
| Ret (a : A) (s : state)
| Throw (e : exn) (s : state).
Arguments Ret {A} a s.
Arguments Throw {A} e s.

Definition M (A : Type) : Type := state -> outcome A.

#[global] Instance M_ret : MRet M := fun A a s => Ret a s.
#[global] Instance M_bind : MBind M := fun A B f m s =>
  match m s with
  | Ret a s' => f a s'
  | Throw e s' => Throw e s'
  end.

Definition get : M state := fun s => Ret s s.
Definition modify (f : state -> state) : M unit := fun s => Ret tt (f s).
Definition throw {A : Type} (e : exn) : M A := fun s => Throw e s.

(** The final state of a computation, however it ended. *)
Definition final {A : Type} (o : outcome A) : state :=
  match o with
  | Ret _ s => s
  | Throw _ s => s
  end.

(** ** The rule matcher (lines 329-336) *)

Definition applyRule (line : string) (s : state) (rule : Rule.t) : state :=
  if Regex.regex_search line (Rule.re rule)
  then set_libraries ({[ Rule.libraries rule ]} ∪ libraries s)
         (set_extraRules ({[ Rule.cmake rule ]} ∪ extraRules s) s)
  else s.

Definition checkRules (line : string) (s : state) : state :=
  fold_left (applyRule line) rules s.

(** ** Writing to the open block *)

Definition srcfile_write (txt : string) (s : state) : state :=
  let '(f, d) := Ofstream.write txt (srcfile s) (disk s) in
  set_disk d (set_srcfile f s).

Definition emit (line : string) : M unit := modify (srcfile_write (emit_text line)).
Definition emitVerbatim (line : string) : M unit :=
  modify (srcfile_write (emitVerbatim_text line)).

Definition srcfile_open : M unit :=
  modify (fun s =>
    let '(f, d) := Ofstream.open (srcfilename s) (srcfile s) (disk s) in
    set_disk d (set_srcfile f s)).

Definition srcfile_close : M unit :=
  modify (fun s => set_srcfile (Ofstream.close (srcfile s)) s).

(** ** [AutoProject::makeTree] (lines 157-165) *)

Definition create_directories (p : string) : M bool :=
  s ← get;
  let '(d, r) := Fs.create_directories p (disk s) in
  modify (set_disk d);;
  match r with
  | Some b => mret b
  | None => throw FilesystemError
  end.

Definition makeTree (overwrite : bool) : M unit :=
  s ← get;
  if Fs.exists_ (disk s) (projname s) && negb overwrite then throw AlreadyExists
  else
    created ← create_directories (srcdir s);
    if negb created then throw CannotCreateDirectory
    else create_directories (projname s +:+ "/build");; mret tt.

(** ** One iteration of the loop of [createProject] (lines 75-145)

    [std::swap(prevline, line)] is the assignment of [line] to [prevline],
    [line] being dead afterwards. *)

Definition isSourceFilename_prevline : M bool :=
  s ← get;
  modify (set_prevline (trimExtras (prevline s)));;
  mret (isSourceFilename (prevline s)).

Definition makeTree_once (overwrite : bool) : M unit :=
  s ← get;
  if firstFile s then makeTree overwrite;; modify (set_firstFile false)
  else mret tt.

Definition srcnames_emplace : M unit :=
  modify (fun s => set_srcnames ({[ Path.filename (srcfilename s) ]} ∪ srcnames s) s).

(** The body of [if (srcfile)] of the two indented branches. *)
Definition start_indented (line : string) : M unit :=
  s ← get;
  if Ofstream.good (srcfile s) then
    modify (checkRules line);;
    emit line;;
    srcnames_emplace;;
    modify (set_inIndentedFile true)
  else mret tt.

Definition step (overwrite : bool) (raw : string) : M unit :=
  let line := replaceLeadingTabs raw in
  s ← get;
  if inIndentedFile s then
    if negb (isIndentedOrEmpty line) then
      modify (set_prevline line);;
      srcfile_close;;
      modify (set_inIndentedFile false)
    else
      modify (checkRules line);;
      emit line
  else if inDelimitedFile s then
    if isDelimited line then
      modify (set_prevline line);;
      srcfile_close;;
      modify (set_inDelimitedFile false)
    else
      modify (checkRules line);;
      emitVerbatim line
  else
    if isDelimited line then
      named ← isSourceFilename_prevline;
      s ← get;
      modify (set_srcfilename
                (Path.join (srcdir s) (if (named : bool) then prevline s else "main.cpp")));;
      makeTree_once overwrite;;
      srcfile_open;;
      s ← get;
      if Ofstream.good (srcfile s) then
        srcnames_emplace;;
        modify (set_inDelimitedFile true)
      else mret tt
    else if isNonEmptyIndented line then
      named ← isSourceFilename_prevline;
      s ← get;
      if (named : bool) then
        makeTree_once overwrite;;
        modify (set_srcfilename (Path.join (srcdir s) (prevline s)));;
        srcfile_open;;
        start_indented line
      else if firstFile s && negb (bool_decide (line = "")) then
        makeTree overwrite;;
        modify (set_firstFile false);;
        modify (set_srcfilename (Path.join (srcdir s) "main.cpp"));;
        srcfile_open;;
        start_indented line
      else mret tt
    else
      if negb (isEmptyOrUnderline line) then modify (set_prevline line)
      else mret tt.

(** The loop [for (std::string line; getline(in, line); )]. *)
Fixpoint scan (overwrite : bool) (lines : list string) : M unit :=
  match lines with
  | [] => mret tt
  | line :: rest => step overwrite line;; scan overwrite rest
  end.

(** ** The build files (lines 228-262) *)

Definition catl (l : list string) : string := fold_right String.append "" l.

Definition dq : string := String Str.dquote "".

(** [out << p] for a path [p]: the name between double quotes, with a
    backslash before each double quote and backslash ([std::quoted]). *)
Fixpoint escaped (s : string) : string :=
  match s with
  | "" => ""
  | String c s' =>
      if Str.eqc c Str.dquote || Str.eqc c Str.backslash
      then String Str.backslash (String c (escaped s'))
      else String c (escaped s')
  end.
Definition quoted (p : string) : string := dq +:+ escaped p +:+ dq.

(** The sequences the loops of [writeSrcLevel] go through. *)
Definition snippets_written (s : state) : list string := elements (extraRules s).
Definition names_written (s : state) : list string := elements (srcnames s).
Definition libraries_written (s : state) : list string := elements (libraries s).

Definition srcLevel_text (projname : string) (snippets names libs : list string)
  : string :=
  "cmake_minimum_required(" +:+ cmakeVersion +:+ ")" +:+ nl +:+
  "set(EXECUTABLE_NAME " +:+ dq +:+ projname +:+ dq +:+ ")" +:+ nl +:+
  catl ((fun rule => rule +:+ nl) <$> snippets) +:+
  "add_executable(${EXECUTABLE_NAME}" +:+
  catl ((fun fn => " " +:+ quoted fn) <$> names) +:+
  ")" +:+ nl +:+ "target_link_libraries(${EXECUTABLE_NAME} " +:+
  catl ((fun lib => lib +:+ " ") <$> libs) +:+
  ")" +:+ nl.

Definition writeSrcLevel : M unit :=
  modify (fun s =>
    set_disk
      (Fs.write_file (srcdir s +:+ "/CMakeLists.txt")
         (srcLevel_text (projname s) (snippets_written s) (names_written s)
            (libraries_written s))
         (disk s)) s).

Definition topLevel_text (projname : string) : string :=
  "cmake_minimum_required(" +:+ cmakeVersion +:+ ")" +:+ nl +:+
  "project(" +:+ projname +:+ ")" +:+ nl +:+
  "set(CMAKE_CXX_STANDARD 14)" +:+ nl +:+
  "set(CMAKE_CXX_FLAGS " +:+ dq +:+ "${CMAKE_CXX_FLAGS} -Wall -Wextra -pedantic" +:+
  dq +:+ ")" +:+ nl +:+
  "add_subdirectory(src)" +:+ nl.

Definition writeTopLevel : M unit :=
  modify (fun s =>
    set_disk
      (Fs.write_file (projname s +:+ "/CMakeLists.txt") (topLevel_text (projname s))
         (disk s)) s).

(** [fs::copy_file(from, to)]: [from] is a regular file, [to] does not
    exist and its directory does. *)
Definition copy_file (from to : string) : M unit :=
  s ← get;
  match disk s !! from, disk s !! to with
  | Some (File c), None =>
      if Fs.dir_exists (disk s) (Path.parent_path to)
      then modify (set_disk (<[to := File c]> (disk s)))
      else throw FilesystemError
  | _, _ => throw FilesystemError
  end.

(** ** [AutoProject::createProject] (lines 66-155) *)

Definition init_locals (s : state) : state :=
  set_prevline "" (set_inIndentedFile false (set_inDelimitedFile false
    (set_firstFile true (set_srcfile Ofstream.closed (set_srcfilename "" s))))).

(** The end of [createProject] (lines 147-154). *)
Definition finish : M bool :=
  modify (set_input []);;
  s ← get;
  (if negb (bool_decide (srcnames s = ∅)) then
     writeSrcLevel;;
     writeTopLevel;;
     copy_file (mdfile s) (srcdir s +:+ "/" +:+ projname s +:+ mdextension)
   else mret tt);;
  mret (negb (bool_decide (srcnames s = ∅))).

Definition createProject (overwrite : bool) : M bool :=
  modify init_locals;;
  s ← get;
  scan overwrite (input s);;
  finish.

(** ** The constructor (lines 38-50) *)

(** The object the constructor builds for the document [mdfile], read as
    the lines [doc], where [stem] is the file name of [mdfile] without its
    extension; the filesystem is [fs]. *)
Definition AutoProject (mdfile stem : string) (doc : list string)
    (fs : gmap string node) : state :=
  {| mdfile := mdfile; projname := stem; srcdir := stem +:+ "/src";
     input := doc; extraRules := ∅; libraries := ∅; srcnames := ∅;
     prevline := ""; inIndentedFile := false; inDelimitedFile := false;
     firstFile := true; srcfile := Ofstream.closed; srcfilename := "";
     disk := fs |}.

(** The lines [getline] yields for a text: the pieces between line feeds,
    and the piece after the last one when it is not empty. [cur] holds the
    characters of the current line, in reverse. *)
Fixpoint getlines_go (cur text : string) : list string :=
  match text with
  | "" => match cur with "" => [] | _ => [String.rev cur] end
  | String c text' =>
      if Str.eqc c Str.lf then String.rev cur :: getlines_go "" text'
      else getlines_go (String c cur) text'
  end.
Definition getlines (text : string) : list string := getlines_go "" text.

Inductive ctor_exn : Type :=
| FileExtensionException   (* Input file must have .md extension *)
| CannotOpenInput.         (* runtime_error: Cannot open input file *)

(** [AutoProject::open(mdFilename)]: the constructor, on the filesystem
    [fs]. An [std::ifstream] opens a directory without an error, and every
    read from it fails, so [getline] yields no line; a path that does not
    exist cannot be opened. *)
Definition AutoProject_open (mdFilename : string) (fs : gmap string node)
  : ctor_exn + state :=
  if negb (bool_decide (Path.extension mdFilename = mdextension))
  then inl FileExtensionException
  else match fs !! mdFilename with
       | Some (File text) =>
           inr (AutoProject mdFilename (Path.stem mdFilename) (getlines text) fs)
       | Some Dir =>
           inr (AutoProject mdFilename (Path.stem mdFilename) [] fs)
       | None => inl CannotOpenInput
       end.

(** ** Vocabulary of the properties *)

(** A line that, read outside a block, is a fence or starts an indented
    run. *)
Definition opens_block (raw : string) : bool :=
  let line := replaceLeadingTabs raw in
  isDelimited line || isNonEmptyIndented line.

(** The caption candidate after a line that opens no block. *)
Definition caption_step (prev raw : string) : string :=
  let line := replaceLeadingTabs raw in
  if isEmptyOrUnderline line then prev else line.

Definition caption_after (prev : string) (lines : list string) : string :=
  fold_left caption_step lines prev.

(** No line of [lines] opens a block. *)
Definition quiet (lines : list string) : bool :=
  forallb (fun raw => negb (opens_block raw)) lines.

(** No line of [lines] is a fence. *)
Definition fence_free (lines : list string) : bool :=
  forallb (fun raw => negb (isDelimited (replaceLeadingTabs raw))) lines.

(** Every line of [lines] continues an indented block. *)
Definition indented_run (lines : list string) : bool :=
  forallb (fun raw => isIndentedOrEmpty (replaceLeadingTabs raw)) lines.

(** What the scanner writes for the lines of a fenced block and of an
    indented block. *)
Definition verbatim_text (body : list string) : string :=
  catl ((fun raw => emitVerbatim_text (replaceLeadingTabs raw)) <$> body).

Definition indented_text (block : list string) : string :=
  catl ((fun raw => emit_text (replaceLeadingTabs raw)) <$> block).

(** The lines of a text, each followed by a line feed. *)
Definition unlines (lines : list string) : string :=
  catl ((fun l => l +:+ nl) <$> lines).

(** The rules a line matches, as the snippets and the libraries they add. *)
Definition matching (line : string) : list Rule.t :=
  List.filter (fun rule => Regex.regex_search line (Rule.re rule)) rules.

Definition matched_snippets (line : string) : gset string :=
  list_to_set (Rule.cmake <$> matching line).

Definition matched_libraries (line : string) : gset string :=
  list_to_set (Rule.libraries <$> matching line).

(** Neither the project directory [stem] nor anything below it exists. *)
Fixpoint starts_with (pre s : string) : bool :=
  match pre, s with
  | "", _ => true
  | String a pre', String b s' => Str.eqc a b && starts_with pre' s'
  | String _ _, "" => false
  end.

Definition project_absent (stem : string) (fs : gmap string node) : bool :=
  forallb (fun '(p, _) =>
             negb (bool_decide (p = stem)) && negb (starts_with (stem +:+ "/") p))
          (map_to_list fs).

(** A file name that is not empty and has no separator in it. *)
Definition plain (name : string) : bool :=
  negb (bool_decide (name = "")) && negb (Str.mem "/" name).

(** At most one block is open: the two block states exclude each other,
    and the stream is open, on one file and without error, exactly while
    the scanner is in one of them. *)
Definition one_block (s : state) : Prop :=
  (inIndentedFile s && inDelimitedFile s = false) /\
  (is_Some (Ofstream.path (srcfile s)) <->
   inIndentedFile s || inDelimitedFile s = true) /\
  (inIndentedFile s || inDelimitedFile s = true -> Ofstream.fail (srcfile s) = false).


(** The directories [makeTree] creates for the project [stem]. *)
Definition tree (stem : string) (fs : gmap string node) : gmap string node :=
  <[stem +:+ "/build" := Dir]> (<[stem +:+ "/src" := Dir]> (<[stem := Dir]> fs)).

(** The snippets and libraries accumulated over the lines of a block. *)
Definition snippets_after (lines : list string) (E : gset string) : gset string :=
  fold_left (fun E raw => matched_snippets (replaceLeadingTabs raw) ∪ E) lines E.

Definition libraries_after (lines : list string) (L : gset string) : gset string :=
  fold_left (fun L raw => matched_libraries (replaceLeadingTabs raw) ∪ L) lines L.

(** A line without its indentation unit: the line itself when it is
    shorter than the unit. *)
Definition unindent (line : string) : string :=
  if Str.size line <? indentLevel then line else Str.substr indentLevel line.

(** What follows an indented block: nothing, or a line that is not
    indented and then lines that open no block. *)
Definition after_block (post : list string) : bool :=
  match post with
  | [] => true
  | t :: post' => negb (isIndentedOrEmpty (replaceLeadingTabs t)) && quiet post'
  end.

(** Every path of [d] is still there in [d']. *)
Definition grows (d d' : gmap string node) : Prop :=
  forall p, is_Some (d !! p) -> is_Some (d' !! p).

(** ** Vocabulary of the further properties *)

(** Every character of [s] satisfies [p]. *)
Fixpoint all_chars (p : ascii -> bool) (s : string) : bool :=
  match s with
  | "" => true
  | String c s' => p c && all_chars p s'
  end.

(** The first character of [s] fails [p], if [s] has one. *)
Definition stops (p : ascii -> bool) (s : string) : bool :=
  match s with
  | "" => true
  | String c _ => negb (p c)
  end.

(** What [trim(str, ch)] skips: [ch] and white space. *)
Definition trimmed (ch : ascii) (c : ascii) : bool := Str.eqc c ch || Str.isspace c.

(** The characters [trimExtras] strips, and the two it recognizes the
    bold tags by. *)
Definition decoration (c : ascii) : bool :=
  Str.mem c "#*-:<>" || Str.eqc c Str.dquote || Str.isspace c.

(** A name whose first and last characters are no decoration. *)
Definition bare (name : string) : bool :=
  match name, Str.reverse name with
  | String a _, String z _ => negb (decoration a) && negb (decoration z)
  | _, _ => false
  end.

(** An optional tag. *)
Definition tagged (b : bool) (tag : string) : string := if b then tag else "".

(** The strings that are a sequence of pieces, one of each class of [Ls]
    in order. *)
Fixpoint layered (Ls : list (string -> Prop)) (x : string) : Prop :=
  match Ls with
  | [] => x = ""
  | A :: Ls' => exists a b, x = a +:+ b /\ A a /\ layered Ls' b
  end.

(** The pieces made of [ch] and white space, and the optional piece [t]. *)
Definition cls (ch : ascii) : string -> Prop :=
  fun a => all_chars (trimmed ch) a = true.
Definition opt (t : string) : string -> Prop := fun a => a = "" \/ a = t.

(** A class of pieces that holds the empty piece and is kept by a strip. *)
Definition closed_under (p : ascii -> bool) (A : string -> Prop) : Prop :=
  A "" /\ forall a, A a -> A (Str.skip p a).

(** The decoration in front of a caption and, read from the end of the
    line, behind it, in the order [trimExtras] strips it. *)
Definition front_decoration : list (string -> Prop) :=
  [cls "#"; cls "*"; opt "<b>"; cls Str.dquote].
Definition back_decoration : list (string -> Prop) :=
  [cls "#"; cls "*"; opt ">b/<"; cls Str.dquote; cls "-"; cls ":"].

(** The strings a pattern of the rule table stands for. *)
Inductive lang : Regex.t -> string -> Prop :=
| lang_eps : lang Regex.Eps ""
| lang_chr c : lang (Regex.Chr c) (String c "")
| lang_dot c :
    Str.eqc c Str.lf || Str.eqc c Str.cr = false -> lang Regex.Dot (String c "")
| lang_space c : Str.isspace c = true -> lang Regex.Space (String c "")
| lang_seq r1 r2 w1 w2 :
    lang r1 w1 -> lang r2 w2 -> lang (Regex.Seq r1 r2) (w1 +:+ w2)
| lang_alt_l r1 r2 w : lang r1 w -> lang (Regex.Alt r1 r2) w
| lang_alt_r r1 r2 w : lang r2 w -> lang (Regex.Alt r1 r2) w
| lang_star_nil r : lang (Regex.Star r) ""
| lang_star_cons r w1 w2 :
    lang r w1 -> lang (Regex.Star r) w2 -> lang (Regex.Star r) (w1 +:+ w2).

(** Every directory of [d] is still a directory in [d']. *)
Definition keeps_dirs (d d' : gmap string node) : Prop :=
  forall q, d !! q = Some Dir -> d' !! q = Some Dir.

(** Every line of [lines] is empty or made of dashes. *)
Definition blank (lines : list string) : bool :=
  forallb (fun raw => isEmptyOrUnderline (replaceLeadingTabs raw)) lines.

(** The directories of a project, and the filesystems [d'] whose
    directories are those of [d] or among [S]. *)
Definition project_dirs (pn : string) : list string :=
  [pn; pn +:+ "/src"; pn +:+ "/build"].

Definition dirs_within (S : list string) (d d' : gmap string node) : Prop :=
  forall q, d' !! q = Some Dir -> d !! q = Some Dir \/ q ∈ S.

(** Every regular file of [d] is still a regular file in [d']. *)
Definition keeps_files (d d' : gmap string node) : Prop :=
  forall q c, d !! q = Some (File c) -> exists c', d' !! q = Some (File c').

(** Every file name recorded is the name of a regular file that exists. *)
Definition names_exist (s : state) : Prop :=
  forall n, n ∈ srcnames s ->
    exists p c, Path.filename p = n /\ disk s !! p = Some (File c).


(** * Properties *)

(** ** Strings *)

Section strings.
Implicit Types a b c s t : string.

Lemma app_cons ch s t : String ch s +:+ t = String ch (s +:+ t).
Proof. reflexivity. Qed.

Lemma app_empty_l s : "" +:+ s = s.
Proof. reflexivity. Qed.

Lemma app_empty_r s : s +:+ "" = s.
Proof. induction s as [|ch s IH]; [done|]. by rewrite app_cons, IH. Qed.

Lemma app_assoc_s a b c : (a +:+ b) +:+ c = a +:+ (b +:+ c).
Proof. induction a as [|ch a IH]; [done|]. by rewrite !app_cons, IH. Qed.

Lemma length_app_s a b : String.length (a +:+ b) = String.length a + String.length b.
Proof. induction a as [|ch a IH]; [done|]. rewrite app_cons. simpl. by rewrite IH. Qed.

Lemma rev_app_app a b c : String.rev_app a b +:+ c = String.rev_app a (b +:+ c).
Proof. revert b. induction a as [|ch a IH]; intros b; [done|]. simpl. by rewrite IH. Qed.

Lemma rev_app_rev_app a b c :
  String.rev_app (String.rev_app a b) c = String.rev_app b (a +:+ c).
Proof.
  revert b. induction a as [|ch a IH]; intros b; [done|].
  simpl. by rewrite IH.
Qed.

Lemma rev_rev_app a b : String.rev (String.rev_app a b) = String.rev b +:+ a.
Proof.
  unfold String.rev. rewrite rev_app_rev_app, app_empty_r.
  by rewrite rev_app_app.
Qed.

Lemma rev_involutive_s a : String.rev (String.rev a) = a.
Proof. unfold String.rev at 2. by rewrite rev_rev_app. Qed.

Lemma eqc_true x y : Str.eqc x y = true <-> x = y.
Proof. apply Ascii.eqb_eq. Qed.

Lemma eqc_false x y : Str.eqc x y = false <-> x <> y.
Proof. apply Ascii.eqb_neq. Qed.

Lemma mem_app ch a b : Str.mem ch (a +:+ b) = Str.mem ch a || Str.mem ch b.
Proof.
  induction a as [|d a IH]; [done|].
  rewrite app_cons. simpl. by rewrite IH, orb_assoc.
Qed.

Lemma substring_app a b : String.substring 0 (String.length a) (a +:+ b) = a.
Proof.
  induction a as [|ch a IH]; simpl.
  - by destruct b.
  - by rewrite IH.
Qed.

Lemma starts_with_app a b : starts_with a (a +:+ b) = true.
Proof.
  induction a as [|ch a IH]; [done|].
  rewrite app_cons. simpl. rewrite IH.
  by rewrite (proj2 (eqc_true ch ch) eq_refl).
Qed.

Lemma catl_app (l1 l2 : list string) : catl (l1 ++ l2) = catl l1 +:+ catl l2.
Proof.
  induction l1 as [|x l1 IH]; [done|].
  simpl. by rewrite IH, app_assoc_s.
Qed.

End strings.

(** ** Paths *)

Section paths.
Implicit Types d name acc : string.

Lemma filename_go_plain acc name :
  Str.mem "/" name = false ->
  Path.filename_go acc name = String.rev acc +:+ name.
Proof.
  revert acc. induction name as [|ch name IH]; intros acc Hm; simpl.
  - by rewrite app_empty_r.
  - simpl in Hm. apply orb_false_iff in Hm as [Hc Hm].
    rewrite Hc, (IH _ Hm).
    change (String ch acc) with (String.rev_app (String ch "") acc).
    by rewrite rev_rev_app, app_assoc_s.
Qed.

Lemma filename_go_sep acc d name :
  Path.filename_go acc (d +:+ String "/" name) = Path.filename_go "" name.
Proof.
  revert acc. induction d as [|ch d IH]; intros acc.
  - done.
  - rewrite app_cons. simpl. destruct (Str.eqc ch "/"); apply IH.
Qed.

(** The file name of [d/name] is [name]. *)
Lemma filename_join d name :
  Str.mem "/" name = false -> Path.filename (d +:+ "/" +:+ name) = name.
Proof.
  intros Hm. unfold Path.filename.
  change ("/" +:+ name) with (String "/" name).
  rewrite (filename_go_sep "" d name), filename_go_plain by done. done.
Qed.

Lemma parent_path_join d name :
  Str.mem "/" name = false -> Path.parent_path (d +:+ "/" +:+ name) = d.
Proof.
  intros Hm. unfold Path.parent_path, Str.erase_back, Str.size.
  rewrite filename_join by done.
  rewrite !length_app_s.
  replace (String.length d + (String.length "/" + String.length name)
           - (String.length name + 1))
    with (String.length d) by (simpl; lia).
  apply substring_app.
Qed.

Lemma is_absolute_plain name : Str.mem "/" name = false -> Path.is_absolute name = false.
Proof.
  destruct name as [|ch name]; [done|]. simpl. intros [H _]%orb_false_iff.
  apply eqc_false in H. destruct ch as [[] [] [] [] [] [] [] []]; try done.
Qed.

Lemma join_plain d name :
  Str.mem "/" name = false -> Path.join d name = d +:+ "/" +:+ name.
Proof. intros Hm. unfold Path.join. by rewrite is_absolute_plain. Qed.

Lemma plain_spec name : plain name = true -> name <> "" /\ Str.mem "/" name = false.
Proof.
  unfold plain. intros [H1 H2]%andb_true_iff. split.
  - apply negb_true_iff, bool_decide_eq_false in H1. done.
  - by apply negb_true_iff in H2.
Qed.

End paths.

(** ** The filesystem *)

Section filesystem.
Implicit Types fs : gmap string node.
Implicit Types stem x p : string.

Lemma prefixes_go_plain seen a rest :
  Str.mem "/" a = false ->
  Fs.prefixes_go seen (a +:+ rest) = Fs.prefixes_go (String.rev_app a seen) rest.
Proof.
  revert seen. induction a as [|ch a IH]; intros seen Hm; [done|].
  simpl in Hm. apply orb_false_iff in Hm as [Hc Hm].
  rewrite app_cons. simpl. rewrite Hc. simpl. by apply IH.
Qed.

Lemma rev_empty s : String.rev s = "" -> s = "".
Proof. intros H. by rewrite <- (rev_involutive_s s), H. Qed.

(** The directories [create_directories] goes through for [stem/x]. *)
Lemma prefixes_join stem x :
  plain stem = true -> Str.mem "/" x = false ->
  Fs.prefixes (stem +:+ "/" +:+ x) = [stem; stem +:+ "/" +:+ x].
Proof.
  intros [Hne Hs]%plain_spec Hx. unfold Fs.prefixes.
  rewrite prefixes_go_plain by done.
  change ("/" +:+ x) with (String "/" x). simpl.
  fold (String.rev stem).
  destruct (String.rev stem) eqn:Hrev; [by apply rev_empty in Hrev|].
  rewrite <- Hrev. rewrite rev_involutive_s. simpl. f_equal.
  rewrite <- (app_empty_r x) at 1.
  rewrite prefixes_go_plain by done. simpl. f_equal.
  change (String "/" (String.rev stem))
    with (String.rev_app (String "/" "") (String.rev stem)).
  rewrite rev_rev_app, rev_rev_app, rev_involutive_s.
  by rewrite app_assoc_s.
Qed.

Lemma project_absent_spec stem fs :
  project_absent stem fs = true ->
  fs !! stem = None /\ forall x, fs !! (stem +:+ "/" +:+ x) = None.
Proof.
  unfold project_absent. rewrite forallb_forall. intros H.
  assert (forall p n, fs !! p = Some n ->
            p <> stem /\ starts_with (stem +:+ "/") p = false) as Hall.
  { intros p n Hp. apply elem_of_map_to_list, list_elem_of_In in Hp.
    apply H in Hp. apply andb_true_iff in Hp as [H1 H2]. split.
    - by apply negb_true_iff, bool_decide_eq_false in H1.
    - by apply negb_true_iff in H2. }
  split.
  - destruct (fs !! stem) eqn:E; [|done]. by destruct (Hall _ _ E).
  - intros x. destruct (fs !! (stem +:+ "/" +:+ x)) eqn:E; [|done].
    destruct (Hall _ _ E) as [_ Hs].
    by rewrite <- app_assoc_s, starts_with_app in Hs.
Qed.

Lemma join_ne_stem stem x : stem +:+ "/" +:+ x <> stem.
Proof.
  intros H. apply (f_equal String.length) in H.
  rewrite !length_app_s in H. simpl in H. lia.
Qed.

Lemma join_inj stem x y : stem +:+ "/" +:+ x = stem +:+ "/" +:+ y -> x = y.
Proof. intros H. apply (inj (String.app stem)) in H. by simplify_eq. Qed.

(** [create_directories] on the two directories of a project that does
    not exist yet. *)
Lemma create_directories_src stem fs :
  plain stem = true -> project_absent stem fs = true ->
  Fs.create_directories (stem +:+ "/src") fs =
    (<[stem +:+ "/src" := Dir]> (<[stem := Dir]> fs), Some true).
Proof.
  intros Hp [Hs Hx]%project_absent_spec. unfold Fs.create_directories.
  change (stem +:+ "/src") with (stem +:+ "/" +:+ "src") in *.
  rewrite prefixes_join by done. simpl. rewrite Hs.
  rewrite lookup_insert_ne by (intros E; symmetry in E; by apply join_ne_stem in E).
  by rewrite Hx.
Qed.

Lemma create_directories_build stem fs :
  plain stem = true -> project_absent stem fs = true ->
  Fs.create_directories (stem +:+ "/build")
    (<[stem +:+ "/src" := Dir]> (<[stem := Dir]> fs)) =
    (<[stem +:+ "/build" := Dir]> (<[stem +:+ "/src" := Dir]> (<[stem := Dir]> fs)),
     Some true).
Proof.
  intros Hp [Hs Hx]%project_absent_spec. unfold Fs.create_directories.
  change (stem +:+ "/src") with (stem +:+ "/" +:+ "src") in *.
  change (stem +:+ "/build") with (stem +:+ "/" +:+ "build") in *.
  rewrite prefixes_join by done. simpl.
  rewrite lookup_insert_ne by apply join_ne_stem.
  rewrite lookup_insert_eq.
  rewrite lookup_insert_ne by (intros E; by apply join_inj in E).
  rewrite lookup_insert_ne by (intros E; symmetry in E; by apply join_ne_stem in E).
  by rewrite Hx.
Qed.

Lemma append_insert p c txt fs :
  Fs.append p txt (<[p := File c]> fs) = <[p := File (c +:+ txt)]> fs.
Proof.
  unfold Fs.append. apply map_eq. intros q.
  destruct (decide (p = q)) as [->|Hne].
  - by rewrite lookup_alter_eq, !lookup_insert_eq.
  - by rewrite lookup_alter_ne, !lookup_insert_ne.
Qed.

End filesystem.

(** ** The rule matcher *)

Arguments checkRules : simpl never.
Arguments matched_snippets : simpl never.
Arguments matched_libraries : simpl never.
Arguments trimExtras : simpl never.
Arguments replaceLeadingTabs : simpl never.
Arguments emit_text : simpl never.
Arguments emitVerbatim_text : simpl never.
Arguments isDelimited : simpl never.
Arguments isNonEmptyIndented : simpl never.
Arguments isIndentedOrEmpty : simpl never.
Arguments isEmptyOrUnderline : simpl never.
Arguments isSourceFilename : simpl never.
Arguments srcLevel_text : simpl never.
Arguments topLevel_text : simpl never.

Section rule_matcher.

Lemma snippets_after_cons raw lines E :
  snippets_after (raw :: lines) E =
  snippets_after lines (matched_snippets (replaceLeadingTabs raw) ∪ E).
Proof. unfold snippets_after. cbn [fold_left]. reflexivity. Qed.

Lemma libraries_after_cons raw lines L :
  libraries_after (raw :: lines) L =
  libraries_after lines (matched_libraries (replaceLeadingTabs raw) ∪ L).
Proof. unfold libraries_after. cbn [fold_left]. reflexivity. Qed.

Lemma union_swap (A B C : gset string) : A ∪ (B ∪ C) = (B ∪ A) ∪ C.
Proof. by rewrite (comm_L (∪) B A), (assoc_L (∪)). Qed.

Lemma fold_applyRule line (rs : list Rule.t) s :
  fold_left (applyRule line) rs s =
  set_libraries
    (list_to_set (Rule.libraries <$>
       List.filter (fun r => Regex.regex_search line (Rule.re r)) rs) ∪ libraries s)
    (set_extraRules
       (list_to_set (Rule.cmake <$>
          List.filter (fun r => Regex.regex_search line (Rule.re r)) rs) ∪ extraRules s)
       s).
Proof.
  revert s. induction rs as [|r rs IH]; intros s.
  - destruct s. unfold set_libraries, set_extraRules. simpl.
    by rewrite !(left_id_L ∅ (∪)).
  - cbn [fold_left List.filter]. rewrite IH. unfold applyRule.
    destruct (Regex.regex_search line (Rule.re r)).
    + destruct s. unfold set_libraries, set_extraRules. simpl.
      by rewrite !union_swap.
    + done.
Qed.

(** [checkRules] adds the snippets and the libraries of the rules the
    line matches, and changes nothing else. *)
Lemma checkRules_eq line s :
  checkRules line s =
  set_libraries (matched_libraries line ∪ libraries s)
    (set_extraRules (matched_snippets line ∪ extraRules s) s).
Proof. apply fold_applyRule. Qed.



End rule_matcher.

Opaque matched_snippets matched_libraries.

(** ** The scanner, state by state *)

Ltac norm :=
  unfold set_input, set_extraRules, set_libraries, set_srcnames, set_prevline,
    set_inIndentedFile, set_inDelimitedFile, set_firstFile, set_srcfile,
    set_srcfilename, set_disk;
  simpl.

(** Runs the scanner's own operations, leaving [makeTree], [checkRules]
    and the library functions folded. *)
Ltac exec :=
  cbv beta iota zeta delta
    [step isSourceFilename_prevline makeTree_once start_indented
     srcnames_emplace srcfile_open srcfile_close emit emitVerbatim
     srcfile_write mbind M_bind mret M_ret get modify throw
     set_input set_extraRules set_libraries set_srcnames set_prevline
     set_inIndentedFile set_inDelimitedFile set_firstFile set_srcfile
     set_srcfilename set_disk
     mdfile projname srcdir input extraRules libraries srcnames prevline
     inIndentedFile inDelimitedFile firstFile srcfile srcfilename disk
     Ofstream.good Ofstream.path Ofstream.fail Ofstream.close Ofstream.open
     Ofstream.write negb andb orb].

Ltac run_step :=
  unfold step, isSourceFilename_prevline, makeTree_once, start_indented,
    srcnames_emplace, srcfile_open, srcfile_close, emit, emitVerbatim,
    srcfile_write;
  unfold mbind, M_bind, mret, M_ret, get, modify, throw; simpl.

Section scanner.
Variables (md stem : string).
Implicit Types (E L N : gset string) (d : gmap string node).
Implicit Types (inp lines body : list string) (prev raw sfn : string).

Abbreviation St := (mkState md stem (stem +:+ "/src")).

Lemma scan_app ow lines1 lines2 s :
  scan ow (lines1 ++ lines2) s =
  match scan ow lines1 s with
  | Ret _ s' => scan ow lines2 s'
  | Throw e s' => Throw e s'
  end.
Proof.
  revert s. induction lines1 as [|l lines1 IH]; intros s; [done|].
  simpl. unfold mbind, M_bind. destruct (step ow l s); [apply IH|done].
Qed.

Lemma scan_cons ow raw lines s :
  scan ow (raw :: lines) s =
  match step ow raw s with
  | Ret _ s' => scan ow lines s'
  | Throw e s' => Throw e s'
  end.
Proof. reflexivity. Qed.

Lemma scan_nil ow s : scan ow [] s = Ret tt s.
Proof. reflexivity. Qed.

Lemma verbatim_text_cons raw body :
  verbatim_text (raw :: body) =
  emitVerbatim_text (replaceLeadingTabs raw) +:+ verbatim_text body.
Proof. reflexivity. Qed.

Lemma indented_text_cons raw body :
  indented_text (raw :: body) =
  emit_text (replaceLeadingTabs raw) +:+ indented_text body.
Proof. reflexivity. Qed.

Lemma nonEmptyIndented_not_delimited line :
  isNonEmptyIndented line = true -> isDelimited line = false.
Proof.
  unfold isNonEmptyIndented, isDelimited.
  destruct line as [|c line]; [done|]. simpl.
  destruct (Str.eqc c " ") eqn:Hc.
  - apply eqc_true in Hc as ->. done.
  - done.
Qed.

(** Outside a block, a line that opens none only moves the caption
    candidate. *)
Lemma step_quiet ow raw inp E L N prev ff sf sfn d :
  opens_block raw = false ->
  step ow raw (St inp E L N prev false false ff sf sfn d) =
  Ret tt (St inp E L N (caption_step prev raw) false false ff sf sfn d).
Proof.
  unfold opens_block. intros [H1 H2]%orb_false_iff.
  run_step. rewrite H1, H2. unfold caption_step.
  by destruct (isEmptyOrUnderline _).
Qed.

Lemma scan_quiet ow lines inp E L N prev ff sf sfn d :
  quiet lines = true ->
  scan ow lines (St inp E L N prev false false ff sf sfn d) =
  Ret tt (St inp E L N (caption_after prev lines) false false ff sf sfn d).
Proof.
  revert prev. induction lines as [|raw lines IH]; intros prev Hq; [done|].
  simpl in Hq. apply andb_true_iff in Hq as [Hr Hq].
  apply negb_true_iff in Hr.
  rewrite scan_cons, step_quiet by done. by rewrite IH.
Qed.

(** Inside a fenced block, a line that is not a fence is matched against
    the rules and appended as it is. *)
Lemma step_body ow raw inp E L N prev ff p sfn c d :
  isDelimited (replaceLeadingTabs raw) = false ->
  step ow raw
    (St inp E L N prev false true ff (Ofstream.mk (Some p) false) sfn
       (<[p := File c]> d)) =
  Ret tt
    (St inp (matched_snippets (replaceLeadingTabs raw) ∪ E)
       (matched_libraries (replaceLeadingTabs raw) ∪ L) N prev false true ff
       (Ofstream.mk (Some p) false) sfn
       (<[p := File (c +:+ emitVerbatim_text (replaceLeadingTabs raw))]> d)).
Proof.
  intros H. run_step. rewrite H. rewrite checkRules_eq. simpl.
  by rewrite append_insert.
Qed.

Lemma scan_body ow body inp E L N prev ff p sfn c d :
  fence_free body = true ->
  scan ow body
    (St inp E L N prev false true ff (Ofstream.mk (Some p) false) sfn
       (<[p := File c]> d)) =
  Ret tt
    (St inp (snippets_after body E) (libraries_after body L) N prev false true ff
       (Ofstream.mk (Some p) false) sfn
       (<[p := File (c +:+ verbatim_text body)]> d)).
Proof.
  revert E L c. induction body as [|raw body IH]; intros E L c Hf.
  - rewrite scan_nil. change (verbatim_text []) with "".
    by rewrite app_empty_r.
  - apply andb_true_iff in Hf as [Hr Hf]. fold (fence_free body) in Hf.
    apply negb_true_iff in Hr.
    rewrite scan_cons, step_body by done. rewrite IH by done.
    rewrite verbatim_text_cons, app_assoc_s.
    rewrite snippets_after_cons, libraries_after_cons. reflexivity.
Qed.

(** The closing fence closes the file and becomes the caption
    candidate. *)
Lemma step_fence_close ow raw inp E L N prev ff p fl sfn d :
  isDelimited (replaceLeadingTabs raw) = true ->
  step ow raw (St inp E L N prev false true ff (Ofstream.mk (Some p) fl) sfn d) =
  Ret tt
    (St inp E L N (replaceLeadingTabs raw) false false ff (Ofstream.mk None fl)
       sfn d).
Proof. intros H. run_step. by rewrite H. Qed.

(** Inside an indented block. *)
Lemma step_run ow raw inp E L N prev ff p sfn c d :
  isIndentedOrEmpty (replaceLeadingTabs raw) = true ->
  step ow raw
    (St inp E L N prev true false ff (Ofstream.mk (Some p) false) sfn
       (<[p := File c]> d)) =
  Ret tt
    (St inp (matched_snippets (replaceLeadingTabs raw) ∪ E)
       (matched_libraries (replaceLeadingTabs raw) ∪ L) N prev true false ff
       (Ofstream.mk (Some p) false) sfn
       (<[p := File (c +:+ emit_text (replaceLeadingTabs raw))]> d)).
Proof.
  intros H. run_step. rewrite H. simpl. rewrite checkRules_eq. simpl.
  by rewrite append_insert.
Qed.

Lemma scan_run ow body inp E L N prev ff p sfn c d :
  indented_run body = true ->
  scan ow body
    (St inp E L N prev true false ff (Ofstream.mk (Some p) false) sfn
       (<[p := File c]> d)) =
  Ret tt
    (St inp (snippets_after body E) (libraries_after body L) N prev true false ff
       (Ofstream.mk (Some p) false) sfn
       (<[p := File (c +:+ indented_text body)]> d)).
Proof.
  revert E L c. induction body as [|raw body IH]; intros E L c Hf.
  - rewrite scan_nil. change (indented_text []) with "".
    by rewrite app_empty_r.
  - apply andb_true_iff in Hf as [Hr Hf]. fold (indented_run body) in Hf.
    rewrite scan_cons, step_run by done. rewrite IH by done.
    rewrite indented_text_cons, app_assoc_s.
    rewrite snippets_after_cons, libraries_after_cons. reflexivity.
Qed.

(** A line that is not indented ends the indented block and becomes the
    caption candidate. *)
Lemma step_run_close ow raw inp E L N prev ff p fl sfn d :
  isIndentedOrEmpty (replaceLeadingTabs raw) = false ->
  step ow raw (St inp E L N prev true false ff (Ofstream.mk (Some p) fl) sfn d) =
  Ret tt
    (St inp E L N (replaceLeadingTabs raw) false false ff (Ofstream.mk None fl)
       sfn d).
Proof. intros H. run_step. by rewrite H. Qed.

End scanner.

(** ** Opening the first block of a project that does not exist yet *)

Section first_block.
Variables (md stem : string).
Implicit Types (E L N : gset string) (d : gmap string node).
Implicit Types (inp lines body : list string) (prev raw sfn name x : string).

Abbreviation St1 := (mkState md stem (stem +:+ "/src")).

Hypothesis stem_plain : plain stem = true.

Lemma src_path x :
  (stem +:+ "/src") +:+ "/" +:+ x = stem +:+ "/" +:+ ("src/" +:+ x).
Proof. by rewrite app_assoc_s. Qed.

Lemma src_nonempty : stem +:+ "/src" <> "".
Proof. by destruct stem. Qed.

Lemma tree_lookup_stem d : tree stem d !! stem = Some Dir.
Proof.
  unfold tree.
  change (stem +:+ "/src") with (stem +:+ "/" +:+ "src").
  change (stem +:+ "/build") with (stem +:+ "/" +:+ "build").
  rewrite !lookup_insert_ne by apply join_ne_stem.
  apply lookup_insert_eq.
Qed.

Lemma tree_lookup_src d : tree stem d !! (stem +:+ "/src") = Some Dir.
Proof.
  unfold tree.
  change (stem +:+ "/src") with (stem +:+ "/" +:+ "src").
  change (stem +:+ "/build") with (stem +:+ "/" +:+ "build").
  rewrite lookup_insert_ne by (intros H%join_inj; done).
  apply lookup_insert_eq.
Qed.

Lemma tree_lookup_below d y :
  project_absent stem d = true -> y <> "src" -> y <> "build" ->
  tree stem d !! (stem +:+ "/" +:+ y) = None.
Proof.
  intros [Hs Hx]%project_absent_spec Hy1 Hy2. unfold tree.
  change (stem +:+ "/src") with (stem +:+ "/" +:+ "src").
  change (stem +:+ "/build") with (stem +:+ "/" +:+ "build").
  rewrite lookup_insert_ne by (intros H%join_inj; done).
  rewrite lookup_insert_ne by (intros H%join_inj; done).
  rewrite lookup_insert_ne
    by (intros H; symmetry in H; by apply join_ne_stem in H).
  apply Hx.
Qed.

Lemma tree_lookup_file d x :
  project_absent stem d = true ->
  tree stem d !! ((stem +:+ "/src") +:+ "/" +:+ x) = None.
Proof. intros Ha. rewrite src_path. by apply tree_lookup_below. Qed.

Lemma tree_lookup_other d p n :
  project_absent stem d = true -> d !! p = Some n -> tree stem d !! p = Some n.
Proof.
  intros [Hs Hx]%project_absent_spec Hp. unfold tree.
  change (stem +:+ "/src") with (stem +:+ "/" +:+ "src").
  change (stem +:+ "/build") with (stem +:+ "/" +:+ "build").
  rewrite !lookup_insert_ne; [done|congruence..].
Qed.

Lemma can_open_tree d x :
  project_absent stem d = true -> Str.mem "/" x = false ->
  Fs.can_open (tree stem d) ((stem +:+ "/src") +:+ "/" +:+ x) = true.
Proof.
  intros Ha Hx. unfold Fs.can_open, Fs.is_directory.
  rewrite parent_path_join, tree_lookup_file by done.
  unfold Fs.dir_exists, Fs.is_directory. rewrite tree_lookup_src.
  by destruct (stem +:+ "/src").
Qed.

(** [makeTree] creates the three directories. *)
Lemma makeTree_fresh ow inp E L N prev i dl ff sf sfn d :
  project_absent stem d = true ->
  makeTree ow (St1 inp E L N prev i dl ff sf sfn d) =
  Ret tt (St1 inp E L N prev i dl ff sf sfn (tree stem d)).
Proof.
  intros Ha. unfold makeTree, create_directories.
  unfold mbind, M_bind, mret, M_ret, get, modify, throw. simpl.
  unfold Fs.exists_. rewrite (proj1 (project_absent_spec _ _ Ha)). simpl.
  rewrite create_directories_src by done. simpl.
  by rewrite create_directories_build.
Qed.

(** The first fence of the document, [name] being the caption, stripped,
    when it names a source file and [main.cpp] otherwise. *)
Lemma step_fence_open_first ow raw inp E L N prev fl sfn d :
  let name := if isSourceFilename prev then trimExtras prev else "main.cpp" in
  project_absent stem d = true ->
  Str.mem "/" name = false ->
  isDelimited (replaceLeadingTabs raw) = true ->
  step ow raw (St1 inp E L N prev false false true (Ofstream.mk None fl) sfn d) =
  Ret tt
    (St1 inp E L ({[ name ]} ∪ N) (trimExtras prev) false true false
       (Ofstream.mk (Some ((stem +:+ "/src") +:+ "/" +:+ name)) false)
       ((stem +:+ "/src") +:+ "/" +:+ name)
       (<[(stem +:+ "/src") +:+ "/" +:+ name := File ""]> (tree stem d))).
Proof.
  intros name Ha Hn Hd. exec. rewrite Hd. fold name.
  rewrite makeTree_fresh by done. exec.
  rewrite join_plain by done.
  rewrite can_open_tree by done.
  by rewrite filename_join.
Qed.

(** The first indented line of the document under a caption that names
    a source file. *)
Lemma step_indent_open_first ow raw inp E L N prev fl sfn d :
  let name := trimExtras prev in
  let line := replaceLeadingTabs raw in
  project_absent stem d = true ->
  isSourceFilename prev = true ->
  Str.mem "/" name = false ->
  isNonEmptyIndented line = true ->
  step ow raw (St1 inp E L N prev false false true (Ofstream.mk None fl) sfn d) =
  Ret tt
    (St1 inp (matched_snippets line ∪ E) (matched_libraries line ∪ L)
       ({[ name ]} ∪ N) name true false false
       (Ofstream.mk (Some ((stem +:+ "/src") +:+ "/" +:+ name)) false)
       ((stem +:+ "/src") +:+ "/" +:+ name)
       (<[(stem +:+ "/src") +:+ "/" +:+ name := File (emit_text line)]>
          (tree stem d))).
Proof.
  intros name line Ha Hs Hn Hi. subst line. exec.
  rewrite (nonEmptyIndented_not_delimited _ Hi), Hi, Hs.
  rewrite makeTree_fresh by done. exec. fold name.
  rewrite join_plain by done.
  rewrite can_open_tree by done.
  rewrite checkRules_eq. exec.
  rewrite append_insert, app_empty_l.
  by rewrite filename_join.
Qed.

End first_block.

(** ** Extensions *)

Section extensions.
Implicit Types x name e : string.

Lemma isSourceExtension_spec e :
  isSourceExtension e = true <->
  e = ".cpp" \/ e = ".c" \/ e = ".h" \/ e = ".hpp".
Proof.
  unfold isSourceExtension, source_extensions.
  rewrite bool_decide_eq_true, !elem_of_union, !elem_of_singleton.
  tauto.
Qed.

Lemma rfind_from_md x i :
  Str.rfind_from "." (x +:+ ".md") i = Some (i + String.length x).
Proof.
  revert i. induction x as [|c x IH]; intros i.
  - simpl. f_equal. lia.
  - rewrite app_cons. simpl. rewrite IH. f_equal. lia.
Qed.

Lemma substr_app x y : Str.substr (String.length x) (x +:+ y) = y.
Proof. induction x as [|c x IH]; [done|]. by rewrite app_cons. Qed.

(** The extension of [x.md] is [.md], or nothing when [x] is empty. *)
Lemma extension_md x :
  Str.mem "/" x = false ->
  Path.extension (x +:+ ".md") = ".md" \/ Path.extension (x +:+ ".md") = "".
Proof.
  intros Hx. unfold Path.extension, Path.filename.
  rewrite filename_go_plain by (by rewrite mem_app, Hx).
  change (String.rev "") with "". rewrite app_empty_l.
  destruct x as [|c x]; [by right|]. left.
  unfold Str.rfind. rewrite rfind_from_md.
  rewrite app_cons. cbn [Str.size String.length].
  replace (S (String.length (x +:+ ".md")) <=? 2) with false.
  2:{ symmetry. apply Nat.leb_gt. rewrite length_app_s. simpl. lia. }
  cbn [andb Nat.add]. rewrite <- app_cons. apply substr_app.
Qed.

Lemma source_name_not_md name x :
  isSourceExtension (Path.extension name) = true ->
  Str.mem "/" x = false -> name <> x +:+ ".md".
Proof.
  intros Hs Hx ->. apply isSourceExtension_spec in Hs.
  destruct (extension_md x Hx) as [E | E]; rewrite E in Hs;
    destruct Hs as [?|[?|[?|?]]]; discriminate.
Qed.

Lemma source_name_not_cmake name :
  isSourceExtension (Path.extension name) = true -> name <> "CMakeLists.txt".
Proof. intros Hs ->. apply isSourceExtension_spec in Hs.
  destruct Hs as [?|[?|[?|?]]]; discriminate.
Qed.

Lemma cmake_not_md x : Str.mem "/" x = false -> "CMakeLists.txt" <> x +:+ ".md".
Proof.
  intros Hx H. destruct (extension_md x Hx) as [E | E];
    rewrite <- H in E; discriminate E.
Qed.

End extensions.

(** ** The end of [createProject] *)

Section finishing.
Variables (md stem : string).
Implicit Types (E L N : gset string) (d fs : gmap string node).

Abbreviation St2 := (mkState md stem (stem +:+ "/src")).

Hypothesis stem_plain : plain stem = true.

Lemma createProject_eq ow doc fs :
  createProject ow (AutoProject md stem doc fs) =
  match
    scan ow doc (St2 doc ∅ ∅ ∅ "" false false true (Ofstream.mk None false) "" fs)
  with
  | Ret _ s' => finish s'
  | Throw e s' => Throw e s'
  end.
Proof. reflexivity. Qed.

(** With no block extracted, nothing is written. *)
Lemma finish_nothing inp E L prev i dl ff sf sfn d :
  finish (St2 inp E L ∅ prev i dl ff sf sfn d) =
  Ret false (St2 [] E L ∅ prev i dl ff sf sfn d).
Proof. reflexivity. Qed.

Lemma src_ne_file x : stem +:+ "/src" <> (stem +:+ "/src") +:+ "/" +:+ x.
Proof. intros H. symmetry in H. by apply join_ne_stem in H. Qed.

Lemma stem_ne_file x : stem <> (stem +:+ "/src") +:+ "/" +:+ x.
Proof.
  rewrite src_path. intros H. symmetry in H. by apply join_ne_stem in H.
Qed.

(** With the one source file [name] extracted into a project that did
    not exist, the two build files and the copy of the document are
    added to the tree. *)
Lemma finish_one inp E L N prev i dl ff sf sfn fs name txt mdc :
  project_absent stem fs = true ->
  fs !! md = Some (File mdc) ->
  Str.mem "/" name = false ->
  isSourceExtension (Path.extension name) = true ->
  N <> ∅ ->
  let srctxt := srcLevel_text stem (elements E) (elements N) (elements L) in
  finish (St2 inp E L N prev i dl ff sf sfn
            (<[(stem +:+ "/src") +:+ "/" +:+ name := File txt]> (tree stem fs))) =
  Ret true
    (St2 [] E L N prev i dl ff sf sfn
       (<[(stem +:+ "/src") +:+ "/" +:+ (stem +:+ ".md") := File mdc]>
          (<[stem +:+ "/CMakeLists.txt" := File (topLevel_text stem)]>
             (<[(stem +:+ "/src") +:+ "/CMakeLists.txt" := File srctxt]>
                (<[(stem +:+ "/src") +:+ "/" +:+ name := File txt]>
                   (tree stem fs)))))).
Proof.
  intros Ha Hmd Hn Hext HN srctxt.
  destruct (plain_spec _ stem_plain) as [Hne Hsl].
  pose proof (project_absent_spec _ _ Ha) as [Hs Hx].
  assert (forall x, stem +:+ "/" +:+ x <> md) as Hmdx.
  { intros x <-. by rewrite Hx in Hmd. }
  assert (md <> stem) as Hmds by (intros ->; by rewrite Hs in Hmd).
  pose proof (source_name_not_cmake _ Hext) as Hc.
  pose proof (source_name_not_md _ _ Hext Hsl) as Hm.
  unfold finish, writeSrcLevel, writeTopLevel, copy_file.
  cbv beta iota zeta delta
    [mbind M_bind mret M_ret get modify throw set_input set_disk
     mdfile projname srcdir input extraRules libraries srcnames prevline
     inIndentedFile inDelimitedFile firstFile srcfile srcfilename disk
     snippets_written names_written libraries_written].
  rewrite bool_decide_eq_false_2 by done. cbv beta iota zeta delta [negb].
  fold srctxt.
  (* the sources-level build file *)
  assert (Fs.write_file ((stem +:+ "/src") +:+ "/CMakeLists.txt") srctxt
            (<[(stem +:+ "/src") +:+ "/" +:+ name := File txt]> (tree stem fs)) =
          <[(stem +:+ "/src") +:+ "/CMakeLists.txt" := File srctxt]>
            (<[(stem +:+ "/src") +:+ "/" +:+ name := File txt]> (tree stem fs)))
    as ->.
  { unfold Fs.write_file.
    change ((stem +:+ "/src") +:+ "/CMakeLists.txt")
      with ((stem +:+ "/src") +:+ "/" +:+ "CMakeLists.txt").
    unfold Fs.can_open, Fs.is_directory. rewrite parent_path_join by done.
    rewrite lookup_insert_ne by (intros H%join_inj; done).
    rewrite tree_lookup_file by done.
    unfold Fs.dir_exists, Fs.is_directory.
    rewrite lookup_insert_ne by (intros H; symmetry in H; by apply src_ne_file in H).
    rewrite tree_lookup_src. by destruct (stem +:+ "/src"). }
  (* the root build file *)
  assert (Fs.write_file (stem +:+ "/CMakeLists.txt") (topLevel_text stem)
            (<[(stem +:+ "/src") +:+ "/CMakeLists.txt" := File srctxt]>
               (<[(stem +:+ "/src") +:+ "/" +:+ name := File txt]> (tree stem fs))) =
          <[stem +:+ "/CMakeLists.txt" := File (topLevel_text stem)]>
            (<[(stem +:+ "/src") +:+ "/CMakeLists.txt" := File srctxt]>
               (<[(stem +:+ "/src") +:+ "/" +:+ name := File txt]> (tree stem fs))))
    as ->.
  { unfold Fs.write_file.
    change ((stem +:+ "/src") +:+ "/CMakeLists.txt")
      with ((stem +:+ "/src") +:+ "/" +:+ "CMakeLists.txt").
    change (stem +:+ "/CMakeLists.txt") with (stem +:+ "/" +:+ "CMakeLists.txt").
    unfold Fs.can_open, Fs.is_directory. rewrite parent_path_join by done.
    rewrite !src_path.
    rewrite !lookup_insert_ne by (intros H%join_inj; done).
    rewrite tree_lookup_below by done.
    unfold Fs.dir_exists, Fs.is_directory.
    rewrite !lookup_insert_ne by apply join_ne_stem.
    rewrite tree_lookup_stem. by destruct stem. }
  (* the copy of the document *)
  change ((stem +:+ "/src") +:+ "/CMakeLists.txt")
    with ((stem +:+ "/src") +:+ "/" +:+ "CMakeLists.txt").
  change (stem +:+ "/CMakeLists.txt") with (stem +:+ "/" +:+ "CMakeLists.txt").
  change mdextension with ".md".
  rewrite !src_path.
  rewrite !lookup_insert_ne by apply Hmdx.
  rewrite (tree_lookup_other _ _ _ _ Ha Hmd).
  rewrite lookup_insert_ne by (intros H%join_inj; done).
  rewrite lookup_insert_ne.
  2:{ intros H%join_inj. simplify_eq. by apply cmake_not_md in H. }
  rewrite lookup_insert_ne.
  2:{ intros H%join_inj. simplify_eq. }
  rewrite tree_lookup_below by done.
  rewrite <- !src_path. rewrite parent_path_join by (by rewrite mem_app, Hsl).
  unfold Fs.dir_exists, Fs.is_directory.
  rewrite !lookup_insert_ne;
    [| first [ apply join_ne_stem
             | change (stem +:+ "/src") with (stem +:+ "/" +:+ "src");
               intros H%join_inj; done ]..].
  rewrite tree_lookup_src.
  destruct (stem +:+ "/src") eqn:Esrc; [by destruct stem|].
  rewrite <- Esrc. reflexivity.
Qed.

End finishing.

(** ** Documents with one block *)

Section one_block_documents.
Variables (md stem : string).
Implicit Types (fs : gmap string node) (pre body post : list string).

Lemma verbatim_text_unlines body :
  verbatim_text body = unlines (replaceLeadingTabs <$> body).
Proof. unfold verbatim_text, unlines. by rewrite <- list_fmap_compose. Qed.

Lemma caption_step_named prev cap :
  isEmptyOrUnderline (replaceLeadingTabs cap) = false ->
  caption_step prev cap = replaceLeadingTabs cap.
Proof. intros H. unfold caption_step. by rewrite H. Qed.

Lemma singleton_union_ne (x : string) (N : gset string) : {[ x ]} ∪ N <> ∅.
Proof.
  intros H. assert (x ∈ ({[ x ]} ∪ N : gset string)) as Hin
    by (apply elem_of_union_l, elem_of_singleton; done).
  rewrite H in Hin. by apply not_elem_of_empty in Hin.
Qed.

(** The files of the sources directory after [finish_one]. *)
Lemma src_files_after fs name txt mdc srctxt toptxt x n :
  plain stem = true ->
  project_absent stem fs = true ->
  <[(stem +:+ "/src") +:+ "/" +:+ (stem +:+ ".md") := File mdc]>
    (<[stem +:+ "/CMakeLists.txt" := File toptxt]>
       (<[(stem +:+ "/src") +:+ "/CMakeLists.txt" := File srctxt]>
          (<[(stem +:+ "/src") +:+ "/" +:+ name := File txt]> (tree stem fs))))
    !! ((stem +:+ "/src") +:+ "/" +:+ x) = Some n ->
  x = name \/ x = "CMakeLists.txt" \/ x = stem +:+ ".md".
Proof.
  intros Hp Ha.
  destruct (decide (x = stem +:+ ".md")) as [->|H1]; [tauto|].
  destruct (decide (x = "CMakeLists.txt")) as [->|H2]; [tauto|].
  destruct (decide (x = name)) as [->|H3]; [tauto|].
  change ((stem +:+ "/src") +:+ "/CMakeLists.txt")
    with ((stem +:+ "/src") +:+ "/" +:+ "CMakeLists.txt").
  change (stem +:+ "/CMakeLists.txt") with (stem +:+ "/" +:+ "CMakeLists.txt").
  rewrite lookup_insert_ne by (intros H%join_inj; done).
  rewrite (src_path stem x).
  rewrite lookup_insert_ne by (intros H%join_inj; done).
  rewrite <- (src_path stem x).
  rewrite lookup_insert_ne by (intros H%join_inj; done).
  rewrite lookup_insert_ne by (intros H%join_inj; done).
  by rewrite tree_lookup_file.
Qed.

End one_block_documents.

(** C1, amended. A document whose only block is a fenced block under a
    caption that names a source file, extracted into a project that does
    not exist yet: [createProject] reports success, the set of file names
    holds the stripped caption and nothing else, and the file of that name
    in the sources directory holds the lines between the fences in order,
    each with its leading tabs replaced by four spaces apiece and otherwise
    unchanged; the sources directory holds no file besides it, the build
    file and the copy of the document. *)
Theorem fenced_block_materialized md stem fs mdc ow pre cap fence body close post :
  let name := trimExtras (replaceLeadingTabs cap) in
  plain stem = true ->
  project_absent stem fs = true ->
  fs !! md = Some (File mdc) ->
  quiet pre = true ->
  opens_block cap = false ->
  isEmptyOrUnderline (replaceLeadingTabs cap) = false ->
  isSourceFilename (replaceLeadingTabs cap) = true ->
  Str.mem "/" name = false ->
  isDelimited (replaceLeadingTabs fence) = true ->
  fence_free body = true ->
  isDelimited (replaceLeadingTabs close) = true ->
  quiet post = true ->
  exists s',
    createProject ow
      (AutoProject md stem (pre ++ cap :: fence :: body ++ close :: post) fs) =
      Ret true s' /\
    srcnames s' = {[ name ]} /\
    disk s' !! ((stem +:+ "/src") +:+ "/" +:+ name) =
      Some (File (unlines (replaceLeadingTabs <$> body))) /\
    (forall x n, disk s' !! ((stem +:+ "/src") +:+ "/" +:+ x) = Some n ->
                 x = name \/ x = "CMakeLists.txt" \/ x = stem +:+ ".md").
Proof.
  intros name Hp Ha Hmd Hpre Hcq Hcu Hcs Hn Hf Hb Hc Hpost.
  rewrite createProject_eq.
  rewrite scan_app, scan_quiet by done.
  rewrite scan_cons, step_quiet by done.
  rewrite caption_step_named by done.
  rewrite scan_cons.
  rewrite step_fence_open_first; rewrite ?Hcs; try done.
  fold name.
  rewrite scan_app, scan_body by done.
  rewrite scan_cons, step_fence_close by done.
  rewrite scan_quiet by done.
  rewrite app_empty_l.
  assert (isSourceExtension (Path.extension name) = true) as Hext by exact Hcs.
  rewrite (finish_one md stem Hp) with (mdc := mdc)
    by (done || apply singleton_union_ne).
  eexists. split; [reflexivity|]. cbn [srcnames disk]. split; [|split].
  - apply (right_id_L ∅ (∪)).
  - change ((stem +:+ "/src") +:+ "/CMakeLists.txt")
      with ((stem +:+ "/src") +:+ "/" +:+ "CMakeLists.txt").
    change (stem +:+ "/CMakeLists.txt") with (stem +:+ "/" +:+ "CMakeLists.txt").
    rewrite lookup_insert_ne.
    2:{ intros H%join_inj. symmetry in H. revert H.
        apply source_name_not_md; [done|]. by apply plain_spec. }
    rewrite (src_path stem name).
    rewrite lookup_insert_ne by (intros H%join_inj; done).
    rewrite <- (src_path stem name).
    rewrite lookup_insert_ne.
    2:{ intros H%join_inj. symmetry in H. revert H.
        by apply source_name_not_cmake. }
    rewrite lookup_insert_eq. by rewrite verbatim_text_unlines.
  - intros x n. by apply src_files_after.
Qed.

Lemma fenced_block_materialized_witness :
  let fs : gmap string node := {[ "doc.md" := File "text" ]} in
  let body := [String Str.tab "int x;"; "#include <thread>"] in
  exists s',
    createProject false
      (AutoProject "doc.md" "doc"
         (["Intro"] ++ "### **m.cpp:**" :: "```c++" :: body ++ "~~~" :: ["bye"]) fs) =
      Ret true s' /\
    srcnames s' = {[ "m.cpp" ]} /\
    disk s' !! "doc/src/m.cpp" = Some (File (unlines ["    int x;"; "#include <thread>"])) /\
    (forall x n, disk s' !! ("doc/src/" +:+ x) = Some n ->
                 x = "m.cpp" \/ x = "CMakeLists.txt" \/ x = "doc.md").
Proof.
  intros fs body.
  apply (fenced_block_materialized "doc.md" "doc" fs "text" false
           ["Intro"] "### **m.cpp:**" "```c++" body "~~~" ["bye"]);
    vm_compute; reflexivity.
Defined.

(** C1 as stated does not hold: a line between the fences that begins with
    a tab is not written byte for byte; the tab is replaced by four
    spaces. *)
Lemma fenced_block_not_verbatim :
  let fs : gmap string node := {[ "doc.md" := File "text" ]} in
  let body := [String Str.tab "x"] in
  exists s',
    createProject false
      (AutoProject "doc.md" "doc" ("a.cpp" :: "```" :: body ++ ["```"]) fs) =
      Ret true s' /\
    disk s' !! "doc/src/a.cpp" = Some (File (unlines ["    x"])) /\
    disk s' !! "doc/src/a.cpp" <> Some (File (unlines body)).
Proof.
  intros fs body. eexists. split; [vm_compute; reflexivity|].
  split; [vm_compute; reflexivity|].
  vm_compute. discriminate.
Qed.

(** ** Indented lines *)

Section indentation.
Implicit Types line : string.

Lemma nonEmptyIndented_indented line :
  isNonEmptyIndented line = true -> isIndentedOrEmpty line = true.
Proof.
  unfold isNonEmptyIndented, isIndentedOrEmpty, Str.pos_ge.
  by destruct (Str.find_first_not_of " " line).
Qed.

Lemma find_first_not_of_cons ch c line :
  Str.find_first_not_of ch (String c line) =
  if Str.eqc c ch then S <$> Str.find_first_not_of ch line else Some 0.
Proof. reflexivity. Qed.

(** A line of an indented block of four characters or more starts with
    four spaces. *)
Lemma indented_shape line :
  isIndentedOrEmpty line = true -> indentLevel <= Str.size line ->
  line = Str.fill indentLevel " " +:+ Str.substr indentLevel line.
Proof.
  unfold isIndentedOrEmpty, Str.pos_ge, indentLevel, Str.size.
  destruct line as [|c1 [|c2 [|c3 [|c4 line]]]]; simpl String.length;
    try lia.
  intros H _. rewrite !find_first_not_of_cons in H.
  destruct (Str.eqc c1 " ") eqn:E1; [|done].
  destruct (Str.eqc c2 " ") eqn:E2; [|done].
  destruct (Str.eqc c3 " ") eqn:E3; [|done].
  destruct (Str.eqc c4 " ") eqn:E4;
    [|by destruct (Str.find_first_not_of " " line)].
  apply eqc_true in E1, E2, E3, E4. by subst.
Qed.

(** [emit] writes a line of an indented block without its first four
    characters, or as it is when it has fewer. *)
Lemma emit_text_indented line :
  isIndentedOrEmpty line = true -> emit_text line = unindent line +:+ nl.
Proof.
  intros H. unfold emit_text, unindent.
  destruct (Str.size line <? indentLevel) eqn:Hs; [done|].
  apply Nat.ltb_ge in Hs.
  rewrite (indented_shape line H Hs) at 1. reflexivity.
Qed.

Lemma indented_text_unlines block :
  indented_run block = true ->
  indented_text block = unlines ((fun raw => unindent (replaceLeadingTabs raw)) <$> block).
Proof.
  induction block as [|raw block IH]; intros H; [done|].
  apply andb_true_iff in H as [Hr H]. fold (indented_run block) in H.
  rewrite indented_text_cons, emit_text_indented, IH by done. reflexivity.
Qed.

End indentation.

(** C5, amended. A document whose only block is an indented run under a
    caption that names a source file, a plain file name once its decoration
    is stripped (no directory part), extracted into a project that does
    not exist yet: the file of that name holds the lines of the run in
    order, leading tabs counting as four spaces each; a line of four
    characters or more has lost exactly its four leading spaces, and a line
    of fewer than four characters, empty or made of spaces, is written as
    it is. *)
Theorem indented_block_materialized md stem fs mdc ow pre cap first rest post :
  let name := trimExtras (replaceLeadingTabs cap) in
  let block := first :: rest in
  plain stem = true ->
  project_absent stem fs = true ->
  fs !! md = Some (File mdc) ->
  quiet pre = true ->
  opens_block cap = false ->
  isEmptyOrUnderline (replaceLeadingTabs cap) = false ->
  isSourceFilename (replaceLeadingTabs cap) = true ->
  Str.mem "/" name = false ->
  isNonEmptyIndented (replaceLeadingTabs first) = true ->
  indented_run rest = true ->
  after_block post = true ->
  exists s',
    createProject ow (AutoProject md stem (pre ++ cap :: block ++ post) fs) =
      Ret true s' /\
    srcnames s' = {[ name ]} /\
    disk s' !! ((stem +:+ "/src") +:+ "/" +:+ name) =
      Some (File (unlines ((fun raw => unindent (replaceLeadingTabs raw)) <$> block))) /\
    Forall (fun raw =>
              let line := replaceLeadingTabs raw in
              (indentLevel <= Str.size line ->
               line = Str.fill indentLevel " " +:+ unindent line) /\
              (Str.size line < indentLevel -> unindent line = line)) block.
Proof.
  intros name block Hp Ha Hmd Hpre Hcq Hcu Hcs Hn Hf Hr Hpost.
  assert (indented_run block = true) as Hblock.
  { unfold block. cbn [indented_run forallb].
    by rewrite nonEmptyIndented_indented. }
  assert (isSourceExtension (Path.extension name) = true) as Hext by exact Hcs.
  assert (exists sf prev ind,
    scan ow (pre ++ cap :: block ++ post)
      (mkState md stem (stem +:+ "/src") (pre ++ cap :: block ++ post) ∅ ∅ ∅ ""
         false false true (Ofstream.mk None false) "" fs) =
    Ret tt
      (mkState md stem (stem +:+ "/src") (pre ++ cap :: block ++ post)
         (snippets_after block ∅) (libraries_after block ∅) ({[ name ]} ∪ ∅)
         prev ind false false sf ((stem +:+ "/src") +:+ "/" +:+ name)
         (<[(stem +:+ "/src") +:+ "/" +:+ name := File (indented_text block)]>
            (tree stem fs)))) as (sf & prev & ind & Hscan).
  { rewrite scan_app, scan_quiet by done.
    rewrite scan_cons, step_quiet by done.
    rewrite caption_step_named by done.
    unfold block. rewrite <- app_comm_cons. rewrite scan_cons.
    rewrite step_indent_open_first by done. fold name.
    rewrite scan_app, scan_run by done.
    rewrite <- indented_text_cons. fold block.
    rewrite <- snippets_after_cons, <- libraries_after_cons.
    destruct post as [|t post].
    - rewrite scan_nil. eauto.
    - apply andb_true_iff in Hpost as [Ht Hq]. apply negb_true_iff in Ht.
      rewrite scan_cons, step_run_close by done.
      rewrite scan_quiet by done. eauto. }
  rewrite createProject_eq, Hscan.
  rewrite (finish_one md stem Hp) with (mdc := mdc)
    by (done || apply singleton_union_ne).
  eexists. split; [reflexivity|]. cbn [srcnames disk]. split; [|split].
  - apply (right_id_L ∅ (∪)).
  - change ((stem +:+ "/src") +:+ "/CMakeLists.txt")
      with ((stem +:+ "/src") +:+ "/" +:+ "CMakeLists.txt").
    change (stem +:+ "/CMakeLists.txt") with (stem +:+ "/" +:+ "CMakeLists.txt").
    rewrite lookup_insert_ne.
    2:{ intros H%join_inj. symmetry in H. revert H.
        apply source_name_not_md; [done|]. by apply plain_spec. }
    rewrite (src_path stem name).
    rewrite lookup_insert_ne by (intros H%join_inj; done).
    rewrite <- (src_path stem name).
    rewrite lookup_insert_ne.
    2:{ intros H%join_inj. symmetry in H. revert H.
        by apply source_name_not_cmake. }
    rewrite lookup_insert_eq. by rewrite indented_text_unlines.
  - apply Forall_forall. intros raw Hin. cbv zeta. split.
    + intros Hsz. unfold unindent.
      replace (Str.size (replaceLeadingTabs raw) <? indentLevel) with false
        by (symmetry; by apply Nat.ltb_ge).
      apply indented_shape; [|done].
      unfold indented_run in Hblock. rewrite forallb_forall in Hblock.
      apply Hblock. by apply list_elem_of_In.
    + intros Hsz. unfold unindent.
      by replace (Str.size (replaceLeadingTabs raw) <? indentLevel) with true
        by (symmetry; by apply Nat.ltb_lt).
Qed.

(** ** [makeTree] in general *)

Section make_tree.
Implicit Types (d : gmap string node) (s : state).

Lemma grows_refl d : grows d d.
Proof. by intros p. Qed.

Lemma grows_trans d1 d2 d3 : grows d1 d2 -> grows d2 d3 -> grows d1 d3.
Proof. intros H1 H2 p Hp. by apply H2, H1. Qed.

Lemma grows_insert d p n : grows d (<[p := n]> d).
Proof.
  intros q Hq. destruct (decide (p = q)) as [->|Hne].
  - rewrite lookup_insert_eq. eauto.
  - by rewrite lookup_insert_ne.
Qed.

Lemma grows_append d p txt : grows d (Fs.append p txt d).
Proof.
  intros q [n Hq]. unfold Fs.append. destruct (decide (p = q)) as [->|Hne].
  - rewrite lookup_alter_eq, Hq. simpl. eauto.
  - rewrite lookup_alter_ne by done. eauto.
Qed.

Lemma grows_write_file d p txt : grows d (Fs.write_file p txt d).
Proof.
  unfold Fs.write_file. destruct (Fs.can_open d p);
    [apply grows_insert|apply grows_refl].
Qed.

Lemma mkdirs_grows ds c d d' r :
  Fs.mkdirs ds c d = (d', r) -> grows d d'.
Proof.
  revert c d. induction ds as [|p ds IH]; intros c d H; simpl in H.
  - injection H as <- _. apply grows_refl.
  - destruct (d !! p) as [[|txt]|] eqn:E.
    + by apply IH in H.
    + injection H as <- _. apply grows_refl.
    + apply IH in H. eapply grows_trans; [apply grows_insert|done].
Qed.

Lemma mkdirs_keeps_dir ds c d d' r p :
  Fs.mkdirs ds c d = (d', r) -> d !! p = Some Dir -> d' !! p = Some Dir.
Proof.
  revert c d. induction ds as [|q ds IH]; intros c d H Hp; simpl in H.
  - by injection H as <- _.
  - destruct (d !! q) as [[|txt]|] eqn:E.
    + by eapply IH.
    + by injection H as <- _.
    + eapply IH; [done|]. rewrite lookup_insert_ne; [done|congruence].
Qed.

Lemma mkdirs_dirs ds c d d' b p :
  Fs.mkdirs ds c d = (d', Some b) -> p ∈ ds -> d' !! p = Some Dir.
Proof.
  revert c d. induction ds as [|q ds IH]; intros c d H Hin; simpl in H.
  - by apply not_elem_of_nil in Hin.
  - apply elem_of_cons in Hin as [->|Hin].
    + destruct (d !! q) as [[|txt]|] eqn:E.
      * by eapply mkdirs_keeps_dir.
      * done.
      * eapply mkdirs_keeps_dir; [done|]. apply lookup_insert_eq.
    + destruct (d !! q) as [[|txt]|] eqn:E; [by eapply IH|done|by eapply IH].
Qed.

(** [makeTree] changes nothing but the filesystem, where it removes
    nothing; it throws without a change when the root exists and
    [overwrite] is off, and the root is a directory when it returns. *)
Lemma makeTree_outcome ow s :
  plain (projname s) = true -> srcdir s = projname s +:+ "/src" ->
  Fs.exists_ (disk s) (projname s) && negb ow = true /\
    makeTree ow s = Throw AlreadyExists s
  \/
  Fs.exists_ (disk s) (projname s) && negb ow = false /\
  exists d', grows (disk s) d' /\
    (makeTree ow s = Ret tt (set_disk d' s) /\
     d' !! projname s = Some Dir /\ d' !! srcdir s = Some Dir
     \/ exists e, makeTree ow s = Throw e (set_disk d' s)).
Proof.
  intros Hp Hsrc.
  destruct s as [md pn sd inp E L N prev i dl ff sf sfn d].
  cbn [projname srcdir disk] in *. subst sd.
  unfold makeTree, create_directories.
  cbv beta iota zeta delta
    [mbind M_bind mret M_ret get modify throw set_disk
     mdfile projname srcdir input extraRules libraries srcnames prevline
     inIndentedFile inDelimitedFile firstFile srcfile srcfilename disk].
  destruct (Fs.exists_ d pn && negb ow) eqn:Hex; [by left|].
  right. split; [done|].
  destruct (Fs.create_directories (pn +:+ "/src") d) as [d1 r1] eqn:E1.
  pose proof (mkdirs_grows _ _ _ _ _ E1) as G1.
  destruct r1 as [[]|]; cbv beta iota zeta delta [negb];
    [|exists d1; split; [done|right; eauto]..].
  destruct (Fs.create_directories (pn +:+ "/build") d1) as [d2 r2] eqn:E2.
  pose proof (mkdirs_grows _ _ _ _ _ E2) as G2.
  exists d2. split; [by eapply grows_trans|].
  destruct r2 as [b|]; [left|right; eauto].
  split; [done|].
  unfold Fs.create_directories in E1, E2.
  change (pn +:+ "/src") with (pn +:+ "/" +:+ "src") in *.
  rewrite prefixes_join in E1 by done.
  split.
  - eapply mkdirs_keeps_dir; [exact E2|].
    eapply mkdirs_dirs; [exact E1|]. apply elem_of_cons. by left.
  - eapply mkdirs_keeps_dir; [exact E2|].
    eapply mkdirs_dirs; [exact E1|]. apply elem_of_cons. right.
    apply elem_of_cons. by left.
Qed.

(** [makeTree] changes nothing but the filesystem. *)
Lemma makeTree_frame ow s :
  exists d', grows (disk s) d' /\
    (makeTree ow s = Ret tt (set_disk d' s)
     \/ exists e, makeTree ow s = Throw e (set_disk d' s)).
Proof.
  destruct s as [md pn sd inp E L N prev i dl ff sf sfn d].
  unfold makeTree, create_directories.
  cbv beta iota zeta delta
    [mbind M_bind mret M_ret get modify throw set_disk
     mdfile projname srcdir input extraRules libraries srcnames prevline
     inIndentedFile inDelimitedFile firstFile srcfile srcfilename disk].
  destruct (Fs.exists_ d pn && negb ow) eqn:Hex.
  { exists d. split; [apply grows_refl|right; eauto]. }
  destruct (Fs.create_directories sd d) as [d1 r1] eqn:E1.
  pose proof (mkdirs_grows _ _ _ _ _ E1) as G1.
  destruct r1 as [[]|]; cbv beta iota zeta delta [negb];
    [|exists d1; split; [done|right; eauto]..].
  destruct (Fs.create_directories (pn +:+ "/build") d1) as [d2 r2] eqn:E2.
  pose proof (mkdirs_grows _ _ _ _ _ E2) as G2.
  exists d2. split; [by eapply grows_trans|].
  destruct r2 as [b|]; [left|right]; eauto.
Qed.

End make_tree.

(** ** What every step preserves *)

(** The two ways of going through a call of [makeTree]: with what it does
    to the project root, or only with what it leaves alone. *)
Ltac tree_outcome ow s :=
  let Ht := fresh "Htree" in
  destruct (makeTree_outcome ow s)
    as [[? Ht] | [? (? & ? & [(Ht & ? & ?) | (? & Ht)])]];
  [done | reflexivity | rewrite Ht; clear Ht ..].

Ltac tree_frame ow s :=
  let Ht := fresh "Htree" in
  destruct (makeTree_frame ow s) as (? & ? & [Ht | (? & Ht)]);
  rewrite Ht; clear Ht.

(** Splits the goal [P (step ow raw s)], for a state [s] given field by
    field, into the branches of [step]. *)
Ltac step_split tree :=
  do 14 first
    [ progress exec
    | rewrite checkRules_eq
    | match goal with
      | |- context [makeTree ?ow ?s] => tree ow s
      | |- context [if ?b then _ else _] =>
          lazymatch b with
          | context [if _ then _ else _] => fail
          | _ => destruct b eqn:?
          end
      end
    | idtac ].

(** Abstracts what the goal says of the outcome of the step. *)
Ltac abstract_step P :=
  match goal with
  | |- context [step ?ow ?raw ?S] => pattern (step ow raw S)
  end;
  match goal with
  | |- ?Q _ => set (P := Q)
  end.

Ltac open_state s :=
  destruct s as [md pn sd inp E L N prev i dl ff [sp sfl] sfn d];
  cbn [mdfile projname srcdir input extraRules libraries srcnames prevline
       inIndentedFile inDelimitedFile firstFile srcfile srcfilename disk
       Ofstream.path Ofstream.fail] in *.

Ltac close_state :=
  cbn [final mdfile projname srcdir input extraRules libraries srcnames prevline
       inIndentedFile inDelimitedFile firstFile srcfile srcfilename disk
       Ofstream.path Ofstream.fail set_disk] in *.

Section step_invariants.
Implicit Types (s : state) (raw : string).

(** The invariant of the scan: at most one block is open. *)
Lemma step_one_block ow raw s :
  one_block s -> one_block (final (step ow raw s)).
Proof.
  intros Hinv. unfold one_block in *. open_state s.
  destruct Hinv as (Hx & Hopen & Hfail).
  abstract_step P.
  destruct i, dl; try done; destruct sp as [p|];
    try (by destruct Hopen as [Ho1 Ho2]; first [apply is_Some_None in Ho2|
           specialize (Ho1 (ltac:(eauto))); done]).
  all: step_split tree_frame; subst P; cbv beta; close_state.
  all: cbn [orb andb is_Some]; repeat split; try done; try (intros [? ?]; done);
    try (intros; eauto); try discriminate.
Qed.

(** A step leaves the members the constructor sets as they are. *)
Lemma step_constants ow raw s :
  mdfile (final (step ow raw s)) = mdfile s /\
  projname (final (step ow raw s)) = projname s /\
  srcdir (final (step ow raw s)) = srcdir s /\
  input (final (step ow raw s)) = input s.
Proof.
  open_state s. abstract_step P.
  destruct i, dl, sp as [p|].
  all: step_split tree_frame; subst P; cbv beta; close_state; done.
Qed.


(** A step removes no path from the filesystem. *)
Lemma step_grows ow raw s : grows (disk s) (disk (final (step ow raw s))).
Proof.
  open_state s. abstract_step P.
  destruct i, dl, sp as [p|].
  all: step_split tree_frame; subst P; cbv beta; close_state.
  all: first [ apply grows_refl | assumption | apply grows_append
             | (eapply grows_trans; [eassumption|]);
               first [ apply grows_insert
                     | eapply grows_trans; [apply grows_insert|apply grows_append] ]
             | apply grows_insert
             | eapply grows_trans; [apply grows_insert|apply grows_append] ].
Qed.


(** Once the first block has been attempted the project root exists, and
    no file name is recorded before. *)
Lemma step_rooted ow raw s s' :
  plain (projname s) = true -> srcdir s = projname s +:+ "/src" ->
  (firstFile s = false -> is_Some (disk s !! projname s)) ->
  (srcnames s <> ∅ -> firstFile s = false) ->
  step ow raw s = Ret tt s' ->
  (firstFile s' = false -> is_Some (disk s' !! projname s')) /\
  (srcnames s' <> ∅ -> firstFile s' = false).
Proof.
  intros Hp Hsrc Hroot Hnames. open_state s. subst sd.
  revert s'. abstract_step P.
  destruct i, dl, sp as [p|], ff.
  all: step_split tree_outcome; subst P; cbv beta; intros s' Hs';
    try discriminate; injection Hs' as <-; close_state.
  all: split; try done; intros _.
  all: try (specialize (Hroot eq_refl)).
  all: first
    [ assumption
    | by apply grows_append
    | by apply grows_insert
    | by apply grows_insert, grows_append
    | rewrite lookup_insert_ne; [eauto|]
    | idtac ].
  all: try (apply grows_append; apply grows_insert; eauto; fail).
  all: try (apply grows_append; apply grows_insert; done).
  all: try (apply grows_insert; eauto; fail).
Qed.

End step_invariants.

(** ** From one step to the whole scan *)

Section scan_invariants.
Implicit Types (s : state) (lines : list string).

(** A property of states that every step keeps holds when the scan
    ends, however it ends. *)
Lemma scan_preserves (I : state -> Prop) ow :
  (forall raw s, I s -> I (final (step ow raw s))) ->
  forall lines s, I s -> I (final (scan ow lines s)).
Proof.
  intros Hstep lines. induction lines as [|raw lines IH]; intros s Hs; [done|].
  rewrite scan_cons. specialize (Hstep raw s Hs).
  destruct (step ow raw s) as [[] s1|e s1]; cbn [final] in *; [by apply IH|done].
Qed.


Lemma scan_constants ow lines s :
  projname (final (scan ow lines s)) = projname s /\
  srcdir (final (scan ow lines s)) = srcdir s.
Proof.
  revert s. induction lines as [|raw lines IH]; intros s; [done|].
  rewrite scan_cons.
  destruct (step_constants ow raw s) as (_ & H1 & H2 & _).
  destruct (step ow raw s) as [[] s1|e s1]; cbn [final] in *; [|done].
  destruct (IH s1) as (G1 & G2). split; congruence.
Qed.

Lemma scan_rooted ow lines s s' :
  plain (projname s) = true -> srcdir s = projname s +:+ "/src" ->
  (firstFile s = false -> is_Some (disk s !! projname s)) ->
  (srcnames s <> ∅ -> firstFile s = false) ->
  scan ow lines s = Ret tt s' ->
  (firstFile s' = false -> is_Some (disk s' !! projname s')) /\
  (srcnames s' <> ∅ -> firstFile s' = false).
Proof.
  revert s. induction lines as [|raw lines IH]; intros s Hp Hsrc H1 H2 Hscan.
  - rewrite scan_nil in Hscan. by injection Hscan as <-.
  - rewrite scan_cons in Hscan.
    destruct (step_constants ow raw s) as (_ & C1 & C2 & _).
    destruct (step ow raw s) as [[] s1|e s1] eqn:Hstep; [|done].
    cbn [final] in *.
    destruct (step_rooted ow raw s s1 Hp Hsrc H1 H2 Hstep) as [G1 G2].
    eapply (IH s1); try done; congruence.
Qed.

(** The end of [createProject] leaves the accumulated sets as they are
    and removes no path. *)
Lemma finish_frame s :
  extraRules (final (finish s)) = extraRules s /\
  libraries (final (finish s)) = libraries s /\
  srcnames (final (finish s)) = srcnames s /\
  projname (final (finish s)) = projname s /\
  grows (disk s) (disk (final (finish s))).
Proof.
  destruct s as [md pn sd inp E L N prev i dl ff sf sfn d].
  unfold finish, writeSrcLevel, writeTopLevel, copy_file.
  cbv beta iota zeta delta
    [mbind M_bind mret M_ret get modify throw set_input set_disk
     mdfile projname srcdir input extraRules libraries srcnames prevline
     inIndentedFile inDelimitedFile firstFile srcfile srcfilename disk].
  destruct (bool_decide (N = ∅)); cbv beta iota zeta delta [negb];
    [by repeat split; try apply grows_refl|].
  set (d1 := Fs.write_file _ _ d).
  set (d2 := Fs.write_file _ _ d1).
  assert (grows d d2) as G.
  { eapply grows_trans; apply grows_write_file. }
  destruct (d2 !! md) as [[|c]|]; [by repeat split..| |by repeat split].
  destruct (d2 !! _); [by repeat split|].
  destruct (Fs.dir_exists d2 _); cbn [final extraRules libraries srcnames disk projname];
    repeat split; try done.
  eapply grows_trans; [exact G|apply grows_insert].
Qed.

Lemma finish_result s b s' :
  finish s = Ret b s' -> b = negb (bool_decide (srcnames s = ∅)).
Proof.
  destruct s as [md pn sd inp E L N prev i dl ff sf sfn d].
  unfold finish, writeSrcLevel, writeTopLevel, copy_file.
  cbv beta iota zeta delta
    [mbind M_bind mret M_ret get modify throw set_input set_disk
     mdfile projname srcdir input extraRules libraries srcnames prevline
     inIndentedFile inDelimitedFile firstFile srcfile srcfilename disk].
  destruct (bool_decide (N = ∅)); cbv beta iota zeta delta [negb];
    [by intros [= <- _]|].
  set (d1 := Fs.write_file _ _ d).
  set (d2 := Fs.write_file _ _ d1).
  destruct (d2 !! md) as [[|c]|]; [done| |done].
  destruct (d2 !! _); [done|].
  destruct (Fs.dir_exists d2 _); [by intros [= <- _]|done].
Qed.

End scan_invariants.

(** ** Documents without a block, and projects that exist already *)

Section no_block.
Implicit Types (doc pre post : list string) (fs d : gmap string node).

(** The first line of a document that opens a block. *)
Lemma first_opener doc :
  quiet doc = false ->
  exists pre raw post,
    doc = pre ++ raw :: post /\ quiet pre = true /\ opens_block raw = true.
Proof.
  induction doc as [|l doc IH]; [done|]. cbn [quiet forallb].
  destruct (opens_block l) eqn:Hl.
  - intros _. by exists [], l, doc.
  - cbn [negb andb]. intros (pre & raw & post & -> & Hq & Hr)%IH.
    exists (l :: pre), raw, post. repeat split; [|done].
    cbn [quiet forallb]. by rewrite Hl.
Qed.

Lemma makeTree_exists s :
  Fs.exists_ (disk s) (projname s) = true ->
  makeTree false s = Throw AlreadyExists s.
Proof.
  intros H. unfold makeTree.
  cbv beta iota zeta delta [mbind M_bind get throw]. by rewrite H.
Qed.

Lemma nonEmptyIndented_nonempty line :
  isNonEmptyIndented line = true -> bool_decide (line = "") = false.
Proof. intros H. apply bool_decide_eq_false. by intros ->. Qed.

(** The first attempt to open a block throws when the root exists and
    [overwrite] is off, and nothing has been created or written. *)
Lemma step_opener_throws raw md pn sd inp E L N prev fl sfn d :
  Fs.exists_ d pn = true -> opens_block raw = true ->
  exists s',
    step false raw
      (mkState md pn sd inp E L N prev false false true (Ofstream.mk None fl) sfn d)
    = Throw AlreadyExists s' /\
    disk s' = d /\ srcnames s' = N /\ Ofstream.path (srcfile s') = None.
Proof.
  intros Hex Hopen. unfold opens_block in Hopen. exec.
  destruct (isDelimited (replaceLeadingTabs raw)) eqn:Hd.
  - rewrite makeTree_exists by done. eauto.
  - cbn [orb] in Hopen. rewrite Hopen.
    destruct (isSourceFilename prev).
    + rewrite makeTree_exists by done. eauto.
    + rewrite (nonEmptyIndented_nonempty _ Hopen).
      rewrite makeTree_exists by done. eauto.
Qed.

End no_block.

Lemma quiet_document ow md stem doc fs :
  quiet doc = true ->
  createProject ow (AutoProject md stem doc fs) =
  Ret false
    (mkState md stem (stem +:+ "/src") [] ∅ ∅ ∅ (caption_after "" doc) false false
       true (Ofstream.mk None false) "" fs).
Proof.
  intros Hq. rewrite createProject_eq, scan_quiet by done.
  by rewrite finish_nothing.
Qed.

(** C4. A document in which no line opens a block: [createProject] returns
    [false], the filesystem is as it was (no directory, no build file, no
    copy of the document) and [makeTree] has not been called. *)
Theorem nothing_extracted ow md stem doc fs :
  quiet doc = true ->
  exists s',
    createProject ow (AutoProject md stem doc fs) = Ret false s' /\
    disk s' = fs /\ srcnames s' = ∅ /\ firstFile s' = true.
Proof.
  intros Hq. rewrite quiet_document by done. eauto.
Qed.

Lemma nothing_extracted_witness :
  exists s',
    createProject false
      (AutoProject "doc.md" "doc" ["# Title"; "-----"; ""; "  some text"; " `code`"]
         {[ "doc.md" := File "text" ]}) = Ret false s' /\
    disk s' = {[ "doc.md" := File "text" ]} /\ srcnames s' = ∅ /\
    firstFile s' = true.
Proof. apply (nothing_extracted false "doc.md" "doc"). reflexivity. Defined.

(** C7. When the project root exists and [overwrite] is off, a document
    with a line that opens a block makes [createProject] throw the
    pre-existing-output error at that line, with the filesystem as it was
    and no file opened; so a run that succeeded is followed, on the same
    document with [overwrite] off, by a run that throws and leaves the
    output of the first as it is. *)
Theorem preexisting_output ow md stem doc fs :
  plain stem = true ->
  (quiet doc = false -> Fs.exists_ fs stem = true ->
   exists s',
     createProject false (AutoProject md stem doc fs) = Throw AlreadyExists s' /\
     disk s' = fs /\ srcnames s' = ∅ /\ Ofstream.path (srcfile s') = None) /\
  (forall s1,
     createProject ow (AutoProject md stem doc fs) = Ret true s1 ->
     exists s2,
       createProject false (AutoProject md stem doc (disk s1)) =
         Throw AlreadyExists s2 /\
       disk s2 = disk s1).
Proof.
  intros Hp.
  assert (forall fs', quiet doc = false -> Fs.exists_ fs' stem = true ->
    exists s',
      createProject false (AutoProject md stem doc fs') = Throw AlreadyExists s' /\
      disk s' = fs' /\ srcnames s' = ∅ /\ Ofstream.path (srcfile s') = None)
    as Hthrow.
  { intros fs' (pre & raw & post & -> & Hq & Hr)%first_opener Hex.
    rewrite createProject_eq, scan_app, scan_quiet by done.
    rewrite scan_cons.
    destruct (step_opener_throws raw md stem (stem +:+ "/src")
                (pre ++ raw :: post) ∅ ∅ ∅ (caption_after "" pre) false "" fs'
                Hex Hr) as (s' & -> & H). eauto. }
  split; [apply Hthrow|].
  intros s1 Hrun.
  destruct (quiet doc) eqn:Hq.
  { rewrite quiet_document in Hrun by done. done. }
  rewrite createProject_eq in Hrun.
  destruct (scan ow doc _) as [[] s0|e s0] eqn:Hscan; [|done].
  pose proof (finish_result _ _ _ Hrun) as Hb.
  symmetry in Hb. apply negb_true_iff, bool_decide_eq_false in Hb.
  destruct (scan_constants ow doc
              (mkState md stem (stem +:+ "/src") doc ∅ ∅ ∅ "" false false true
                 (Ofstream.mk None false) "" fs)) as [Hc _].
  rewrite Hscan in Hc. cbn [final projname] in Hc.
  destruct (scan_rooted ow doc
              (mkState md stem (stem +:+ "/src") doc ∅ ∅ ∅ "" false false true
                 (Ofstream.mk None false) "" fs) s0 Hp eq_refl
              ltac:(done) ltac:(done) Hscan) as [Hroot Hnames].
  specialize (Hroot (Hnames Hb)). rewrite Hc in Hroot.
  destruct (finish_frame s0) as (_ & _ & _ & _ & Hg).
  rewrite Hrun in Hg. cbn [final] in Hg. apply Hg in Hroot.
  destruct (Hthrow (disk s1) eq_refl) as (s2 & H2 & Hd & _).
  { unfold Fs.exists_. by destruct Hroot as [n ->]. }
  eauto.
Qed.

Lemma preexisting_output_witness :
  let fs : gmap string node := {[ "doc.md" := File "text" ]} in
  let doc := ["a.cpp"; "```"; "x"; "```"] in
  exists s1 s2,
    createProject false (AutoProject "doc.md" "doc" doc fs) = Ret true s1 /\
    createProject false (AutoProject "doc.md" "doc" doc (disk s1)) =
      Throw AlreadyExists s2 /\
    disk s2 = disk s1.
Proof.
  intros fs doc.
  set (s1 := final (createProject false (AutoProject "doc.md" "doc" doc fs))).
  assert (createProject false (AutoProject "doc.md" "doc" doc fs) = Ret true s1)
    as Hrun by (vm_compute; reflexivity).
  destruct (proj2 (preexisting_output false "doc.md" "doc" doc fs eq_refl) s1 Hrun)
    as (s2 & H2 & Hd).
  exists s1, s2. auto.
Defined.

(** ** The invariant of the scan *)

(** C8. At most one block is open at every point of the scan: the state
    [createProject] starts from satisfies [one_block], every step keeps it,
    whether it returns or throws, and so does the scan of any lines. In a
    state that satisfies it the scanner is not in both block states, and
    the one stream is open exactly while it is in one of them. *)
Theorem at_most_one_block ow s :
  one_block s ->
  one_block (init_locals s) /\
  (forall raw, one_block (final (step ow raw s))) /\
  (forall lines, one_block (final (scan ow lines s))) /\
  (forall lines, one_block (final (scan ow lines (init_locals s)))) /\
  ~ (inIndentedFile s = true /\ inDelimitedFile s = true).
Proof.
  intros Hs.
  assert (one_block (init_locals s)) as Hinit.
  { unfold one_block. cbn. repeat split; try done; try (by intros [? ?]). }
  split; [done|]. split; [|split; [|split]].
  - intros raw. by apply step_one_block.
  - intros lines. apply scan_preserves; [|done].
    intros raw s0. apply step_one_block.
  - intros lines. apply scan_preserves; [|done].
    intros raw s0. apply step_one_block.
  - intros [H1 H2]. destruct Hs as [Hx _]. by rewrite H1, H2 in Hx.
Qed.

Lemma at_most_one_block_witness :
  let s := AutoProject "doc.md" "doc" [] ∅ in
  one_block s /\
  one_block (final (scan false ["a.cpp"; "    x"; "```"; "y"] (init_locals s))).
Proof.
  intros s.
  assert (one_block s) as Hs.
  { unfold one_block. cbn. repeat split; try done; try (by intros [? ?]). }
  split; [exact Hs|].
  apply (at_most_one_block false s Hs).
Defined.

(** ** Each snippet and library once *)

Section once.

Lemma elements_once (X : gset string) (x : string) :
  x ∈ X -> count_occ string_dec (elements X) x = 1.
Proof.
  intros Hx. apply NoDup_count_occ'.
  - apply NoDup_ListNoDup, NoDup_elements.
  - by apply list_elem_of_In, elem_of_elements.
Qed.


Lemma createProject_run ow s0 :
  createProject ow s0 =
  match scan ow (input s0) (init_locals s0) with
  | Ret _ s' => finish s'
  | Throw e s' => Throw e s'
  end.
Proof. reflexivity. Qed.

End once.

(** ** The default name *)

(** C9, amended. A fence read outside a block, and the first indented
    line of a document whose first block it opens, under a caption
    candidate that names no source file, open the file [main.cpp] of the
    sources directory when the step returns with the stream in order: the
    file is created or truncated, so a later block replaces what an earlier
    one left there, and the set of file names holds [main.cpp] once, also
    when it held it before. A fence read inside an indented block is not
    among them: it only ends that block. *)
Theorem default_name ow raw s s' :
  let line := replaceLeadingTabs raw in
  let target := srcdir s +:+ "/main.cpp" in
  inIndentedFile s = false -> inDelimitedFile s = false ->
  Ofstream.path (srcfile s) = None ->
  isSourceFilename (prevline s) = false ->
  isDelimited line = true \/ isNonEmptyIndented line = true /\ firstFile s = true ->
  step ow raw s = Ret tt s' ->
  Ofstream.good (srcfile s') = true ->
  srcfilename s' = target /\
  Ofstream.path (srcfile s') = Some target /\
  srcnames s' = {[ "main.cpp" ]} ∪ srcnames s /\
  count_occ string_dec (names_written s') "main.cpp" = 1 /\
  disk s' !! target = Some (File (if isDelimited line then "" else emit_text line)) /\
  inDelimitedFile s' = isDelimited line /\
  inIndentedFile s' = negb (isDelimited line).
Proof.
  intros line target Hi Hd Hp Hn Hline. subst line target.
  open_state s. subst i dl sp. revert s'. abstract_step P.
  assert (Path.filename (sd +:+ "/" +:+ "main.cpp") = "main.cpp") as Hfn
    by (by apply filename_join).
  destruct Hline as [Hl | [Hl ->]].
  - exec. rewrite Hl, Hn.
    step_split tree_frame; subst P; cbv beta; intros s' Hs' Hgood;
      try discriminate; injection Hs' as <-; close_state; try discriminate.
    all: unfold Path.join in *; cbn [Path.is_absolute] in *.
    all: rewrite Hfn, Hl.
    all: unfold names_written; cbn [srcnames negb].
    all: repeat split; try done.
    all: first [ apply elements_once, elem_of_union_l, elem_of_singleton; done
               | apply lookup_insert_eq ].
  - exec. rewrite (nonEmptyIndented_not_delimited _ Hl), Hl, Hn.
    rewrite (nonEmptyIndented_nonempty _ Hl).
    step_split tree_frame; subst P; cbv beta; intros s' Hs' Hgood;
      try discriminate; injection Hs' as <-; close_state; try discriminate.
    all: unfold Path.join in *; cbn [Path.is_absolute] in *.
    all: rewrite ?Hfn, ?append_insert, ?app_empty_l,
           (nonEmptyIndented_not_delimited _ Hl).
    all: unfold names_written; cbn [srcnames negb].
    all: repeat split; try done.
    all: first [ apply elements_once, elem_of_union_l, elem_of_singleton; done
               | apply lookup_insert_eq ].
Qed.

Lemma default_name_witness :
  let fs : gmap string node := {[ "doc.md" := File "text" ]} in
  let s := final (scan false ["```"; "a"; "```"]
                    (init_locals (AutoProject "doc.md" "doc" [] fs))) in
  let s' := final (step false "~~~" s) in
  disk s !! "doc/src/main.cpp" = Some (File (unlines ["a"])) /\
  srcnames s = {[ "main.cpp" ]} ∪ ∅ /\
  step false "~~~" s = Ret tt s' /\
  disk s' !! "doc/src/main.cpp" = Some (File "") /\
  count_occ string_dec (names_written s') "main.cpp" = 1.
Proof.
  intros fs s s'.
  assert (step false "~~~" s = Ret tt s') as Hstep by (vm_compute; reflexivity).
  assert (isDelimited (replaceLeadingTabs "~~~") = true \/
          isNonEmptyIndented (replaceLeadingTabs "~~~") = true /\ firstFile s = true)
    as Hline by (left; vm_compute; reflexivity).
  pose proof (default_name false "~~~" s s'
                ltac:(vm_compute; reflexivity) ltac:(vm_compute; reflexivity)
                ltac:(vm_compute; reflexivity) ltac:(vm_compute; reflexivity)
                Hline Hstep ltac:(vm_compute; reflexivity))
    as (_ & _ & _ & Hcount & Hdisk & _).
  split; [vm_compute; reflexivity|].
  split; [vm_compute; reflexivity|].
  split; [exact Hstep|].
  vm_compute in Hcount, Hdisk. vm_compute. split; assumption.
Defined.

(** C9 as stated does not hold: an uncaptioned fenced block that follows
    an indented block without a line between them is not materialized. Its
    opening fence is read inside the indented block and only ends it, its
    line is read outside every block and goes to no file, and its closing
    fence opens [main.cpp], which then holds the line after the block. *)
Lemma default_name_after_indented :
  let fs : gmap string node := {[ "doc.md" := File "text" ]} in
  let doc := ["a.cpp"; "    int x;"; "```"; "int y;"; "```"; "int z;"] in
  exists s',
    createProject false (AutoProject "doc.md" "doc" doc fs) = Ret true s' /\
    disk s' !! "doc/src/a.cpp" = Some (File (unlines ["int x;"])) /\
    disk s' !! "doc/src/main.cpp" = Some (File (unlines ["int z;"])) /\
    disk s' !! "doc/src/main.cpp" <> Some (File (unlines ["int y;"])) /\
    Forall (fun '(p, n) =>
              match n with
              | File c => Str.find "int y;" c = None
              | Dir => True
              end) (map_to_list (disk s')).
Proof.
  intros fs doc. eexists. split; [vm_compute; reflexivity|].
  split; [vm_compute; reflexivity|].
  split; [vm_compute; reflexivity|].
  split; [vm_compute; discriminate|].
  vm_compute.
  repeat (apply List.Forall_cons; [first [exact I | reflexivity]|]).
  apply List.Forall_nil.
Qed.

(** ** The closing fence *)

(** C2, amended. Inside a fenced block a fence closes the block: the step
    returns with the scanner outside every block and the stream closed,
    nothing is written and no file name is added, and the closing fence,
    with its leading tabs replaced, becomes the caption candidate. *)
Theorem closing_fence ow raw s :
  inIndentedFile s = false -> inDelimitedFile s = true ->
  isDelimited (replaceLeadingTabs raw) = true ->
  exists s',
    step ow raw s = Ret tt s' /\
    inIndentedFile s' = false /\ inDelimitedFile s' = false /\
    Ofstream.path (srcfile s') = None /\
    disk s' = disk s /\ srcnames s' = srcnames s /\
    prevline s' = replaceLeadingTabs raw.
Proof.
  intros Hi Hd Hf. open_state s. subst i dl. exec. rewrite Hf.
  destruct sp; eexists; (split; [reflexivity|done]).
Qed.

Lemma closing_fence_witness :
  let fs : gmap string node := {[ "doc.md" := File "text" ]} in
  let s := final (scan false ["a.cpp"; "```"; "x"]
                    (init_locals (AutoProject "doc.md" "doc" [] fs))) in
  exists s',
    step false "```" s = Ret tt s' /\
    inIndentedFile s' = false /\ inDelimitedFile s' = false /\
    Ofstream.path (srcfile s') = None /\
    disk s' = disk s /\ srcnames s' = srcnames s /\
    prevline s' = "```".
Proof.
  intros fs s. apply (closing_fence false "```" s); vm_compute; reflexivity.
Defined.

(** C2 as stated does not hold: the closing fence is remembered as the
    caption candidate. Before it the candidate is [a.cpp]; after it the
    candidate is the fence, and a fence that follows opens [main.cpp]. *)
Lemma closing_fence_remembered :
  let fs : gmap string node := {[ "doc.md" := File "text" ]} in
  let s := final (scan false ["a.cpp"; "```"; "x"]
                    (init_locals (AutoProject "doc.md" "doc" [] fs))) in
  inDelimitedFile s = true /\
  prevline s = "a.cpp" /\
  prevline (final (step false "```" s)) = "```" /\
  prevline (final (step false "```" s)) <> prevline s /\
  srcfilename (final (scan false ["```"; "```"] s)) = "doc/src/main.cpp".
Proof.
  intros fs s.
  split; [vm_compute; reflexivity|].
  split; [vm_compute; reflexivity|].
  split; [vm_compute; reflexivity|].
  split; [vm_compute; discriminate|].
  vm_compute; reflexivity.
Qed.

(** ** Indented runs without a caption *)

(** Outside a block, after the first block, an indented line under a
    candidate that names no source file is skipped: the candidate is left
    stripped of its decoration, and nothing else changes. *)
Lemma step_uncaptioned_skipped ow raw s :
  inIndentedFile s = false -> inDelimitedFile s = false ->
  firstFile s = false ->
  isNonEmptyIndented (replaceLeadingTabs raw) = true ->
  isSourceFilename (prevline s) = false ->
  step ow raw s = Ret tt (set_prevline (trimExtras (prevline s)) s).
Proof.
  intros Hi Hd Hf Hl Hn. open_state s. subst i dl ff. exec.
  by rewrite (nonEmptyIndented_not_delimited _ Hl), Hl, Hn.
Qed.

(** C6, the code at the failing input. The candidate [x.cpp-:] names no
    source file when the first line of the run is read, so that line is
    skipped; the test has stripped the candidate to [x.cpp-], which the
    test at the second line strips to [x.cpp]: a block opens there, its
    line is written and [x.cpp] joins the file names. *)
Lemma uncaptioned_run_written :
  let fs : gmap string node := {[ "doc.md" := File "text" ]} in
  let doc := ["```"; "```"; "x.cpp-:"; "    a"; "    b"] in
  isSourceFilename "x.cpp-:" = false /\
  trimExtras "x.cpp-:" = "x.cpp-" /\
  isSourceFilename "x.cpp-" = true /\
  exists s',
    createProject false (AutoProject "doc.md" "doc" doc fs) = Ret true s' /\
    disk s' !! "doc/src/x.cpp" = Some (File (unlines ["b"])) /\
    names_written s' = ["main.cpp"; "x.cpp"].
Proof.
  intros fs doc.
  split; [vm_compute; reflexivity|].
  split; [vm_compute; reflexivity|].
  split; [vm_compute; reflexivity|].
  eexists. split; [vm_compute; reflexivity|].
  split; vm_compute; reflexivity.
Qed.

(** ** The indented block, on an example *)

Lemma indented_block_materialized_witness :
  let fs : gmap string node := {[ "doc.md" := File "text" ]} in
  let block := ["    int f();"; ""; "  "; String Str.tab "  return 0;"] in
  exists s',
    createProject false
      (AutoProject "doc.md" "doc" (["Intro"] ++ "**util.h**" :: block ++ ["Text"]) fs) =
      Ret true s' /\
    srcnames s' = {[ "util.h" ]} /\
    disk s' !! "doc/src/util.h" =
      Some (File (unlines ["int f();"; ""; "  "; "  return 0;"])).
Proof.
  intros fs block.
  destruct (indented_block_materialized "doc.md" "doc" fs "text" false
              ["Intro"] "**util.h**" "    int f();"
              [""; "  "; String Str.tab "  return 0;"] ["Text"]
              ltac:(vm_compute; reflexivity) ltac:(vm_compute; reflexivity)
              ltac:(vm_compute; reflexivity) ltac:(vm_compute; reflexivity)
              ltac:(vm_compute; reflexivity) ltac:(vm_compute; reflexivity)
              ltac:(vm_compute; reflexivity) ltac:(vm_compute; reflexivity)
              ltac:(vm_compute; reflexivity) ltac:(vm_compute; reflexivity)
              ltac:(vm_compute; reflexivity))
    as (s' & Hrun & Hnames & Hfile & _).
  exists s'. split; [exact Hrun|].
  vm_compute in Hnames, Hfile. vm_compute. split; assumption.
Defined.

(** C5 as stated does not hold: a blank line of the block has no
    indentation unit to lose and is written as it is, so the lines of the
    file are not the lines of the block with four spaces taken off each. *)
Lemma indented_block_short_lines :
  let fs : gmap string node := {[ "doc.md" := File "text" ]} in
  let block := ["    x"; ""; "    y"] in
  exists s',
    createProject false (AutoProject "doc.md" "doc" ("a.cpp" :: block) fs) =
      Ret true s' /\
    disk s' !! "doc/src/a.cpp" = Some (File (unlines ["x"; ""; "y"])) /\
    ~ (exists outs,
         Forall2 (fun raw out =>
                    replaceLeadingTabs raw = Str.fill indentLevel " " +:+ out)
                 block outs).
Proof.
  intros fs block. eexists. split; [vm_compute; reflexivity|].
  split; [vm_compute; reflexivity|].
  intros (outs & H). unfold block in H.
  apply Forall2_cons_inv_l in H as (o1 & outs1 & _ & H & _).
  apply Forall2_cons_inv_l in H as (o2 & outs2 & H2 & _ & _).
  vm_compute in H2. discriminate H2.
Qed.

(** ** The constructor *)

Section constructor.
Implicit Types (p f acc : string).

Lemma mem_rev_app ch a b :
  Str.mem ch (String.rev_app a b) = Str.mem ch a || Str.mem ch b.
Proof.
  revert b. induction a as [|c a IH]; intros b; [done|].
  simpl. rewrite IH. simpl. destruct (Str.eqc c ch), (Str.mem ch a); done.
Qed.

Lemma filename_go_no_sep acc p :
  Str.mem "/" acc = false -> Str.mem "/" (Path.filename_go acc p) = false.
Proof.
  revert acc. induction p as [|c p IH]; intros acc Hacc; simpl.
  - unfold String.rev. by rewrite mem_rev_app, Hacc.
  - destruct (Str.eqc c "/") eqn:Hc; apply IH; [done|].
    simpl. by rewrite Hc.
Qed.

Lemma mem_substring ch n f :
  Str.mem ch f = false -> Str.mem ch (String.substring 0 n f) = false.
Proof.
  revert n. induction f as [|c f IH]; intros n Hf; [by destruct n|].
  simpl in Hf. apply orb_false_iff in Hf as [Hc Hf].
  destruct n; [done|]. simpl. by rewrite Hc, IH.
Qed.

Lemma length_substr n f : String.length (Str.substr n f) = String.length f - n.
Proof.
  revert f. induction n as [|n IH]; intros f; simpl; [lia|].
  destruct f; [done|]. simpl. apply IH.
Qed.

(** The stem of a path whose extension is [.md] is a plain name. *)
Lemma stem_plain p : Path.extension p = mdextension -> plain (Path.stem p) = true.
Proof.
  intros Hext. unfold Path.stem. rewrite Hext.
  assert (4 <= Str.size (Path.filename p)) as Hsize.
  { unfold Path.extension in Hext.
    destruct (Path.filename p) as [|c f] eqn:Hf; [done|].
    destruct (_ && _); [done|].
    destruct (Str.rfind "." (String c f)) as [[|pos]|]; [done| |done].
    apply (f_equal String.length) in Hext. rewrite length_substr in Hext.
    unfold Str.size. simpl in *. lia. }
  unfold plain. apply andb_true_iff. split.
  - apply negb_true_iff, bool_decide_eq_false.
    destruct (Path.filename p) as [|c f]; [simpl in Hsize; lia|].
    unfold Str.size in *. simpl in Hsize.
    replace (String.length (String c f) - String.length mdextension)
      with (S (String.length f - 3)) by (simpl; lia).
    intros H. cbn [String.substring] in H. discriminate H.
  - apply negb_true_iff, mem_substring. by apply filename_go_no_sep.
Qed.

(** An object the constructor returns is as the properties above take
    it: its project name is plain, its sources directory is below it,
    and the document is a regular file whose lines are the input, or a
    directory, and then there is no input. *)
Lemma AutoProject_open_spec md fs s :
  AutoProject_open md fs = inr s ->
  plain (projname s) = true /\
  srcdir s = projname s +:+ "/src" /\
  exists doc,
    s = AutoProject md (Path.stem md) doc fs /\
    ((exists text, fs !! md = Some (File text) /\ doc = getlines text) \/
     (fs !! md = Some Dir /\ doc = [])).
Proof.
  unfold AutoProject_open. destruct (bool_decide _) eqn:Hext; [|done].
  apply bool_decide_eq_true in Hext. cbn [negb].
  destruct (fs !! md) as [[|text]|]; [| |done].
  - intros [= <-]. cbn [projname srcdir AutoProject].
    split; [by apply stem_plain|]. split; [done|].
    exists []. split; [done|]. by right.
  - intros [= <-]. cbn [projname srcdir AutoProject].
    split; [by apply stem_plain|]. split; [done|].
    exists (getlines text). split; [done|]. left. by exists text.
Qed.

End constructor.

(** * Further properties *)

(** ** Lines and their classes *)

Section line_classes.
Implicit Types (line s rest : string) (ch c : ascii) (n : nat).

Lemma tabcount_split line :
  line = Str.fill (tabcount line) Str.tab +:+ Str.substr (tabcount line) line /\
  tabcount (Str.substr (tabcount line) line) = 0.
Proof.
  induction line as [|c line [IH1 IH2]]; [done|].
  cbn [tabcount]. destruct (Str.eqc c Str.tab) eqn:Hc.
  - apply eqc_true in Hc as ->. cbn [Str.fill Str.substr]. rewrite app_cons.
    split; [by rewrite <- IH1|done].
  - cbn [Str.fill Str.substr tabcount]. by rewrite Hc.
Qed.

Lemma tabcount_fill n rest : tabcount rest = 0 -> tabcount (Str.fill n Str.tab +:+ rest) = n.
Proof.
  intros H. induction n as [|n IH]; [done|].
  cbn [Str.fill]. rewrite app_cons. cbn [tabcount]. by rewrite IH.
Qed.

Lemma substr_fill n ch rest : Str.substr n (Str.fill n ch +:+ rest) = rest.
Proof. induction n as [|n IH]; [done|]. cbn [Str.fill]. by rewrite app_cons. Qed.

Lemma tabcount_spaces n rest : tabcount (Str.fill (S n) " " +:+ rest) = 0.
Proof. reflexivity. Qed.

(** [find_first_not_of]: the position it returns is the length of the
    run of [ch] the string begins with, and [npos] means the string is
    nothing but that run. *)
Lemma find_first_not_of_Some ch s n :
  Str.find_first_not_of ch s = Some n <->
  exists c rest, s = Str.fill n ch +:+ String c rest /\ c <> ch.
Proof.
  revert n. induction s as [|a s IH]; intros n.
  - split; [done|]. intros (c & rest & H & _). by destruct n.
  - cbn [Str.find_first_not_of]. destruct (Str.eqc a ch) eqn:Ha.
    + apply eqc_true in Ha as ->. split.
      * destruct (Str.find_first_not_of ch s) as [m|] eqn:E; [|done].
        intros [= <-]. destruct (proj1 (IH m) eq_refl) as (c & rest & -> & Hc).
        by exists c, rest.
      * intros (c & rest & H & Hc). destruct n as [|n].
        { cbn in H. injection H as -> _. done. }
        cbn [Str.fill] in H. rewrite app_cons in H. injection H as ->.
        rewrite (proj2 (IH n)); [done|]. eauto.
    + apply eqc_false in Ha. split.
      * intros [= <-]. by exists a, s.
      * intros (c & rest & H & Hc). destruct n as [|n]; [done|].
        cbn [Str.fill] in H. rewrite app_cons in H. by injection H as -> _.
Qed.

Lemma find_first_not_of_None ch s :
  Str.find_first_not_of ch s = None <-> s = Str.fill (String.length s) ch.
Proof.
  induction s as [|a s IH]; [done|].
  cbn [Str.find_first_not_of String.length Str.fill].
  destruct (Str.eqc a ch) eqn:Ha.
  - apply eqc_true in Ha as ->.
    destruct (Str.find_first_not_of ch s) eqn:E.
    + split; [done|]. intros [= H]. by apply IH in H.
    + split; [|done]. intros _. f_equal. by apply IH.
  - apply eqc_false in Ha. split; [done|]. by intros [= -> _].
Qed.

Lemma length_fill n ch : String.length (Str.fill n ch) = n.
Proof. induction n as [|n IH]; [done|]. cbn. by rewrite IH. Qed.

Lemma underline_fill line :
  isEmptyOrUnderline line = true <-> exists n, line = Str.fill n "-".
Proof.
  unfold isEmptyOrUnderline. destruct line as [|c line].
  - split; [by exists 0|done].
  - destruct (Str.find_first_not_of "-" (String c line)) as [n|] eqn:E.
    + split; [done|]. intros [m H].
      assert (Str.find_first_not_of "-" (String c line) = None) as H2.
      { apply find_first_not_of_None. rewrite H at 2. by rewrite H, length_fill. }
      congruence.
    + split; [|done]. intros _. apply find_first_not_of_None in E. eauto.
Qed.

(** A line of dashes, or an empty line, opens no block. *)
Lemma underline_opens_nothing line :
  isEmptyOrUnderline line = true ->
  isDelimited line = false /\ isNonEmptyIndented line = false.
Proof. intros [n ->]%underline_fill. by destruct n. Qed.

End line_classes.

(** X1. [replaceLeadingTabs] replaces the run of tabs a line begins with,
    and nothing else, by four spaces for each tab: a line is some tabs
    followed by a rest that begins with none, and the result is that many
    times four spaces followed by the same rest. Applying it to its own
    result changes nothing. *)
Theorem replaceLeadingTabs_spec line :
  exists n rest,
    line = Str.fill n Str.tab +:+ rest /\ tabcount rest = 0 /\
    replaceLeadingTabs line = Str.fill (indentLevel * n) " " +:+ rest /\
    replaceLeadingTabs (replaceLeadingTabs line) = replaceLeadingTabs line.
Proof.
  destruct (tabcount_split line) as [Hsplit Hrest].
  exists (tabcount line), (Str.substr (tabcount line) line).
  assert (replaceLeadingTabs line =
          Str.fill (indentLevel * tabcount line) " " +:+
          Str.substr (tabcount line) line) as Heq.
  { unfold replaceLeadingTabs. destruct (tabcount line) eqn:E; [|done].
    by rewrite Nat.mul_0_r. }
  repeat split; try done.
  rewrite Heq. unfold replaceLeadingTabs at 1.
  destruct (tabcount line) as [|n]; [by rewrite Nat.mul_0_r, app_empty_l, Hrest|].
  replace (indentLevel * S n) with (S (indentLevel * n + 3)) by (unfold indentLevel; lia).
  by rewrite tabcount_spaces.
Qed.

(** X2. A line is a fence exactly when it begins with three backticks or
    with three tildes, whatever follows them, or when it is nothing but one
    or two backticks or one or two tildes: for those short lines
    [find_first_not_of] answers [npos], which is not below [delimLength].
    A run that mixes the two characters is no fence. *)
Theorem isDelimited_spec line :
  isDelimited line = true <->
  (exists rest, line = "```" +:+ rest) \/ (exists rest, line = "~~~" +:+ rest) \/
  line = "`" \/ line = "``" \/ line = "~" \/ line = "~~".
Proof.
  split.
  - unfold isDelimited, Str.pos_ge, delimLength.
    destruct line as [|c1 line]; [done|].
    rewrite !find_first_not_of_cons.
    destruct (Str.eqc c1 "`") eqn:E1, (Str.eqc c1 "~") eqn:F1; cbn [negb andb]; try done.
    + apply eqc_true in E1, F1. congruence.
    + apply eqc_true in E1 as ->. destruct line as [|c2 line]; [tauto|].
      rewrite find_first_not_of_cons.
      destruct (Str.eqc c2 "`") eqn:E2; [|done].
      apply eqc_true in E2 as ->. destruct line as [|c3 line]; [tauto|].
      rewrite find_first_not_of_cons.
      destruct (Str.eqc c3 "`") eqn:E3; [|done].
      apply eqc_true in E3 as ->. intros _. left. by exists line.
    + apply eqc_true in F1 as ->. destruct line as [|c2 line]; [tauto|].
      rewrite find_first_not_of_cons.
      destruct (Str.eqc c2 "~") eqn:E2; [|done].
      apply eqc_true in E2 as ->. destruct line as [|c3 line]; [tauto|].
      rewrite find_first_not_of_cons.
      destruct (Str.eqc c3 "~") eqn:E3; [|done].
      apply eqc_true in E3 as ->. intros _. right. left. by exists line.
  - intros [[r ->]|[[r ->]|[->|[->|[->| ->]]]]]; try done.
    + change ("```" +:+ r) with (String "`" (String "`" (String "`" r))).
      unfold isDelimited, Str.pos_ge, delimLength.
      rewrite !find_first_not_of_cons. cbn.
      by destruct (Str.find_first_not_of "`" r).
    + change ("~~~" +:+ r) with (String "~" (String "~" (String "~" r))).
      unfold isDelimited, Str.pos_ge, delimLength.
      rewrite !find_first_not_of_cons. cbn.
      by destruct (Str.find_first_not_of "~" r).
Qed.

(** X3. A line starts or continues an indented block by its leading
    spaces alone: [isNonEmptyIndented] holds exactly for four or more
    spaces followed by a character that is not a space, and
    [isIndentedOrEmpty] holds exactly for those lines and for the lines
    made of spaces only, the empty line among them. *)
Theorem indentation_spec line :
  (isNonEmptyIndented line = true <->
   exists n c rest,
     indentLevel <= n /\ line = Str.fill n " " +:+ String c rest /\ c <> " "%char) /\
  (isIndentedOrEmpty line = true <->
   isNonEmptyIndented line = true \/ exists n, line = Str.fill n " ").
Proof.
  unfold isNonEmptyIndented, isIndentedOrEmpty, Str.pos_ge. split.
  - destruct (Str.find_first_not_of " " line) as [n|] eqn:E.
    + apply find_first_not_of_Some in E as (c & rest & -> & Hc). split.
      * intros H%Nat.leb_le. by exists n, c, rest.
      * intros (m & c' & rest' & Hm & H & Hc').
        assert (Str.find_first_not_of " " (Str.fill n " " +:+ String c rest) = Some n)
          as H1 by (apply find_first_not_of_Some; eauto).
        assert (Str.find_first_not_of " " (Str.fill n " " +:+ String c rest) = Some m)
          as H2 by (rewrite H; apply find_first_not_of_Some; eauto).
        rewrite H1 in H2. injection H2 as ->. by apply Nat.leb_le.
    + split; [done|]. intros (m & c' & rest' & Hm & H & Hc').
      assert (Str.find_first_not_of " " line = Some m) as H2
        by (apply find_first_not_of_Some; eauto).
      congruence.
  - destruct (Str.find_first_not_of " " line) as [n|] eqn:E.
    + split; [by left|]. intros [H|[m ->]]; [done|].
      assert (Str.find_first_not_of " " (Str.fill m " ") = None) as H2.
      { apply find_first_not_of_None. by rewrite length_fill. }
      congruence.
    + split; [|done]. intros _. right. apply find_first_not_of_None in E. eauto.
Qed.

(** X4. [isEmptyOrUnderline] holds exactly for the lines made of dashes
    only, the empty line among them. *)
Theorem isEmptyOrUnderline_spec line :
  isEmptyOrUnderline line = true <-> exists n, line = Str.fill n "-".
Proof. apply underline_fill. Qed.

(** X5. Outside a block the scanner reads past an empty line and past a
    line of dashes without any change: such a line is no fence, starts no
    indented block and does not replace the caption candidate, so a caption
    stays in force across the blank lines and the heading underline that
    follow it. *)
Theorem underline_ignored ow n s :
  inIndentedFile s = false -> inDelimitedFile s = false ->
  step ow (Str.fill n "-") s = Ret tt s.
Proof.
  intros Hi Hd.
  assert (replaceLeadingTabs (Str.fill n "-") = Str.fill n "-") as Htab
    by (by destruct n).
  assert (isDelimited (Str.fill n "-") = false) as Hdel by (by destruct n).
  assert (isNonEmptyIndented (Str.fill n "-") = false) as Hind by (by destruct n).
  assert (isEmptyOrUnderline (Str.fill n "-") = true) as Hu.
  { unfold isEmptyOrUnderline. destruct n as [|n]; [done|].
    replace (Str.find_first_not_of "-" (Str.fill (S n) "-")) with (@None nat); [done|].
    symmetry. apply find_first_not_of_None. by rewrite length_fill. }
  open_state s. subst i dl. exec.
  by rewrite Htab, Hdel, Hind, Hu.
Qed.

Lemma underline_ignored_witness :
  step false "-----" (AutoProject "doc.md" "doc" [] ∅) =
  Ret tt (AutoProject "doc.md" "doc" [] ∅).
Proof. apply (underline_ignored false 5); reflexivity. Defined.

(** ** Decoration stripping *)

Section stripping.
Implicit Types (p q : ascii -> bool) (x y a b s t name : string) (ch c : ascii).

Lemma rev_app_app2 a b t :
  String.rev_app (a +:+ b) t = String.rev_app b (String.rev_app a t).
Proof. revert t. induction a as [|d a IH]; intros t; [done|].
  rewrite app_cons. cbn [String.rev_app]. by rewrite IH.
Qed.

Lemma rev_app_s a b : String.rev (a +:+ b) = String.rev b +:+ String.rev a.
Proof.
  unfold String.rev. rewrite rev_app_app2.
  by rewrite <- (app_empty_l (String.rev_app a "")), <- rev_app_app.
Qed.

Lemma rev_cons c a : String.rev (String c a) = String.rev a +:+ String c "".
Proof. change (String c a) with (String c "" +:+ a). by rewrite rev_app_s. Qed.

Lemma all_chars_app p a b :
  all_chars p (a +:+ b) = all_chars p a && all_chars p b.
Proof.
  induction a as [|d a IH]; [done|]. rewrite app_cons. cbn.
  by rewrite IH, andb_assoc.
Qed.

Lemma all_chars_rev p a : all_chars p (String.rev a) = all_chars p a.
Proof.
  induction a as [|d a IH]; [done|].
  rewrite rev_cons, all_chars_app, IH. cbn. by rewrite andb_true_r, andb_comm.
Qed.

Lemma skip_split p s :
  exists run, s = run +:+ Str.skip p s /\ all_chars p run = true /\
              stops p (Str.skip p s) = true.
Proof.
  induction s as [|d s (run & IH1 & IH2 & IH3)]; [by exists ""|].
  cbn [Str.skip]. destruct (p d) eqn:Hd.
  - exists (String d run). rewrite app_cons, <- IH1. cbn. by rewrite Hd.
  - exists "". cbn. by rewrite Hd.
Qed.

Lemma skip_app p x y :
  Str.skip p (x +:+ y) = if all_chars p x then Str.skip p y else Str.skip p x +:+ y.
Proof.
  induction x as [|d x IH]; [done|]. rewrite app_cons. cbn.
  by destruct (p d).
Qed.

Lemma all_chars_skip q p x : all_chars q x = true -> all_chars q (Str.skip p x) = true.
Proof.
  induction x as [|d x IH]; [done|]. cbn. intros [H1 H2]%andb_true_iff.
  destruct (p d); [by apply IH|]. cbn. by rewrite H1, H2.
Qed.

Lemma skip_all p x : all_chars p x = true -> Str.skip p x = "".
Proof.
  induction x as [|d x IH]; [done|]. cbn. intros [H1 H2]%andb_true_iff.
  rewrite H1. by apply IH.
Qed.

Lemma skip_stops p y : stops p y = true -> Str.skip p y = y.
Proof. destruct y as [|d y]; [done|]. cbn. by intros ->%negb_true_iff. Qed.

Lemma trim_eq ch s :
  trim ch s =
  if bool_decide (Str.skip (trimmed ch) s = "") then s else Str.skip (trimmed ch) s.
Proof.
  unfold trim. change (fun c => Str.eqc c ch || Str.isspace c) with (trimmed ch).
  by destruct (Str.skip (trimmed ch) s).
Qed.

Lemma app_nonempty x y : y <> "" -> x +:+ y <> "".
Proof. destruct x; [done|]. by rewrite app_cons. Qed.

(** Stripping at the front of a string whose middle part stops it. *)
Lemma trim_front ch x y :
  stops (trimmed ch) y = true -> y <> "" ->
  trim ch (x +:+ y) = Str.skip (trimmed ch) x +:+ y.
Proof.
  intros Hs Hy. rewrite trim_eq, skip_app, (skip_stops _ y Hs).
  destruct (all_chars (trimmed ch) x) eqn:Hx.
  - rewrite (skip_all _ x Hx), app_empty_l.
    by rewrite bool_decide_eq_false_2.
  - rewrite bool_decide_eq_false_2; [done|]. by apply app_nonempty.
Qed.

Lemma rtrim_back ch x y :
  stops (trimmed ch) (String.rev y) = true -> y <> "" ->
  rtrim ch (y +:+ String.rev x) = y +:+ String.rev (Str.skip (trimmed ch) x).
Proof.
  intros Hs Hy. unfold rtrim, Str.reverse.
  rewrite rev_app_s, rev_involutive_s, trim_front; [|done|].
  - by rewrite rev_app_s, rev_involutive_s.
  - intros H%rev_empty. done.
Qed.

End stripping.

(** X6. [trim(str, ch)] removes the run of [ch] and white space the string
    begins with, up to the first other character; when the string has no
    other character, the loop runs to the end and nothing is erased, so a
    string of nothing but [ch] and white space is left as it is.
    [rtrim(str, ch)] does the same at the end of the string. *)
Theorem trim_spec ch str :
  (exists run rest,
     str = run +:+ rest /\ all_chars (trimmed ch) run = true /\
     stops (trimmed ch) rest = true /\
     trim ch str = if bool_decide (rest = "") then str else rest) /\
  (exists rest run,
     str = rest +:+ run /\ all_chars (trimmed ch) run = true /\
     stops (trimmed ch) (Str.reverse rest) = true /\
     rtrim ch str = if bool_decide (rest = "") then str else rest).
Proof.
  split.
  - destruct (skip_split (trimmed ch) str) as (run & H1 & H2 & H3).
    exists run, (Str.skip (trimmed ch) str). by rewrite trim_eq.
  - destruct (skip_split (trimmed ch) (String.rev str)) as (run & H1 & H2 & H3).
    exists (String.rev (Str.skip (trimmed ch) (String.rev str))), (String.rev run).
    unfold Str.reverse. rewrite rev_involutive_s, all_chars_rev.
    repeat split; try done.
    + by rewrite <- rev_app_s, <- H1, rev_involutive_s.
    + unfold rtrim, Str.reverse. rewrite trim_eq.
      destruct (Str.skip (trimmed ch) (String.rev str)) eqn:E.
      * rewrite bool_decide_eq_true_2 by done.
        rewrite rev_involutive_s. by rewrite bool_decide_eq_true_2.
      * rewrite bool_decide_eq_false_2 by done.
        rewrite bool_decide_eq_false_2; [done|].
        intros H%rev_empty. done.
Qed.

Section decorated.
Implicit Types (p : ascii -> bool) (A : string -> Prop) (Ls : list (string -> Prop)).
Implicit Types (x y a b s t w name P X Y : string) (ch c : ascii).

Lemma skip_layered p Ls x :
  Forall (closed_under p) Ls -> layered Ls x -> layered Ls (Str.skip p x).
Proof.
  intros HLs. revert x. induction HLs as [|B Bs [HB0 HB] _ IH]; intros x.
  - by intros ->.
  - intros (a & b & -> & Ha & Hb). rewrite skip_app.
    destruct (all_chars p a).
    + exists "", (Str.skip p b). eauto.
    + exists (Str.skip p a), b. eauto.
Qed.

(** A strip removes the outermost layer when it is of its own class. *)
Lemma peel ch Ls x :
  Forall (closed_under (trimmed ch)) Ls ->
  layered (cls ch :: Ls) x -> layered Ls (Str.skip (trimmed ch) x).
Proof.
  intros HLs (a & b & -> & Ha & Hb). rewrite skip_app, Ha.
  by apply skip_layered.
Qed.

Lemma cls_closed p ch : closed_under p (cls ch).
Proof. split; [done|]. intros a. apply all_chars_skip. Qed.

Lemma opt_closed p t : stops p t = true -> closed_under p (opt t).
Proof.
  intros Ht. split; [by left|]. intros a [-> | ->]; [by left|right].
  by apply skip_stops.
Qed.

Lemma stops_app p x y :
  stops p x = true -> stops p y = true -> stops p (x +:+ y) = true.
Proof. by destruct x. Qed.

Lemma stops_prefix p x y :
  x <> "" -> stops p x = true -> stops p (x +:+ y) = true.
Proof. by destruct x. Qed.

Lemma stops_weaken p p' x :
  (forall c, p' c = true -> p c = true) -> stops p x = true -> stops p' x = true.
Proof.
  intros H. destruct x as [|c x]; [done|]. cbn.
  intros Hc%negb_true_iff. apply negb_true_iff.
  destruct (p' c) eqn:E; [|done]. apply H in E. congruence.
Qed.

(** No strip of [trimExtras] goes past the first or the last character
    of a bare name. *)
Lemma bare_stops name ch :
  bare name = true -> decoration ch = true ->
  name <> "" /\ stops (trimmed ch) name = true /\
  stops (trimmed ch) (String.rev name) = true.
Proof.
  unfold bare, Str.reverse. intros Hb Hch.
  assert (forall c, decoration c = false -> trimmed ch c = false) as Hd.
  { intros c Hc. unfold trimmed. apply orb_false_iff. split.
    - apply eqc_false. intros ->. congruence.
    - unfold decoration in Hc. by apply orb_false_iff in Hc as [_ Hc]. }
  destruct name as [|c name]; [done|].
  destruct (String.rev (String c name)) as [|z r]; [done|].
  apply andb_true_iff in Hb as [Hc%negb_true_iff Hz%negb_true_iff].
  cbn [stops]. by rewrite !Hd.
Qed.

Lemma trim_bare ch P name X :
  bare name = true -> decoration ch = true ->
  trim ch (P +:+ name +:+ X) = Str.skip (trimmed ch) P +:+ name +:+ X.
Proof.
  intros Hb Hch. destruct (bare_stops name ch Hb Hch) as (Hn & Hs & _).
  apply trim_front.
  - by destruct name.
  - by destruct name.
Qed.

Lemma rtrim_bare ch P name Y :
  bare name = true -> decoration ch = true ->
  rtrim ch (P +:+ name +:+ String.rev Y) =
  P +:+ name +:+ String.rev (Str.skip (trimmed ch) Y).
Proof.
  intros Hb Hch. destruct (bare_stops name ch Hb Hch) as (Hn & _ & Hs).
  rewrite <- !app_assoc_s. apply rtrim_back.
  - rewrite rev_app_s. destruct (String.rev name) eqn:E; [|done].
    by apply rev_empty in E.
  - by apply app_nonempty.
Qed.

(** *** The bold tags *)

Lemma find_from_ge pat s i j : Str.find_from pat s i = Some j -> i <= j.
Proof.
  revert i. induction s as [|c s IH]; intros i; cbn [Str.find_from].
  - destruct (String.prefix pat ""); [|done]. intros [= <-]. lia.
  - destruct (String.prefix pat (String c s)); [intros [= <-]; lia|].
    intros H%IH. lia.
Qed.

Lemma trim_pat_keep s :
  stops (fun c => Str.eqc c "<") s = true -> trim_pat "<b>" s = s.
Proof.
  intros Hs. unfold trim_pat, Str.find.
  destruct s as [|c s]; [done|]. cbn [stops] in Hs.
  apply negb_true_iff, eqc_false in Hs.
  cbn [Str.find_from String.prefix].
  destruct (ascii_dec "<" c) as [<-|_]; [done|].
  destruct (Str.find_from "<b>" s 1) as [[|j]|] eqn:E; try done.
  apply find_from_ge in E. lia.
Qed.

Lemma trim_pat_strip s : trim_pat "<b>" ("<b>" +:+ s) = s.
Proof. by destruct s. Qed.

Lemma rfind_from_occ pat s i j :
  Str.rfind_from pat s i = Some j ->
  exists k, j = i + k /\ String.prefix pat (Str.substr k s) = true.
Proof.
  revert i. induction s as [|c s IH]; intros i; cbn [Str.rfind_from].
  - destruct (String.prefix pat "") eqn:E; [|done]. intros [= <-].
    exists 0. split; [lia|done].
  - destruct (Str.rfind_from pat s (S i)) as [j'|] eqn:E'.
    + intros [= <-]. destruct (IH _ E') as (k & -> & Hk).
      exists (S k). split; [lia|done].
    + destruct (String.prefix pat (String c s)) eqn:E; [|done]. intros [= <-].
      exists 0. split; [lia|done].
Qed.

Lemma prefix_inv pat s : String.prefix pat s = true -> exists u, s = pat +:+ u.
Proof.
  revert s. induction pat as [|c pat IH]; intros s; [by exists s|].
  destruct s as [|d s]; [done|]. cbn [String.prefix].
  destruct (ascii_dec c d) as [<-|_]; [|done].
  intros (u & ->)%IH. by exists u.
Qed.

Lemma substr_split k s : exists pre, s = pre +:+ Str.substr k s.
Proof.
  revert s. induction k as [|k IH]; intros s; [by exists ""|].
  destruct s as [|c s]; [by exists ""|].
  destruct (IH s) as (pre & H). exists (String c pre).
  rewrite app_cons. cbn [Str.substr]. by rewrite <- H.
Qed.

Lemma rtrim_pat_keep s :
  stops (fun c => Str.eqc c ">") (String.rev s) = true -> rtrim_pat "</b>" s = s.
Proof.
  intros Hs. unfold rtrim_pat, Str.rfind.
  destruct (Str.rfind_from "</b>" s 0) as [loc|] eqn:E; [|done].
  destruct (loc =? Str.size s - Str.size "</b>") eqn:El; [|done].
  exfalso. apply Nat.eqb_eq in El.
  apply rfind_from_occ in E as (k & Hk & [u Hu]%prefix_inv).
  cbn [Nat.add] in Hk. subst k.
  pose proof (length_substr loc s) as Hlen. rewrite Hu, length_app_s in Hlen.
  unfold Str.size in El. cbn [String.length] in El, Hlen.
  assert (u = "") as -> by (destruct u; [done|cbn in Hlen; lia]).
  destruct (substr_split loc s) as (pre & Hpre).
  rewrite Hu, app_empty_r in Hpre. rewrite Hpre, rev_app_s in Hs. done.
Qed.

Lemma rfind_from_tag w i :
  Str.rfind_from "</b>" (w +:+ "</b>") i = Some (i + String.length w).
Proof.
  revert i. induction w as [|c w IH]; intros i.
  - cbn. f_equal. lia.
  - rewrite app_cons. cbn [Str.rfind_from String.length]. rewrite IH. f_equal. lia.
Qed.

Lemma rtrim_pat_strip w : rtrim_pat "</b>" (w +:+ "</b>") = w.
Proof.
  unfold rtrim_pat, Str.rfind, Str.erase_back, Str.size.
  rewrite rfind_from_tag, length_app_s. cbn [String.length Nat.add].
  replace (String.length w + 4 - 4) with (String.length w) by lia.
  rewrite Nat.eqb_refl. apply substring_app.
Qed.

(** The first character of a string of layers followed by a bare name. *)
Lemma layered_stops p Ls x y :
  Forall (fun A => forall a, A a -> stops p a = true) Ls ->
  layered Ls x -> stops p y = true -> stops p (x +:+ y) = true.
Proof.
  intros HLs. revert x. induction HLs as [|B Bs HB _ IH]; intros x.
  - by intros ->.
  - intros (a & b & -> & Ha & Hb) Hy. rewrite app_assoc_s.
    apply stops_app; [by apply HB|by apply IH].
Qed.

Lemma cls_stops ch c a :
  trimmed ch c = false -> cls ch a -> stops (fun d => Str.eqc d c) a = true.
Proof.
  intros Hc Ha. destruct a as [|d a]; [done|]. cbn in *.
  apply andb_true_iff in Ha as [Hd _]. apply negb_true_iff, eqc_false.
  intros ->. congruence.
Qed.

Lemma unbold_front x name X :
  bare name = true -> layered [opt "<b>"; cls Str.dquote] x ->
  exists x', layered [cls Str.dquote] x' /\
    trim_pat "<b>" (x +:+ name +:+ X) = x' +:+ name +:+ X.
Proof.
  intros Hb (a & x' & -> & [-> | ->] & Hx'); exists x'; (split; [done|]).
  - rewrite app_empty_l. apply trim_pat_keep.
    apply (layered_stops _ [cls Str.dquote]); [|done|].
    + repeat constructor. intros a. by apply cls_stops.
    + destruct (bare_stops name "<" Hb eq_refl) as (Hn & Hs & _).
      apply stops_prefix; [done|].
      eapply stops_weaken; [|exact Hs]. intros c Hc. unfold trimmed. by rewrite Hc.
  - by rewrite app_assoc_s, trim_pat_strip.
Qed.

Lemma unbold_back y name P :
  bare name = true ->
  layered [opt ">b/<"; cls Str.dquote; cls "-"; cls ":"] y ->
  exists y', layered [cls Str.dquote; cls "-"; cls ":"] y' /\
    rtrim_pat "</b>" (P +:+ name +:+ String.rev y) = P +:+ name +:+ String.rev y'.
Proof.
  intros Hb (a & y' & -> & [-> | ->] & Hy'); exists y'; (split; [done|]).
  - rewrite app_empty_l. apply rtrim_pat_keep.
    rewrite !rev_app_s, rev_involutive_s, app_assoc_s.
    apply (layered_stops _ [cls Str.dquote; cls "-"; cls ":"]); [|done|].
    + repeat constructor; intros a; by apply cls_stops.
    + destruct (bare_stops name ">" Hb eq_refl) as (Hn & _ & Hs).
      apply stops_prefix; [by intros H%rev_empty|].
      eapply stops_weaken; [|exact Hs]. intros c Hc. unfold trimmed. by rewrite Hc.
  - rewrite rev_app_s. change (String.rev ">b/<") with "</b>".
    rewrite <- !app_assoc_s. rewrite rtrim_pat_strip. by rewrite !app_assoc_s.
Qed.

Lemma layered_nil_cls ch x : layered [cls ch] x -> Str.skip (trimmed ch) x = "".
Proof. intros H. by apply (peel ch []) in H. Qed.

Lemma trimExtras_nonempty line :
  line <> "" ->
  trimExtras line =
  rtrim ":" (rtrim "-" (rtrim Str.dquote (trim Str.dquote
    (rtrim_pat "</b>" (trim_pat "<b>"
       (rtrim "*" (trim "*" (rtrim "#" (trim "#" line))))))))).
Proof. by destruct line. Qed.

Lemma trimExtras_layered P Y name :
  bare name = true -> layered front_decoration P -> layered back_decoration Y ->
  trimExtras (P +:+ name +:+ String.rev Y) = name.
Proof.
  intros Hb HP HY.
  destruct (bare_stops name "#" Hb eq_refl) as (Hn & _ & _).
  rewrite trimExtras_nonempty by (apply app_nonempty; by destruct name).
  rewrite (trim_bare "#"), (rtrim_bare "#"), (trim_bare "*"), (rtrim_bare "*")
    by done.
  assert (layered [opt "<b>"; cls Str.dquote]
            (Str.skip (trimmed "*") (Str.skip (trimmed "#") P))) as HP2.
  { apply peel.
    { repeat (apply List.Forall_cons);
        [by apply opt_closed|apply cls_closed|apply List.Forall_nil]. }
    apply peel; [|exact HP].
    repeat (apply List.Forall_cons);
      [apply cls_closed|by apply opt_closed|apply cls_closed|apply List.Forall_nil]. }
  assert (layered [opt ">b/<"; cls Str.dquote; cls "-"; cls ":"]
            (Str.skip (trimmed "*") (Str.skip (trimmed "#") Y))) as HY2.
  { apply peel.
    { repeat (apply List.Forall_cons);
        [by apply opt_closed|apply cls_closed..|apply List.Forall_nil]. }
    apply peel; [|exact HY].
    repeat (apply List.Forall_cons);
      [apply cls_closed|by apply opt_closed|apply cls_closed..
      |apply List.Forall_nil]. }
  destruct (unbold_front _ name
              (String.rev (Str.skip (trimmed "*") (Str.skip (trimmed "#") Y)))
              Hb HP2) as (P3 & HP3 & ->).
  destruct (unbold_back _ name P3 Hb HY2) as (Y3 & HY3 & ->).
  rewrite (trim_bare Str.dquote), (rtrim_bare Str.dquote), (rtrim_bare "-"),
    (rtrim_bare ":") by done.
  rewrite (layered_nil_cls _ _ HP3).
  assert (Str.skip (trimmed ":")
            (Str.skip (trimmed "-") (Str.skip (trimmed Str.dquote) Y3)) = "") as ->.
  { apply layered_nil_cls, peel; [apply List.Forall_cons;
                                    [apply cls_closed|apply List.Forall_nil]|].
    apply peel; [|exact HY3].
    repeat (apply List.Forall_cons); [apply cls_closed..|apply List.Forall_nil]. }
  by rewrite app_empty_l, app_empty_r.
Qed.

End decorated.

(** X7. [trimExtras] restores a file name from a decorated caption: for a
    name whose first and last characters are no decoration, with heading
    marks, then emphasis marks, then the opening bold tag, then quotes in
    front of it, and behind it colons, then dashes, then quotes, then the
    closing bold tag, then emphasis marks, then heading marks, each run
    possibly empty and possibly with white space in it, the result is the
    name. The order matters: each kind is stripped once, from the outside
    in. *)
Theorem trimExtras_decorated name h s q c d q' s' h' (b b' : bool) :
  bare name = true ->
  cls "#" h -> cls "*" s -> cls Str.dquote q ->
  cls ":" c -> cls "-" d -> cls Str.dquote q' -> cls "*" s' -> cls "#" h' ->
  trimExtras
    (h +:+ s +:+ tagged b "<b>" +:+ q +:+ name +:+
     c +:+ d +:+ q' +:+ tagged b' "</b>" +:+ s' +:+ h') = name.
Proof.
  intros Hb Hh Hs Hq Hc Hd Hq' Hs' Hh'.
  set (Y := String.rev (c +:+ d +:+ q' +:+ tagged b' "</b>" +:+ s' +:+ h')).
  replace (h +:+ s +:+ tagged b "<b>" +:+ q +:+ name +:+
           c +:+ d +:+ q' +:+ tagged b' "</b>" +:+ s' +:+ h')
    with ((h +:+ s +:+ tagged b "<b>" +:+ q +:+ "") +:+ name +:+ String.rev Y).
  2:{ subst Y. by rewrite rev_involutive_s, app_empty_r, !app_assoc_s. }
  apply trimExtras_layered; [done| |].
  - exists h, (s +:+ tagged b "<b>" +:+ q +:+ ""). repeat split; try done.
    exists s, (tagged b "<b>" +:+ q +:+ ""). repeat split; try done.
    exists (tagged b "<b>"), (q +:+ ""). repeat split; try done.
    { destruct b; [by right|by left]. }
    by exists q, "".
  - subst Y. rewrite !rev_app_s, !app_assoc_s.
    rewrite <- (app_empty_r (String.rev c)).
    exists (String.rev h'), (String.rev s' +:+ String.rev (tagged b' "</b>") +:+
       String.rev q' +:+ String.rev d +:+ String.rev c +:+ "").
    split; [done|]. split; [unfold cls; by rewrite all_chars_rev|].
    exists (String.rev s'), (String.rev (tagged b' "</b>") +:+
       String.rev q' +:+ String.rev d +:+ String.rev c +:+ "").
    split; [done|]. split; [unfold cls; by rewrite all_chars_rev|].
    exists (String.rev (tagged b' "</b>")),
      (String.rev q' +:+ String.rev d +:+ String.rev c +:+ "").
    split; [done|]. split; [destruct b'; [by right|by left]|].
    exists (String.rev q'), (String.rev d +:+ String.rev c +:+ "").
    split; [done|]. split; [unfold cls; by rewrite all_chars_rev|].
    exists (String.rev d), (String.rev c +:+ "").
    split; [done|]. split; [unfold cls; by rewrite all_chars_rev|].
    exists (String.rev c), "".
    split; [done|]. split; [unfold cls; by rewrite all_chars_rev|done].
Qed.

Lemma trimExtras_decorated_witness :
  trimExtras "### **main.cpp:**" = "main.cpp" /\
  trimExtras ("<b>" +:+ dq +:+ "util.h" +:+ dq +:+ "</b>") = "util.h".
Proof.
  split.
  - apply (trimExtras_decorated "main.cpp" "### " "**" "" ":" "" "" "**" "" false false);
      reflexivity.
  - apply (trimExtras_decorated "util.h" "" "" dq "" "" dq "" "" true true);
      reflexivity.
Defined.

(** ** Reading the document *)

Section reading.
Implicit Types (cur l rest text last : string) (ls : list string).

Lemma getlines_go_line cur l rest :
  Str.mem Str.lf l = false ->
  getlines_go cur (l +:+ nl +:+ rest) = (String.rev cur +:+ l) :: getlines_go "" rest.
Proof.
  revert cur. induction l as [|c l IH]; intros cur Hl.
  - by rewrite app_empty_r.
  - cbn [Str.mem] in Hl. apply orb_false_iff in Hl as [Hc Hl].
    rewrite app_cons. cbn [getlines_go]. rewrite Hc, IH by done.
    by rewrite rev_cons, app_assoc_s.
Qed.

Lemma getlines_go_last cur l :
  Str.mem Str.lf l = false ->
  getlines_go cur l =
  if bool_decide (String.rev cur +:+ l = "") then [] else [String.rev cur +:+ l].
Proof.
  revert cur. induction l as [|c l IH]; intros cur Hl.
  - rewrite app_empty_r. cbn [getlines_go]. destruct cur as [|c cur]; [done|].
    rewrite bool_decide_eq_false_2; [done|].
    rewrite rev_cons. by apply app_nonempty.
  - cbn [Str.mem] in Hl. apply orb_false_iff in Hl as [Hc Hl].
    cbn [getlines_go]. rewrite Hc, IH by done.
    by rewrite rev_cons, app_assoc_s.
Qed.

End reading.

(** X8. Reading back what was written: a text made of lines, each followed
    by a line feed as [emitVerbatim] writes them, and of a last piece
    without one, is read by the [getline] loop as those lines, followed by
    the last piece when it is not empty. No line holds a line feed. *)
Theorem getlines_unlines ls last :
  Forall (fun l => Str.mem Str.lf l = false) ls -> Str.mem Str.lf last = false ->
  getlines (unlines ls +:+ last) =
  ls ++ (if bool_decide (last = "") then [] else [last]).
Proof.
  intros Hls Hlast. unfold getlines.
  induction Hls as [|l ls Hl _ IH].
  - unfold unlines. cbn [fmap list_fmap catl fold_right].
    rewrite app_empty_l. by rewrite getlines_go_last.
  - unfold unlines in *. cbn [fmap list_fmap catl fold_right].
    rewrite !app_assoc_s, getlines_go_line by done.
    cbn [String.rev String.rev_app]. rewrite app_empty_l.
    cbn [app]. f_equal. exact IH.
Qed.

Lemma getlines_unlines_witness :
  getlines (unlines ["a.cpp"; "```"; "int x;"] +:+ "```") =
  ["a.cpp"; "```"; "int x;"; "```"].
Proof.
  apply (getlines_unlines ["a.cpp"; "```"; "int x;"] "```"); [|reflexivity].
  repeat constructor.
Defined.

(** ** The constructor *)

Lemma substring_substr n f :
  n <= String.length f -> String.substring 0 n f +:+ Str.substr n f = f.
Proof.
  revert f. induction n as [|n IH]; intros f Hn.
  - by destruct f.
  - destruct f as [|c f]; [cbn in Hn; lia|].
    cbn [String.substring Str.substr]. rewrite app_cons, IH; [done|].
    cbn in Hn. lia.
Qed.

Lemma rfind_from_le pat s i j :
  Str.rfind_from pat s i = Some j -> j <= i + String.length s.
Proof.
  revert i. induction s as [|c s IH]; intros i; cbn [Str.rfind_from String.length].
  - destruct (String.prefix pat ""); [|done]. intros [= <-]. lia.
  - destruct (Str.rfind_from pat s (S i)) as [j'|] eqn:E.
    + intros [= <-]. apply IH in E. lia.
    + destruct (String.prefix pat (String c s)); [|done]. intros [= <-]. lia.
Qed.

(** The file name is its stem followed by its extension. *)
Lemma stem_extension p : Path.filename p = Path.stem p +:+ Path.extension p.
Proof.
  unfold Path.stem, Path.extension.
  destruct (Path.filename p) as [|c f] eqn:Ef; [done|].
  destruct ((Str.size (String c f) <=? 2) && Str.eqc c ".").
  { cbn [Str.size String.length Nat.sub]. rewrite app_empty_r.
    rewrite <- (app_empty_r (String c f)) at 2.
    change (S (String.length f)) with (String.length (String c f)).
    by rewrite substring_app. }
  destruct (Str.rfind "." (String c f)) as [[|pos]|] eqn:Er.
  - cbn [Str.size String.length Nat.sub]. rewrite app_empty_r.
    rewrite <- (app_empty_r (String c f)) at 2.
    change (S (String.length f)) with (String.length (String c f)).
    by rewrite substring_app.
  - apply rfind_from_le in Er. cbn [Nat.add] in Er.
    unfold Str.size. rewrite length_substr.
    replace (String.length (String c f) - (String.length (String c f) - S pos))
      with (S pos) by lia.
    by rewrite substring_substr.
  - cbn [Str.size String.length Nat.sub]. rewrite app_empty_r.
    rewrite <- (app_empty_r (String c f)) at 2.
    change (S (String.length f)) with (String.length (String c f)).
    by rewrite substring_app.
Qed.

(** X9. When the constructor succeeds the object is well formed: the
    project name is the file name of the document without its [.md], it is
    not empty and has no separator in it, so a document named just [.md]
    is refused; the sources directory is [src] below the project name; and
    the document path exists in the filesystem. It is a regular file, whose
    lines are the input, or it is a directory, which the stream opens
    without an error: then there is no input, and [createProject] returns
    [false] and leaves the filesystem as it is. Nothing has been extracted
    yet. *)
Theorem constructor_well_formed md fs s :
  AutoProject_open md fs = inr s ->
  Path.filename md = projname s +:+ mdextension /\
  plain (projname s) = true /\
  srcdir s = projname s +:+ "/src" /\
  exists doc,
    s = AutoProject md (projname s) doc fs /\
    ((exists text, fs !! md = Some (File text) /\ doc = getlines text) \/
     (fs !! md = Some Dir /\ doc = [] /\
      forall ow, exists s',
        createProject ow s = Ret false s' /\ disk s' = fs /\ srcnames s' = ∅)).
Proof.
  intros H.
  pose proof (AutoProject_open_spec md fs s H) as (Hp & Hs & doc & -> & Hdoc).
  cbn [projname AutoProject] in *.
  split.
  { unfold AutoProject_open in H.
    destruct (bool_decide (Path.extension md = mdextension)) eqn:E; [|done].
    apply bool_decide_eq_true in E. by rewrite stem_extension, E. }
  split; [done|]. split; [done|].
  exists doc. split; [done|].
  destruct Hdoc as [Hfile|[Hdir ->]]; [by left|right].
  split; [done|]. split; [done|]. intros ow.
  rewrite quiet_document by done. eauto.
Qed.

Lemma constructor_well_formed_witness :
  let fs : gmap string node := {[ "notes/demo.md" := File "x" ]} in
  let s := AutoProject "notes/demo.md" "demo" ["x"] fs in
  Path.filename "notes/demo.md" = projname s +:+ mdextension /\
  plain (projname s) = true.
Proof.
  intros fs s.
  destruct (constructor_well_formed "notes/demo.md" fs s) as (H1 & H2 & _);
    [vm_compute; reflexivity|].
  split; assumption.
Defined.

(** ** The rule table *)

Section rule_table.
Implicit Types (r : Regex.t) (w s t line pre post : string) (c : ascii).

Lemma match_prefix_app r s t :
  Regex.match_prefix r s = true -> Regex.match_prefix r (s +:+ t) = true.
Proof.
  revert r. induction s as [|c s IH]; intros r.
  - cbn [Regex.match_prefix]. rewrite orb_false_r. intros H.
    rewrite app_empty_l. destruct t; cbn [Regex.match_prefix]; by rewrite H.
  - rewrite app_cons. cbn [Regex.match_prefix].
    intros [H|H]%orb_true_iff; apply orb_true_iff; [by left|right; by apply IH].
Qed.

Lemma regex_search_post r s post :
  Regex.regex_search s r = true -> Regex.regex_search (s +:+ post) r = true.
Proof.
  induction s as [|c s IH].
  - cbn [Regex.regex_search]. rewrite orb_false_r. intros H.
    rewrite app_empty_l. destruct post; cbn [Regex.regex_search].
    + by rewrite H.
    + apply orb_true_iff. left. by apply (match_prefix_app r "").
  - rewrite app_cons. cbn [Regex.regex_search].
    intros [H|H]%orb_true_iff; apply orb_true_iff.
    + left. by apply (match_prefix_app r (String c s)).
    + right. by apply IH.
Qed.

Lemma regex_search_app r pre s post :
  Regex.regex_search s r = true ->
  Regex.regex_search (pre +:+ s +:+ post) r = true.
Proof.
  intros H. induction pre as [|c pre IH].
  - rewrite app_empty_l. by apply regex_search_post.
  - rewrite app_cons. cbn [Regex.regex_search]. rewrite IH. apply orb_true_r.
Qed.

Lemma nullable_lang r : Regex.nullable r = true -> lang r "".
Proof.
  induction r as [| |d| | |r1 IH1 r2 IH2|r1 IH1 r2 IH2|r1 IH1];
    cbn [Regex.nullable]; try done.
  - intros _. constructor.
  - intros [H1 H2]%andb_true_iff. change "" with ("" +:+ "").
    constructor; auto.
  - intros [H|H]%orb_true_iff; [apply lang_alt_l|apply lang_alt_r]; auto.
  - intros _. constructor.
Qed.

Lemma lang_eps_inv w : lang Regex.Eps w -> w = "".
Proof. by inversion 1. Qed.

Lemma deriv_lang c r w : lang (Regex.deriv c r) w -> lang r (String c w).
Proof.
  revert w. induction r as [| |d| | |r1 IH1 r2 IH2|r1 IH1 r2 IH2|r1 IH1];
    intros w; cbn [Regex.deriv].
  - inversion 1.
  - inversion 1.
  - destruct (Str.eqc c d) eqn:E; [|inversion 1].
    apply eqc_true in E as ->. intros ->%lang_eps_inv. constructor.
  - destruct (Str.eqc c Str.lf || Str.eqc c Str.cr) eqn:E; [inversion 1|].
    intros ->%lang_eps_inv. by constructor.
  - destruct (Str.isspace c) eqn:E; [|inversion 1].
    intros ->%lang_eps_inv. by constructor.
  - destruct (Regex.nullable r1) eqn:E.
    + inversion 1 as [| | | | |? ? ? H1|? ? ? H2| |]; subst.
      * inversion H1 as [| | | |? ? w1 w2 Ha Hb| | | |]; subst.
        rewrite <- app_cons. constructor; auto.
      * change (String c w) with ("" +:+ String c w).
        constructor; [by apply nullable_lang|auto].
    + inversion 1 as [| | | |? ? w1 w2 Ha Hb| | | |]; subst.
      rewrite <- app_cons. constructor; auto.
  - inversion 1; subst; [apply lang_alt_l|apply lang_alt_r]; auto.
  - inversion 1 as [| | | |? ? w1 w2 Ha Hb| | | |]; subst.
    rewrite <- app_cons. constructor; auto.
Qed.

Lemma match_prefix_sound r s :
  Regex.match_prefix r s = true -> exists w t, s = w +:+ t /\ lang r w.
Proof.
  revert r. induction s as [|c s IH]; intros r; cbn [Regex.match_prefix].
  - rewrite orb_false_r. intros H%nullable_lang. by exists "", "".
  - intros [H%nullable_lang|H]%orb_true_iff; [by exists "", (String c s)|].
    apply IH in H as (w & t & -> & Hw). exists (String c w), t.
    split; [done|by apply deriv_lang].
Qed.

Lemma regex_search_sound r s :
  Regex.regex_search s r = true -> exists a w b, s = a +:+ w +:+ b /\ lang r w.
Proof.
  induction s as [|c s IH]; cbn [Regex.regex_search].
  - rewrite orb_false_r. intros (w & t & H & Hw)%match_prefix_sound.
    by exists "", w, t.
  - intros [(w & t & H & Hw)%match_prefix_sound|H]%orb_true_iff.
    + by exists "", w, t.
    + apply IH in H as (a & w & b & -> & Hw). by exists (String c a), w, b.
Qed.

Lemma lang_text lit w :
  Str.mem "." lit = false -> lang (Regex.text lit) w -> w = lit.
Proof.
  revert w. induction lit as [|c lit IH]; intros w Hm; cbn [Regex.text].
  - apply lang_eps_inv.
  - cbn [Str.mem] in Hm. apply orb_false_iff in Hm as [Hc Hm]. rewrite Hc.
    inversion 1 as [| | | |? ? w1 w2 Ha Hb| | | |]; subst.
    inversion Ha; subst. rewrite app_cons, app_empty_l. f_equal. by apply IH.
Qed.

Lemma lang_include r w :
  lang (Regex.include r) w -> exists a b, w = a +:+ "#include" +:+ b.
Proof.
  unfold Regex.include.
  inversion 1 as [| | | |? ? w1 w2 Ha Hb| | | |]; subst.
  inversion Hb as [| | | |? ? w3 w4 Hc Hd| | | |]; subst.
  apply (lang_text "#include") in Hc as ->; [|done]. by exists w1, w4.
Qed.

Lemma prefix_app pat b : String.prefix pat (pat +:+ b) = true.
Proof.
  induction pat as [|c pat IH]; [by destruct b|].
  rewrite app_cons. cbn [String.prefix]. by destruct (ascii_dec c c).
Qed.

Lemma find_from_occ pat a b i :
  Str.find_from pat (a +:+ pat +:+ b) i <> None.
Proof.
  revert i. induction a as [|c a IH]; intros i.
  - rewrite app_empty_l.
    destruct (pat +:+ b) eqn:E; cbn [Str.find_from]; rewrite <- E, prefix_app; done.
  - rewrite app_cons. cbn [Str.find_from].
    destruct (String.prefix pat _); [done|apply IH].
Qed.

Lemma rules_include :
  Forall (fun rule => exists r, Rule.re rule = Regex.include r) rules.
Proof.
  unfold rules.
  repeat (apply List.Forall_cons; [eexists; reflexivity|]). apply List.Forall_nil.
Qed.

Lemma fold_applyRule_none line (rs : list Rule.t) (s : state) :
  Forall (fun rule => Regex.regex_search line (Rule.re rule) = false) rs ->
  fold_left (applyRule line) rs s = s.
Proof.
  induction 1 as [|rule rs H _ IH]; [done|].
  cbn [fold_left]. unfold applyRule at 2. by rewrite H.
Qed.

Lemma union_comm3 (A B C : gset string) : A ∪ (B ∪ C) = B ∪ (A ∪ C).
Proof. by rewrite !(assoc_L (∪)), (comm_L (∪) A B). Qed.

Lemma union_idem3 (A C : gset string) : A ∪ (A ∪ C) = A ∪ C.
Proof. by rewrite (assoc_L (∪)), (idemp_L (∪)). Qed.

End rule_table.

(** X10. A line in which the text [#include] does not occur matches no
    rule: [checkRules] leaves the object as it is, so only include lines
    add build snippets and libraries. *)
Theorem rules_need_include line s :
  Str.find "#include" line = None -> checkRules line s = s.
Proof.
  intros Hfind. unfold checkRules. apply fold_applyRule_none.
  eapply Forall_impl; [apply rules_include|]. cbn beta.
  intros rule [r Hr]. rewrite Hr.
  destruct (Regex.regex_search line (Regex.include r)) eqn:E; [|done].
  apply regex_search_sound in E as (a & w & b & -> & Hw).
  apply lang_include in Hw as (a' & b' & ->).
  exfalso. revert Hfind. unfold Str.find.
  rewrite !app_assoc_s, <- (app_assoc_s a a'). apply find_from_occ.
Qed.

Lemma rules_need_include_witness :
  checkRules "std::thread t; // uses <thread>" (AutoProject "doc.md" "doc" [] ∅) =
  AutoProject "doc.md" "doc" [] ∅.
Proof. apply rules_need_include. reflexivity. Defined.

(** X11. The rules are searched for anywhere in the line: what a line adds
    is also added by every line that contains it, whatever stands before
    or after, a comment mark for instance. *)
Theorem rules_fire_in_context pre line post s :
  extraRules (checkRules line s) ⊆ extraRules (checkRules (pre +:+ line +:+ post) s) /\
  libraries (checkRules line s) ⊆ libraries (checkRules (pre +:+ line +:+ post) s).
Proof.
  unfold checkRules. rewrite !fold_applyRule.
  destruct s as [md pn sd inp E L N prev i dl ff sf sfn d].
  cbv beta iota zeta delta
    [set_libraries set_extraRules mdfile projname srcdir input extraRules libraries
     srcnames prevline inIndentedFile inDelimitedFile firstFile srcfile srcfilename
     disk].
  assert (forall rule, rule ∈ List.filter
              (fun r => Regex.regex_search line (Rule.re r)) rules ->
            rule ∈ List.filter
              (fun r => Regex.regex_search (pre +:+ line +:+ post) (Rule.re r)) rules)
    as Hin.
  { intros rule [H1 H2]%list_elem_of_In%filter_In.
    apply list_elem_of_In, filter_In. split; [done|]. by apply regex_search_app. }
  split; apply union_mono_r; intros x [rule [-> Hr]]%elem_of_list_to_set%list_elem_of_fmap;
    apply elem_of_list_to_set, list_elem_of_fmap; exists rule; auto.
Qed.

(** X12. The order in which lines are checked against the rules does not
    matter, and checking a line again adds nothing: [checkRules] commutes
    with itself and is idempotent. *)
Theorem checkRules_commutes l1 l2 s :
  checkRules l1 (checkRules l2 s) = checkRules l2 (checkRules l1 s) /\
  checkRules l1 (checkRules l1 s) = checkRules l1 s.
Proof.
  rewrite !checkRules_eq.
  destruct s as [md pn sd inp E L N prev i dl ff sf sfn d].
  cbv beta iota zeta delta
    [set_libraries set_extraRules mdfile projname srcdir input extraRules libraries
     srcnames prevline inIndentedFile inDelimitedFile firstFile srcfile srcfilename
     disk]. split.
  - f_equal; apply union_comm3.
  - f_equal; apply union_idem3.
Qed.

(** ** What a run leaves in place *)

Section kept.
Implicit Types (d : gmap string node) (p q txt c : string) (s : state).

Lemma keeps_refl d : keeps_dirs d d.
Proof. by intros q. Qed.

Lemma keeps_trans d1 d2 d3 : keeps_dirs d1 d2 -> keeps_dirs d2 d3 -> keeps_dirs d1 d3.
Proof. intros H1 H2 q Hq. by apply H2, H1. Qed.

Lemma can_open_not_dir d p : Fs.can_open d p = true -> d !! p <> Some Dir.
Proof.
  unfold Fs.can_open, Fs.is_directory. intros [_ H]%andb_true_iff Hp.
  by rewrite Hp in H.
Qed.

Lemma keeps_append d d' p txt : keeps_dirs d d' -> keeps_dirs d (Fs.append p txt d').
Proof.
  intros H q Hq%H. unfold Fs.append.
  destruct (decide (p = q)) as [->|Hne].
  - by rewrite lookup_alter_eq, Hq.
  - by rewrite lookup_alter_ne.
Qed.

Lemma keeps_insert d d' p c :
  keeps_dirs d d' -> Fs.can_open d' p = true -> keeps_dirs d (<[p := File c]> d').
Proof.
  intros H Hp%can_open_not_dir q Hq%H.
  rewrite lookup_insert_ne; [done|congruence].
Qed.

Lemma keeps_write_file d d' p txt :
  keeps_dirs d d' -> keeps_dirs d (Fs.write_file p txt d').
Proof.
  intros H. unfold Fs.write_file. destruct (Fs.can_open d' p) eqn:E; [|done].
  by apply keeps_insert.
Qed.

Lemma mkdirs_keeps ds b d d' r : Fs.mkdirs ds b d = (d', r) -> keeps_dirs d d'.
Proof. intros H q. by eapply mkdirs_keeps_dir. Qed.

(** [makeTree] changes nothing but the filesystem, where it removes no
    path and replaces no directory. *)
Lemma makeTree_keeps ow s :
  exists d', grows (disk s) d' /\ keeps_dirs (disk s) d' /\
    (makeTree ow s = Ret tt (set_disk d' s)
     \/ exists e, makeTree ow s = Throw e (set_disk d' s)).
Proof.
  destruct s as [md pn sd inp E L N prev i dl ff sf sfn d].
  unfold makeTree, create_directories.
  cbv beta iota zeta delta
    [mbind M_bind mret M_ret get modify throw set_disk
     mdfile projname srcdir input extraRules libraries srcnames prevline
     inIndentedFile inDelimitedFile firstFile srcfile srcfilename disk].
  destruct (Fs.exists_ d pn && negb ow) eqn:Hex.
  { exists d. split; [apply grows_refl|]. split; [apply keeps_refl|right; eauto]. }
  destruct (Fs.create_directories sd d) as [d1 r1] eqn:E1.
  pose proof (mkdirs_grows _ _ _ _ _ E1) as G1.
  pose proof (mkdirs_keeps _ _ _ _ _ E1) as K1.
  destruct r1 as [[]|]; cbv beta iota zeta delta [negb];
    [|exists d1; split; [done|split; [done|right; eauto]]..].
  destruct (Fs.create_directories (pn +:+ "/build") d1) as [d2 r2] eqn:E2.
  pose proof (mkdirs_grows _ _ _ _ _ E2) as G2.
  pose proof (mkdirs_keeps _ _ _ _ _ E2) as K2.
  exists d2. split; [by eapply grows_trans|]. split; [by eapply keeps_trans|].
  destruct r2 as [b|]; [left|right]; eauto.
Qed.

End kept.

Ltac tree_keeps ow s :=
  let Ht := fresh "Htree" in
  destruct (makeTree_keeps ow s) as (? & ? & ? & [Ht | (? & Ht)]);
  rewrite Ht; clear Ht.

Ltac kept :=
  repeat first
    [ assumption
    | apply keeps_refl
    | apply keeps_append
    | apply keeps_insert; [|assumption] ].

Section kept_by_steps.
Implicit Types (s : state) (raw : string) (lines : list string).

Lemma step_keeps ow raw s : keeps_dirs (disk s) (disk (final (step ow raw s))).
Proof.
  open_state s. abstract_step P.
  destruct i, dl, sp as [p|].
  all: step_split tree_keeps; subst P; cbv beta; close_state.
  all: kept.
Qed.

Lemma scan_keeps ow lines s : keeps_dirs (disk s) (disk (final (scan ow lines s))).
Proof.
  apply (scan_preserves (fun s' => keeps_dirs (disk s) (disk s'))).
  - intros raw s1 H1. eapply keeps_trans; [exact H1|apply step_keeps].
  - apply keeps_refl.
Qed.

Lemma scan_grows ow lines s : grows (disk s) (disk (final (scan ow lines s))).
Proof.
  apply (scan_preserves (fun s' => grows (disk s) (disk s'))).
  - intros raw s1 H1. eapply grows_trans; [exact H1|apply step_grows].
  - apply grows_refl.
Qed.

Lemma finish_keeps s : keeps_dirs (disk s) (disk (final (finish s))).
Proof.
  destruct s as [md pn sd inp E L N prev i dl ff sf sfn d].
  unfold finish, writeSrcLevel, writeTopLevel, copy_file.
  cbv beta iota zeta delta
    [mbind M_bind mret M_ret get modify throw set_input set_disk
     mdfile projname srcdir input extraRules libraries srcnames prevline
     inIndentedFile inDelimitedFile firstFile srcfile srcfilename disk].
  destruct (bool_decide (N = ∅)); cbv beta iota zeta delta [negb];
    [apply keeps_refl|].
  set (d1 := Fs.write_file _ _ d).
  set (d2 := Fs.write_file _ _ d1).
  assert (keeps_dirs d d2) as K by (do 2 apply keeps_write_file; apply keeps_refl).
  destruct (d2 !! md) as [[|c]|]; [done| |done].
  destruct (d2 !! _) eqn:E2; [done|].
  destruct (Fs.dir_exists d2 _); cbn [final disk]; [|done].
  intros q Hq%K. rewrite lookup_insert_ne; [done|congruence].
Qed.

(** Once the first block has been attempted, no line makes the scanner
    throw. *)
Lemma step_returns ow raw s :
  firstFile s = false ->
  exists s', step ow raw s = Ret tt s' /\ firstFile s' = false.
Proof.
  intros Hff. open_state s. subst ff. abstract_step P.
  destruct i, dl, sp as [p|].
  all: step_split tree_keeps; subst P; cbv beta.
  all: eexists; split; [reflexivity|done].
Qed.

End kept_by_steps.

(** X13. Whatever its outcome, [createProject] removes no path from the
    filesystem and replaces no directory by a file: every path that was
    there is there afterwards, and every directory is still a directory.
    Regular files may be truncated and rewritten. *)
Theorem createProject_keeps ow s :
  grows (disk s) (disk (final (createProject ow s))) /\
  keeps_dirs (disk s) (disk (final (createProject ow s))).
Proof.
  rewrite createProject_run.
  pose proof (scan_grows ow (input s) (init_locals s)) as G.
  pose proof (scan_keeps ow (input s) (init_locals s)) as K.
  destruct (scan ow (input s) (init_locals s)) as [[] s1|e s1]; cbn [final] in *.
  - destruct (finish_frame s1) as (_ & _ & _ & _ & G1).
    pose proof (finish_keeps s1) as K1.
    split; [eapply grows_trans|eapply keeps_trans]; try eassumption.
    all: by destruct s.
  - split; [|done]. by destruct s.
Qed.

(** X14. The scanner can throw only at the first attempt to open a block:
    from a state in which [firstFile] is off, the scan of any lines
    returns. A block whose file cannot be opened is passed over. *)
Theorem scan_returns ow lines s :
  firstFile s = false ->
  exists s', scan ow lines s = Ret tt s' /\ firstFile s' = false.
Proof.
  revert s. induction lines as [|raw lines IH]; intros s Hff.
  - exists s. by rewrite scan_nil.
  - rewrite scan_cons.
    destruct (step_returns ow raw s Hff) as (s1 & -> & H1). by apply IH.
Qed.

Lemma scan_returns_witness :
  exists s',
    scan true ["x.cpp"; "```"; "int x;"]
      (set_firstFile false (AutoProject "doc.md" "doc" [] ∅)) = Ret tt s' /\
    firstFile s' = false.
Proof. apply (scan_returns true). reflexivity. Defined.

(** ** Projects that exist already, with [overwrite] on *)

Section existing_tree.
Implicit Types (doc pre post : list string) (fs d : gmap string node) (s : state).

Lemma keep_dir_insert d p c q :
  Fs.can_open d p = true -> d !! q = Some Dir -> <[p := File c]> d !! q = Some Dir.
Proof. intros Hp Hq. by apply (keeps_insert d d p c (keeps_refl d) Hp). Qed.

Lemma keep_dir_append d p txt q :
  d !! q = Some Dir -> Fs.append p txt d !! q = Some Dir.
Proof. intros Hq. by apply (keeps_append d d p txt (keeps_refl d)). Qed.

(** [create_directories] answers [false] for a directory that is there,
    and [makeTree] takes that for a failure. *)
Lemma makeTree_existing s :
  plain (projname s) = true -> srcdir s = projname s +:+ "/src" ->
  disk s !! projname s = Some Dir -> disk s !! srcdir s = Some Dir ->
  makeTree true s = Throw CannotCreateDirectory s.
Proof.
  destruct s as [md pn sd inp E L N prev i dl ff sf sfn d].
  cbn [projname srcdir disk]. intros Hp -> H1 H2.
  unfold makeTree, create_directories.
  cbv beta iota zeta delta
    [mbind M_bind mret M_ret get modify throw set_disk
     mdfile projname srcdir input extraRules libraries srcnames prevline
     inIndentedFile inDelimitedFile firstFile srcfile srcfilename disk].
  rewrite andb_false_r. unfold Fs.create_directories.
  change (pn +:+ "/src") with (pn +:+ "/" +:+ "src") in *.
  rewrite prefixes_join by done. cbn [Fs.mkdirs]. by rewrite H1, H2.
Qed.

Lemma step_opener_refused raw md pn inp E L N prev fl sfn d :
  plain pn = true -> d !! pn = Some Dir -> d !! (pn +:+ "/src") = Some Dir ->
  opens_block raw = true ->
  exists s',
    step true raw
      (mkState md pn (pn +:+ "/src") inp E L N prev false false true
         (Ofstream.mk None fl) sfn d)
    = Throw CannotCreateDirectory s' /\
    disk s' = d /\ srcnames s' = N /\ Ofstream.path (srcfile s') = None.
Proof.
  intros Hp H1 H2 Hopen. unfold opens_block in Hopen. exec.
  destruct (isDelimited (replaceLeadingTabs raw)) eqn:Hd.
  - rewrite makeTree_existing by done. eauto.
  - cbn [orb] in Hopen. rewrite Hopen.
    destruct (isSourceFilename prev).
    + rewrite makeTree_existing by done. eauto.
    + rewrite (nonEmptyIndented_nonempty _ Hopen).
      rewrite makeTree_existing by done. eauto.
Qed.

(** Once the first block has been attempted the project root and the
    sources directory are directories. *)
Lemma step_rooted_dirs ow raw s s' :
  plain (projname s) = true -> srcdir s = projname s +:+ "/src" ->
  (firstFile s = false ->
   disk s !! projname s = Some Dir /\ disk s !! srcdir s = Some Dir) ->
  step ow raw s = Ret tt s' ->
  (firstFile s' = false ->
   disk s' !! projname s' = Some Dir /\ disk s' !! srcdir s' = Some Dir).
Proof.
  intros Hp Hsrc Hroot. open_state s. subst sd.
  revert s'. abstract_step P.
  destruct i, dl, sp as [p|], ff.
  all: step_split tree_outcome; subst P; cbv beta; intros s' Hs';
    try discriminate; injection Hs' as <-; close_state.
  all: intros Hf; try discriminate Hf.
  all: try (destruct (Hroot eq_refl) as [? ?]).
  all: split;
    repeat first
      [ assumption
      | apply keep_dir_append
      | apply keep_dir_insert; [assumption|] ].
Qed.

Lemma scan_rooted_dirs ow lines s s' :
  plain (projname s) = true -> srcdir s = projname s +:+ "/src" ->
  (firstFile s = false ->
   disk s !! projname s = Some Dir /\ disk s !! srcdir s = Some Dir) ->
  scan ow lines s = Ret tt s' ->
  (firstFile s' = false ->
   disk s' !! projname s' = Some Dir /\ disk s' !! srcdir s' = Some Dir).
Proof.
  revert s. induction lines as [|raw lines IH]; intros s Hp Hsrc H1 Hscan.
  - rewrite scan_nil in Hscan. by injection Hscan as <-.
  - rewrite scan_cons in Hscan.
    destruct (step_constants ow raw s) as (_ & C1 & C2 & _).
    destruct (step ow raw s) as [[] s1|e s1] eqn:Hstep; [|done].
    cbn [final] in *.
    pose proof (step_rooted_dirs ow raw s s1 Hp Hsrc H1 Hstep) as G1.
    eapply (IH s1); try done; congruence.
Qed.

End existing_tree.

(** X15. With [overwrite] on, a project whose sources directory exists
    cannot be extracted into: [create_directories] answers [false] for a
    directory that is there, [makeTree] takes that for a failure, and
    [createProject] throws the cannot-create-directory error at the first
    line that opens a block, with the filesystem as it was. So a run that
    succeeded is followed, on the same document with [overwrite] on, by a
    run that throws and leaves the output of the first as it is. *)
Theorem overwrite_refused ow md stem doc fs :
  plain stem = true ->
  (quiet doc = false ->
   fs !! stem = Some Dir -> fs !! (stem +:+ "/src") = Some Dir ->
   exists s',
     createProject true (AutoProject md stem doc fs) =
       Throw CannotCreateDirectory s' /\
     disk s' = fs /\ srcnames s' = ∅ /\ Ofstream.path (srcfile s') = None) /\
  (forall s1,
     createProject ow (AutoProject md stem doc fs) = Ret true s1 ->
     exists s2,
       createProject true (AutoProject md stem doc (disk s1)) =
         Throw CannotCreateDirectory s2 /\
       disk s2 = disk s1).
Proof.
  intros Hp.
  assert (forall fs', quiet doc = false ->
    fs' !! stem = Some Dir -> fs' !! (stem +:+ "/src") = Some Dir ->
    exists s',
      createProject true (AutoProject md stem doc fs') =
        Throw CannotCreateDirectory s' /\
      disk s' = fs' /\ srcnames s' = ∅ /\ Ofstream.path (srcfile s') = None)
    as Hthrow.
  { intros fs' (pre & raw & post & -> & Hq & Hr)%first_opener H1 H2.
    rewrite createProject_eq, scan_app, scan_quiet by done.
    rewrite scan_cons.
    destruct (step_opener_refused raw md stem (pre ++ raw :: post) ∅ ∅ ∅
                (caption_after "" pre) false "" fs' Hp H1 H2 Hr)
      as (s' & -> & H). eauto. }
  split; [apply Hthrow|].
  intros s1 Hrun.
  destruct (quiet doc) eqn:Hq.
  { rewrite quiet_document in Hrun by done. done. }
  rewrite createProject_eq in Hrun.
  destruct (scan ow doc _) as [[] s0|e s0] eqn:Hscan; [|done].
  pose proof (finish_result _ _ _ Hrun) as Hb.
  symmetry in Hb. apply negb_true_iff, bool_decide_eq_false in Hb.
  destruct (scan_constants ow doc
              (mkState md stem (stem +:+ "/src") doc ∅ ∅ ∅ "" false false true
                 (Ofstream.mk None false) "" fs)) as [Hc Hc'].
  rewrite Hscan in Hc, Hc'. cbn [final projname srcdir] in Hc, Hc'.
  destruct (scan_rooted ow doc
              (mkState md stem (stem +:+ "/src") doc ∅ ∅ ∅ "" false false true
                 (Ofstream.mk None false) "" fs) s0 Hp eq_refl
              ltac:(done) ltac:(done) Hscan) as [_ Hnames].
  destruct (scan_rooted_dirs ow doc
              (mkState md stem (stem +:+ "/src") doc ∅ ∅ ∅ "" false false true
                 (Ofstream.mk None false) "" fs) s0 Hp eq_refl
              ltac:(done) Hscan (Hnames Hb)) as [R1 R2].
  rewrite Hc in R1. rewrite Hc' in R2.
  pose proof (finish_keeps s0) as K.
  rewrite Hrun in K. cbn [final] in K.
  destruct (Hthrow (disk s1) eq_refl (K _ R1) (K _ R2)) as (s2 & H2 & Hd & _).
  eauto.
Qed.

Lemma overwrite_refused_witness :
  let fs : gmap string node := {[ "doc.md" := File "text" ]} in
  let doc := ["a.cpp"; "```"; "x"; "```"] in
  exists s1 s2,
    createProject false (AutoProject "doc.md" "doc" doc fs) = Ret true s1 /\
    createProject true (AutoProject "doc.md" "doc" doc (disk s1)) =
      Throw CannotCreateDirectory s2 /\
    disk s2 = disk s1.
Proof.
  intros fs doc.
  set (s1 := final (createProject false (AutoProject "doc.md" "doc" doc fs))).
  assert (createProject false (AutoProject "doc.md" "doc" doc fs) = Ret true s1)
    as Hrun by (vm_compute; reflexivity).
  destruct (proj2 (overwrite_refused false "doc.md" "doc" doc fs eq_refl) s1 Hrun)
    as (s2 & H2 & Hd).
  exists s1, s2. auto.
Defined.

(** ** Blocks that cannot be opened, and blocks that are not closed *)

Section more_blocks.
Variables (md stem : string).
Implicit Types (E L N : gset string) (d fs : gmap string node).
Implicit Types (inp pre gap body post : list string).
Implicit Types (prev raw sfn name dir file : string).

Hypothesis stem_plain : plain stem = true.




Lemma blank_quiet gap :
  blank gap = true -> quiet gap = true /\ forall prev, caption_after prev gap = prev.
Proof.
  induction gap as [|raw gap IH]; [done|].
  cbn [blank forallb]. intros [Hr Hg]%andb_true_iff.
  destruct (IH Hg) as [Hq Hc].
  destruct (underline_opens_nothing _ Hr) as [H1 H2]. split.
  - cbn [quiet forallb]. unfold opens_block. by rewrite H1, H2.
  - intros prev. unfold caption_after. cbn [fold_left].
    unfold caption_step at 2. rewrite Hr. apply Hc.
Qed.

End more_blocks.



(** X17. Empty lines and lines of dashes between the caption and the
    opening fence do not detach the caption, and a fenced block that is
    still open at the end of the document is extracted like a closed one:
    the file named by the caption holds the lines after the fence, leading
    tabs replaced, and [createProject] reports success. *)
Theorem fenced_block_unclosed md stem fs mdc ow pre cap gap fence body :
  let name := trimExtras (replaceLeadingTabs cap) in
  plain stem = true ->
  project_absent stem fs = true ->
  fs !! md = Some (File mdc) ->
  quiet pre = true ->
  opens_block cap = false ->
  isEmptyOrUnderline (replaceLeadingTabs cap) = false ->
  isSourceFilename (replaceLeadingTabs cap) = true ->
  Str.mem "/" name = false ->
  blank gap = true ->
  isDelimited (replaceLeadingTabs fence) = true ->
  fence_free body = true ->
  exists s',
    createProject ow
      (AutoProject md stem (pre ++ cap :: gap ++ fence :: body) fs) = Ret true s' /\
    srcnames s' = {[ name ]} /\
    inDelimitedFile s' = true /\
    disk s' !! ((stem +:+ "/src") +:+ "/" +:+ name) =
      Some (File (unlines (replaceLeadingTabs <$> body))).
Proof.
  intros name Hp Ha Hmd Hpre Hcq Hcu Hcs Hn [Hgq Hgc]%blank_quiet Hf Hb.
  rewrite createProject_eq.
  rewrite scan_app, scan_quiet by done.
  rewrite scan_cons, step_quiet by done.
  rewrite caption_step_named by done.
  rewrite scan_app, scan_quiet, Hgc by done.
  rewrite scan_cons.
  rewrite step_fence_open_first; rewrite ?Hcs; try done.
  fold name.
  rewrite scan_body by done.
  rewrite app_empty_l.
  assert (isSourceExtension (Path.extension name) = true) as Hext by exact Hcs.
  rewrite (finish_one md stem Hp) with (mdc := mdc)
    by (done || apply singleton_union_ne).
  eexists. split; [reflexivity|]. cbn [srcnames disk inDelimitedFile].
  split; [apply (right_id_L ∅ (∪))|]. split; [done|].
  change ((stem +:+ "/src") +:+ "/CMakeLists.txt")
    with ((stem +:+ "/src") +:+ "/" +:+ "CMakeLists.txt").
  change (stem +:+ "/CMakeLists.txt") with (stem +:+ "/" +:+ "CMakeLists.txt").
  rewrite lookup_insert_ne.
  2:{ intros H%join_inj. symmetry in H. revert H.
      apply source_name_not_md; [done|]. by apply plain_spec. }
  rewrite (src_path stem name).
  rewrite lookup_insert_ne by (intros H%join_inj; done).
  rewrite <- (src_path stem name).
  rewrite lookup_insert_ne.
  2:{ intros H%join_inj. symmetry in H. revert H.
      by apply source_name_not_cmake. }
  rewrite lookup_insert_eq. by rewrite verbatim_text_unlines.
Qed.

Lemma fenced_block_unclosed_witness :
  let fs : gmap string node := {[ "doc.md" := File "text" ]} in
  exists s',
    createProject false
      (AutoProject "doc.md" "doc"
         (["Intro"] ++ "m.cpp" :: ["-----"; ""] ++ "```" :: ["int x;"; "int y;"]) fs) =
      Ret true s' /\
    srcnames s' = {[ "m.cpp" ]} /\
    inDelimitedFile s' = true /\
    disk s' !! "doc/src/m.cpp" = Some (File (unlines ["int x;"; "int y;"])).
Proof.
  intros fs.
  apply (fenced_block_unclosed "doc.md" "doc" fs "text" false
           ["Intro"] "m.cpp" ["-----"; ""] "```" ["int x;"; "int y;"]);
    vm_compute; reflexivity.
Defined.

(** ** The directories and the build files of a run *)

Section created.
Implicit Types (d : gmap string node) (p q txt c : string) (s : state).
Implicit Types (S : list string).

Lemma within_refl S d : dirs_within S d d.
Proof. intros q Hq. by left. Qed.

Lemma within_trans S d1 d2 d3 :
  dirs_within S d1 d2 -> dirs_within S d2 d3 -> dirs_within S d1 d3.
Proof. intros H1 H2 q [Hq|Hq]%H2; [by apply H1|by right]. Qed.

Lemma within_insert S d d' p c :
  dirs_within S d d' -> dirs_within S d (<[p := File c]> d').
Proof.
  intros H q Hq. apply H. destruct (decide (p = q)) as [->|Hne].
  - by rewrite lookup_insert_eq in Hq.
  - by rewrite lookup_insert_ne in Hq.
Qed.

Lemma within_append S d d' p txt :
  dirs_within S d d' -> dirs_within S d (Fs.append p txt d').
Proof.
  intros H q Hq. apply H. unfold Fs.append in Hq.
  destruct (decide (p = q)) as [->|Hne].
  - rewrite lookup_alter_eq in Hq. by destruct (d' !! q) as [[]|].
  - by rewrite lookup_alter_ne in Hq.
Qed.

Lemma within_write_file S d d' p txt :
  dirs_within S d d' -> dirs_within S d (Fs.write_file p txt d').
Proof.
  intros H. unfold Fs.write_file. destruct (Fs.can_open d' p); [|done].
  by apply within_insert.
Qed.

Lemma within_weaken S S' d d' :
  (forall q, q ∈ S -> q ∈ S') -> dirs_within S d d' -> dirs_within S' d d'.
Proof. intros HS H q [Hq|Hq]%H; [by left|right; by apply HS]. Qed.

Lemma mkdirs_within ds b d d' r : Fs.mkdirs ds b d = (d', r) -> dirs_within ds d d'.
Proof.
  revert b d. induction ds as [|p ds IH]; intros b d H; cbn [Fs.mkdirs] in H.
  - injection H as <- _. apply within_refl.
  - destruct (d !! p) as [[|txt]|] eqn:E.
    + apply IH in H. eapply within_weaken; [|exact H].
      intros q Hq. by apply elem_of_cons; right.
    + injection H as <- _. apply within_refl.
    + apply IH in H. intros q [Hq|Hq]%H.
      * destruct (decide (p = q)) as [->|Hne].
        -- right. by apply elem_of_cons; left.
        -- left. by rewrite lookup_insert_ne in Hq.
      * right. by apply elem_of_cons; right.
Qed.

(** [makeTree] creates no directory besides the root, [src] and
    [build]. *)
Lemma makeTree_within ow s :
  plain (projname s) = true -> srcdir s = projname s +:+ "/src" ->
  exists d', dirs_within (project_dirs (projname s)) (disk s) d' /\
    (makeTree ow s = Ret tt (set_disk d' s)
     \/ exists e, makeTree ow s = Throw e (set_disk d' s)).
Proof.
  destruct s as [md pn sd inp E L N prev i dl ff sf sfn d].
  cbn [projname srcdir disk]. intros Hp ->.
  unfold makeTree, create_directories.
  cbv beta iota zeta delta
    [mbind M_bind mret M_ret get modify throw set_disk
     mdfile projname srcdir input extraRules libraries srcnames prevline
     inIndentedFile inDelimitedFile firstFile srcfile srcfilename disk].
  destruct (Fs.exists_ d pn && negb ow) eqn:Hex.
  { exists d. split; [apply within_refl|right; eauto]. }
  destruct (Fs.create_directories (pn +:+ "/src") d) as [d1 r1] eqn:E1.
  assert (dirs_within (project_dirs pn) d d1) as W1.
  { unfold Fs.create_directories in E1.
    change (pn +:+ "/src") with (pn +:+ "/" +:+ "src") in E1.
    rewrite prefixes_join in E1 by done.
    apply mkdirs_within in E1. eapply within_weaken; [|exact E1].
    unfold project_dirs. intros q Hq. set_unfold. tauto. }
  destruct r1 as [[]|]; cbv beta iota zeta delta [negb];
    [|exists d1; split; [done|right; eauto]..].
  destruct (Fs.create_directories (pn +:+ "/build") d1) as [d2 r2] eqn:E2.
  assert (dirs_within (project_dirs pn) d1 d2) as W2.
  { unfold Fs.create_directories in E2.
    change (pn +:+ "/build") with (pn +:+ "/" +:+ "build") in E2.
    rewrite prefixes_join in E2 by done.
    apply mkdirs_within in E2. eapply within_weaken; [|exact E2].
    unfold project_dirs. intros q Hq. set_unfold. tauto. }
  exists d2. split; [by eapply within_trans|].
  destruct r2 as [b|]; [left|right]; eauto.
Qed.

End created.

Ltac tree_within ow s :=
  let Ht := fresh "Htree" in
  destruct (makeTree_within ow s) as (? & ? & [Ht | (? & Ht)]);
  [done | reflexivity | rewrite Ht; clear Ht ..].

Section created_by_steps.
Implicit Types (s : state) (raw : string) (lines : list string).

Lemma step_within ow raw s :
  plain (projname s) = true -> srcdir s = projname s +:+ "/src" ->
  dirs_within (project_dirs (projname s)) (disk s) (disk (final (step ow raw s))).
Proof.
  intros Hp Hsrc. open_state s. subst sd. abstract_step P.
  destruct i, dl, sp as [p|].
  all: step_split tree_within; subst P; cbv beta; close_state.
  all: repeat first
    [ assumption | apply within_refl | apply within_append | apply within_insert ].
Qed.

Lemma scan_within ow lines s :
  plain (projname s) = true -> srcdir s = projname s +:+ "/src" ->
  dirs_within (project_dirs (projname s)) (disk s) (disk (final (scan ow lines s))).
Proof.
  intros Hp Hsrc.
  apply (scan_preserves (fun s' =>
           (projname s' = projname s /\ srcdir s' = srcdir s) /\
           dirs_within (project_dirs (projname s)) (disk s) (disk s'))).
  - intros raw s1 [[C1 C2] W].
    destruct (step_constants ow raw s1) as (_ & D1 & D2 & _).
    split; [split; congruence|].
    eapply within_trans; [exact W|].
    rewrite <- C1. apply step_within; congruence.
  - split; [done|apply within_refl].
Qed.

Lemma finish_within S s : dirs_within S (disk s) (disk (final (finish s))).
Proof.
  destruct s as [md pn sd inp E L N prev i dl ff sf sfn d].
  unfold finish, writeSrcLevel, writeTopLevel, copy_file.
  cbv beta iota zeta delta
    [mbind M_bind mret M_ret get modify throw set_input set_disk
     mdfile projname srcdir input extraRules libraries srcnames prevline
     inIndentedFile inDelimitedFile firstFile srcfile srcfilename disk].
  destruct (bool_decide (N = ∅)); cbv beta iota zeta delta [negb];
    [apply within_refl|].
  set (d1 := Fs.write_file _ _ d).
  set (d2 := Fs.write_file _ _ d1).
  assert (dirs_within S d d2) as K by (do 2 apply within_write_file; apply within_refl).
  destruct (d2 !! md) as [[|c]|]; [done| |done].
  destruct (d2 !! _) eqn:E2; [done|].
  destruct (Fs.dir_exists d2 _); cbn [final disk]; [|done].
  by apply within_insert.
Qed.

End created_by_steps.

(** X18. [createProject] creates no directory besides the project root,
    [src] and [build] below it: whatever the outcome, every directory of
    the filesystem afterwards was a directory before or is one of the three.
    In particular no directory is made for a caption that names a file in
    a subdirectory. *)
Theorem createProject_dirs ow s q :
  plain (projname s) = true -> srcdir s = projname s +:+ "/src" ->
  disk (final (createProject ow s)) !! q = Some Dir ->
  disk s !! q = Some Dir \/ q ∈ project_dirs (projname s).
Proof.
  intros Hp Hsrc. rewrite createProject_run.
  pose proof (scan_within ow (input s) (init_locals s)) as W.
  assert (projname (init_locals s) = projname s) as Hpn by (by destruct s).
  assert (srcdir (init_locals s) = srcdir s) as Hsd by (by destruct s).
  assert (disk (init_locals s) = disk s) as Hd by (by destruct s).
  rewrite Hpn, Hsd, Hd in W. specialize (W Hp Hsrc).
  destruct (scan ow (input s) (init_locals s)) as [[] s1|e s1]; cbn [final] in *.
  - intros Hq. apply (finish_within (project_dirs (projname s))) in Hq as [Hq|Hq];
      [by apply W|by right].
  - apply W.
Qed.

Lemma createProject_dirs_witness :
  let fs : gmap string node := {[ "doc.md" := File "text" ]} in
  let s := AutoProject "doc.md" "doc" ["lib/a.cpp"; "```"; "x"; "```"] fs in
  disk (final (createProject false s)) !! "doc/src" = Some Dir /\
  (disk s !! "doc/src" = Some Dir \/ "doc/src" ∈ project_dirs (projname s)).
Proof.
  intros fs s.
  assert (disk (final (createProject false s)) !! "doc/src" = Some Dir) as H
    by (vm_compute; reflexivity).
  split; [exact H|].
  apply (createProject_dirs false s "doc/src"); [reflexivity|reflexivity|exact H].
Defined.

(** ** What a successful run leaves *)

Section outputs.
Variables (md stem : string).
Implicit Types (E L N : gset string) (d fs : gmap string node).

Hypothesis stem_plain : plain stem = true.

(** Below a project that did not exist, only [src] and [build] are
    directories. *)
Lemma below_not_dir fs d y :
  project_absent stem fs = true ->
  dirs_within (project_dirs stem) fs d ->
  y <> "src" -> y <> "build" ->
  d !! (stem +:+ "/" +:+ y) <> Some Dir.
Proof.
  intros [Hs Hx]%project_absent_spec W Hy1 Hy2 [Hq|Hq]%W.
  - by rewrite Hx in Hq.
  - unfold project_dirs in Hq.
    change (stem +:+ "/src") with (stem +:+ "/" +:+ "src") in Hq.
    change (stem +:+ "/build") with (stem +:+ "/" +:+ "build") in Hq.
    apply elem_of_cons in Hq as [Hq|Hq]; [by apply join_ne_stem in Hq|].
    apply elem_of_cons in Hq as [Hq%join_inj|Hq]; [done|].
    apply elem_of_cons in Hq as [Hq%join_inj|Hq]; [done|].
    by apply elem_of_nil in Hq.
Qed.

Lemma can_open_below fs d parent x :
  d !! parent = Some Dir -> parent <> "" -> Str.mem "/" x = false ->
  d !! (parent +:+ "/" +:+ x) <> Some Dir ->
  Fs.can_open d (parent +:+ "/" +:+ x) = true.
Proof.
  intros Hd Hne Hx Hn. unfold Fs.can_open.
  rewrite parent_path_join by done.
  unfold Fs.dir_exists, Fs.is_directory. rewrite Hd.
  destruct parent; [done|]. cbn [andb].
  destruct (d !! (_ +:+ "/" +:+ x)) as [[]|]; done.
Qed.

Lemma write_file_open d p txt :
  Fs.can_open d p = true -> Fs.write_file p txt d = <[p := File txt]> d.
Proof. intros H. unfold Fs.write_file. by rewrite H. Qed.

(** The end of [createProject] when a file name has been recorded, the
    root and [src] are directories and nothing else below the root is. *)
Lemma finish_outputs fs inp E L N prev i dl ff sf sfn d s' :
  project_absent stem fs = true ->
  dirs_within (project_dirs stem) fs d ->
  d !! stem = Some Dir -> d !! (stem +:+ "/src") = Some Dir ->
  finish (mkState md stem (stem +:+ "/src") inp E L N prev i dl ff sf sfn d) =
    Ret true s' ->
  extraRules s' = E /\ libraries s' = L /\ srcnames s' = N /\ N <> ∅ /\
  disk s' !! (stem +:+ "/CMakeLists.txt") = Some (File (topLevel_text stem)) /\
  disk s' !! ((stem +:+ "/src") +:+ "/CMakeLists.txt") =
    Some (File (srcLevel_text stem (elements E) (elements N) (elements L))) /\
  exists c,
    disk s' !! md = Some (File c) /\
    disk s' !! ((stem +:+ "/src") +:+ "/" +:+ stem +:+ mdextension) = Some (File c).
Proof.
  intros Ha W H1 H2.
  destruct (plain_spec _ stem_plain) as [Hne Hsl].
  assert (stem +:+ "/src" <> "") as Hsrc by (by destruct stem).
  unfold finish, writeSrcLevel, writeTopLevel, copy_file.
  cbv beta iota zeta delta
    [mbind M_bind mret M_ret get modify throw set_input set_disk
     mdfile projname srcdir input extraRules libraries srcnames prevline
     inIndentedFile inDelimitedFile firstFile srcfile srcfilename disk
     snippets_written names_written libraries_written].
  destruct (bool_decide (N = ∅)) eqn:HN; cbv beta iota zeta delta [negb]; [done|].
  apply bool_decide_eq_false in HN.
  change ((stem +:+ "/src") +:+ "/CMakeLists.txt")
    with ((stem +:+ "/src") +:+ "/" +:+ "CMakeLists.txt").
  change (stem +:+ "/CMakeLists.txt") with (stem +:+ "/" +:+ "CMakeLists.txt").
  set (srcC := (stem +:+ "/src") +:+ "/" +:+ "CMakeLists.txt").
  set (topC := stem +:+ "/" +:+ "CMakeLists.txt").
  set (srctxt := srcLevel_text _ _ _ _).
  assert (srcC <> topC) as Hst.
  { subst srcC topC. rewrite src_path. by intros H%join_inj. }
  assert (srcC <> stem) as Hs1.
  { subst srcC. rewrite src_path. apply join_ne_stem. }
  assert (Fs.can_open d srcC = true) as O1.
  { apply (can_open_below fs); try done. subst srcC. rewrite src_path.
    by apply (below_not_dir fs). }
  rewrite !(write_file_open d srcC srctxt O1).
  assert (Fs.can_open (<[srcC := File srctxt]> d) topC = true) as O2.
  { apply (can_open_below fs); try done.
    - by rewrite lookup_insert_ne.
    - rewrite lookup_insert_ne by done. by apply (below_not_dir fs). }
  rewrite !(write_file_open _ topC (topLevel_text stem) O2).
  set (d2 := <[topC := File (topLevel_text stem)]> (<[srcC := File srctxt]> d)).
  destruct (d2 !! md) as [[|c]|] eqn:Emd; [done| |done].
  destruct (d2 !! (_ +:+ "/" +:+ stem +:+ mdextension)) eqn:Etg; cbv beta iota;
    [by intros|].
  destruct (Fs.dir_exists d2 _); cbv beta iota; [|by intros].
  intros [= <-]. cbn [extraRules libraries srcnames disk].
  repeat split; try done.
  - rewrite lookup_insert_ne.
    2:{ subst topC. rewrite src_path. by intros H%join_inj. }
    subst d2. by rewrite lookup_insert_eq.
  - rewrite lookup_insert_ne.
    2:{ subst srcC. intros H%join_inj. revert H. apply not_eq_sym.
        unfold mdextension. by apply cmake_not_md. }
    subst d2. rewrite lookup_insert_ne by done. by rewrite lookup_insert_eq.
  - exists c. split; [|by rewrite lookup_insert_eq].
    rewrite lookup_insert_ne; [done|]. intros <-. congruence.
Qed.

End outputs.

(** X19. Whenever [createProject] reports success on a project that did
    not exist, the build files are there: the top-level [CMakeLists.txt]
    with the text for the project name, the [CMakeLists.txt] of the sources
    directory with the text made from the snippets, the file names and the
    libraries collected, and in the sources directory a copy of the
    document as it is at the end of the run; and at least one file name has
    been recorded. This holds for every document. *)
Theorem success_outputs ow md stem doc fs s' :
  plain stem = true ->
  project_absent stem fs = true ->
  createProject ow (AutoProject md stem doc fs) = Ret true s' ->
  srcnames s' <> ∅ /\
  disk s' !! (stem +:+ "/CMakeLists.txt") = Some (File (topLevel_text stem)) /\
  disk s' !! ((stem +:+ "/src") +:+ "/CMakeLists.txt") =
    Some (File (srcLevel_text stem (snippets_written s') (names_written s')
                  (libraries_written s'))) /\
  exists c,
    disk s' !! md = Some (File c) /\
    disk s' !! ((stem +:+ "/src") +:+ "/" +:+ stem +:+ mdextension) = Some (File c).
Proof.
  intros Hp Ha Hrun. rewrite createProject_eq in Hrun.
  set (s0i := mkState md stem (stem +:+ "/src") doc ∅ ∅ ∅ "" false false true
                (Ofstream.mk None false) "" fs) in *.
  destruct (scan ow doc s0i) as [[] s0|e s0] eqn:Hscan; [|done].
  pose proof (finish_result _ _ _ Hrun) as Hb.
  symmetry in Hb. apply negb_true_iff, bool_decide_eq_false in Hb.
  destruct (scan_constants ow doc s0i) as [Hc Hc'].
  pose proof (scan_within ow doc s0i Hp eq_refl) as W.
  rewrite Hscan in Hc, Hc', W. cbn [final projname srcdir disk] in Hc, Hc', W.
  destruct (scan_rooted ow doc s0i s0 Hp eq_refl ltac:(done) ltac:(done) Hscan)
    as [_ Hnames].
  destruct (scan_rooted_dirs ow doc s0i s0 Hp eq_refl ltac:(done) Hscan (Hnames Hb))
    as [R1 R2].
  destruct s0 as [md0 pn sd inp E L N prev i dl ff sf sfn d].
  cbn [projname srcdir disk srcnames] in *. subst pn sd.
  assert (md0 = md) as ->.
  { pose proof (scan_preserves (fun s => mdfile s = md) ow) as Hmd.
    specialize (Hmd (fun raw s H =>
      eq_trans (proj1 (step_constants ow raw s)) H) doc s0i eq_refl).
    by rewrite Hscan in Hmd. }
  destruct (finish_outputs md stem Hp fs inp E L N prev i dl ff sf sfn d s'
              Ha W R1 R2 Hrun) as (HE & HL & HN & Hne & H1 & H2 & H3).
  unfold snippets_written, names_written, libraries_written.
  rewrite HE, HL, HN. auto.
Qed.

Lemma success_outputs_witness :
  let fs : gmap string node := {[ "doc.md" := File "text" ]} in
  let doc := ["a.cpp"; "```"; "#include <thread>"; "```"; "    stray"] in
  exists s',
    createProject false (AutoProject "doc.md" "doc" doc fs) = Ret true s' /\
    disk s' !! "doc/CMakeLists.txt" = Some (File (topLevel_text "doc")) /\
    exists c, disk s' !! "doc.md" = Some (File c) /\
              disk s' !! "doc/src/doc.md" = Some (File c).
Proof.
  intros fs doc.
  set (s1 := final (createProject false (AutoProject "doc.md" "doc" doc fs))).
  assert (createProject false (AutoProject "doc.md" "doc" doc fs) = Ret true s1)
    as Hrun by (vm_compute; reflexivity).
  destruct (success_outputs false "doc.md" "doc" doc fs s1 eq_refl eq_refl Hrun)
    as (_ & H1 & _ & H3).
  exists s1. auto.
Defined.

(** ** Fences after indented blocks, absolute captions, recorded names *)

Section more_steps.
Implicit Types (d : gmap string node) (p q txt c : string) (s : state).

Lemma delimited_not_indented line :
  isDelimited line = true -> isIndentedOrEmpty line = false.
Proof.
  destruct line as [|ch line]; [done|]. intros Hd.
  unfold isIndentedOrEmpty. rewrite find_first_not_of_cons.
  destruct (Str.eqc ch " ") eqn:E; [|done].
  apply eqc_true in E as ->. unfold isDelimited in Hd. by cbn in Hd.
Qed.

Lemma keepsf_refl d : keeps_files d d.
Proof. intros q c Hq. eauto. Qed.

Lemma keepsf_trans d1 d2 d3 :
  keeps_files d1 d2 -> keeps_files d2 d3 -> keeps_files d1 d3.
Proof. intros H1 H2 q c [c' Hq]%H1. by apply H2 in Hq. Qed.

Lemma keepsf_insert d d' p c :
  keeps_files d d' -> keeps_files d (<[p := File c]> d').
Proof.
  intros H q c0 [c' Hq]%H. destruct (decide (p = q)) as [->|Hne].
  - exists c. apply lookup_insert_eq.
  - exists c'. by rewrite lookup_insert_ne.
Qed.

Lemma keepsf_append d d' p txt : keeps_files d d' -> keeps_files d (Fs.append p txt d').
Proof.
  intros H q c0 [c' Hq]%H. unfold Fs.append.
  destruct (decide (p = q)) as [->|Hne].
  - exists (c' +:+ txt). by rewrite lookup_alter_eq, Hq.
  - exists c'. by rewrite lookup_alter_ne.
Qed.

Lemma keepsf_write_file d d' p txt :
  keeps_files d d' -> keeps_files d (Fs.write_file p txt d').
Proof.
  intros H. unfold Fs.write_file. destruct (Fs.can_open d' p); [|done].
  by apply keepsf_insert.
Qed.

Lemma mkdirs_keeps_files ds b d d' r : Fs.mkdirs ds b d = (d', r) -> keeps_files d d'.
Proof.
  revert b d. induction ds as [|p ds IH]; intros b d H; cbn [Fs.mkdirs] in H.
  - injection H as <- _. apply keepsf_refl.
  - destruct (d !! p) as [[|txt]|] eqn:E.
    + by apply IH in H.
    + injection H as <- _. apply keepsf_refl.
    + apply IH in H. intros q c Hq. apply (H q c).
      rewrite lookup_insert_ne; [done|congruence].
Qed.

Lemma makeTree_keeps_files ow s :
  exists d', keeps_files (disk s) d' /\
    (makeTree ow s = Ret tt (set_disk d' s)
     \/ exists e, makeTree ow s = Throw e (set_disk d' s)).
Proof.
  destruct s as [md pn sd inp E L N prev i dl ff sf sfn d].
  unfold makeTree, create_directories.
  cbv beta iota zeta delta
    [mbind M_bind mret M_ret get modify throw set_disk
     mdfile projname srcdir input extraRules libraries srcnames prevline
     inIndentedFile inDelimitedFile firstFile srcfile srcfilename disk].
  destruct (Fs.exists_ d pn && negb ow) eqn:Hex.
  { exists d. split; [apply keepsf_refl|right; eauto]. }
  destruct (Fs.create_directories sd d) as [d1 r1] eqn:E1.
  pose proof (mkdirs_keeps_files _ _ _ _ _ E1) as K1.
  destruct r1 as [[]|]; cbv beta iota zeta delta [negb];
    [|exists d1; split; [done|right; eauto]..].
  destruct (Fs.create_directories (pn +:+ "/build") d1) as [d2 r2] eqn:E2.
  pose proof (mkdirs_keeps_files _ _ _ _ _ E2) as K2.
  exists d2. split; [by eapply keepsf_trans|].
  destruct r2 as [b|]; [left|right]; eauto.
Qed.

End more_steps.

Ltac tree_files ow s :=
  let Ht := fresh "Htree" in
  destruct (makeTree_keeps_files ow s) as (? & ? & [Ht | (? & Ht)]);
  rewrite Ht; clear Ht.

Section names.
Implicit Types (s : state) (raw : string) (lines : list string).

Lemma step_keeps_files ow raw s :
  keeps_files (disk s) (disk (final (step ow raw s))).
Proof.
  open_state s. abstract_step P.
  destruct i, dl, sp as [p|].
  all: step_split tree_files; subst P; cbv beta; close_state.
  all: repeat first
    [ assumption | apply keepsf_refl | apply keepsf_append | apply keepsf_insert ].
Qed.

(** A step records at most one name, that of a file it has just
    opened. *)
Lemma step_names ow raw s :
  srcnames (final (step ow raw s)) = srcnames s \/
  exists p c,
    srcnames (final (step ow raw s)) = {[ Path.filename p ]} ∪ srcnames s /\
    disk (final (step ow raw s)) !! p = Some (File c).
Proof.
  open_state s. abstract_step P.
  destruct i, dl, sp as [p|].
  all: step_split tree_files; subst P; cbv beta; close_state.
  all: first
    [ left; reflexivity
    | right; eexists _, _; split; [reflexivity|];
      first [ apply lookup_insert_eq
            | rewrite append_insert; apply lookup_insert_eq ] ].
Qed.

Lemma step_names_exist ow raw s : names_exist s -> names_exist (final (step ow raw s)).
Proof.
  intros Hinv n Hn.
  pose proof (step_keeps_files ow raw s) as K.
  destruct (step_names ow raw s) as [Heq|(p & c & Heq & Hp)]; rewrite Heq in Hn.
  - destruct (Hinv n Hn) as (p & c & Hf & Hp).
    apply K in Hp as [c' Hp]. eauto.
  - apply elem_of_union in Hn as [Hn%elem_of_singleton|Hn]; [subst n; eauto|].
    destruct (Hinv n Hn) as (p' & c' & Hf & Hp').
    apply K in Hp' as [c'' Hp']. eauto.
Qed.

Lemma finish_names_exist s : names_exist s -> names_exist (final (finish s)).
Proof.
  intros Hinv n Hn.
  destruct (finish_frame s) as (_ & _ & HN & _ & _). rewrite HN in Hn.
  destruct (Hinv n Hn) as (p & c & Hf & Hp).
  assert (keeps_files (disk s) (disk (final (finish s)))) as K.
  { clear. destruct s as [md pn sd inp E L N prev i dl ff sf sfn d].
    unfold finish, writeSrcLevel, writeTopLevel, copy_file.
    cbv beta iota zeta delta
      [mbind M_bind mret M_ret get modify throw set_input set_disk
       mdfile projname srcdir input extraRules libraries srcnames prevline
       inIndentedFile inDelimitedFile firstFile srcfile srcfilename disk].
    destruct (bool_decide (N = ∅)); cbv beta iota zeta delta [negb];
      [apply keepsf_refl|].
    set (d1 := Fs.write_file _ _ d).
    set (d2 := Fs.write_file _ _ d1).
    assert (keeps_files d d2) as K
      by (do 2 apply keepsf_write_file; apply keepsf_refl).
    destruct (d2 !! md) as [[|c]|]; [done| |done].
    destruct (d2 !! (_ +:+ "/" +:+ pn +:+ mdextension)); [done|].
    destruct (Fs.dir_exists d2 _); cbn [final disk]; [|done].
    by apply keepsf_insert. }
  apply K in Hp as [c' Hp]. eauto.
Qed.

End names.

(** X20. A fence read inside an indented block only ends that block: the
    line is not indented, so the file is closed and the scanner returns to
    the outside, and the line is not looked at as an opening fence. A
    fenced block that follows an indented block without a line between
    them is therefore not opened by its fence. *)
Theorem fence_ends_indented_block ow raw s :
  inIndentedFile s = true ->
  isDelimited (replaceLeadingTabs raw) = true ->
  exists s',
    step ow raw s = Ret tt s' /\
    inIndentedFile s' = false /\ inDelimitedFile s' = inDelimitedFile s /\
    prevline s' = replaceLeadingTabs raw /\
    Ofstream.path (srcfile s') = None /\
    disk s' = disk s /\ srcnames s' = srcnames s.
Proof.
  intros Hi Hd. apply delimited_not_indented in Hd.
  open_state s. subst i. exec. rewrite Hd. cbn [negb].
  destruct sp; eexists; (split; [reflexivity|done]).
Qed.

Lemma fence_ends_indented_block_witness :
  exists s',
    step false "```"
      (set_inIndentedFile true (AutoProject "doc.md" "doc" [] ∅)) = Ret tt s' /\
    inIndentedFile s' = false /\ inDelimitedFile s' = false /\
    prevline s' = "```" /\
    Ofstream.path (srcfile s') = None /\
    disk s' = ∅ /\ srcnames s' = ∅.
Proof.
  apply (fence_ends_indented_block false "```"
           (set_inIndentedFile true (AutoProject "doc.md" "doc" [] ∅)));
    reflexivity.
Defined.

(** X21. A caption that is an absolute path sends the block out of the
    project: [srcdir / prevline] is [prevline] when that is absolute, so
    the fence opens, and truncates, the file at that path, wherever it is,
    and the base name alone is recorded among the file names. Stated for a
    fence read outside a block after the first block has been attempted. *)
Theorem absolute_caption ow fence s :
  inIndentedFile s = false -> inDelimitedFile s = false ->
  firstFile s = false -> Ofstream.path (srcfile s) = None ->
  isDelimited (replaceLeadingTabs fence) = true ->
  isSourceFilename (prevline s) = true ->
  Path.is_absolute (trimExtras (prevline s)) = true ->
  Fs.can_open (disk s) (trimExtras (prevline s)) = true ->
  exists s',
    step ow fence s = Ret tt s' /\
    inDelimitedFile s' = true /\
    srcfilename s' = trimExtras (prevline s) /\
    disk s' = <[trimExtras (prevline s) := File ""]> (disk s) /\
    srcnames s' = {[ Path.filename (trimExtras (prevline s)) ]} ∪ srcnames s.
Proof.
  intros Hi Hdl Hff Hsp Hd Hs Habs Hopen.
  open_state s. subst i dl ff sp. exec. rewrite Hd, Hs.
  unfold Path.join. rewrite Habs. unfold Ofstream.open.
  cbn [Ofstream.path]. rewrite Hopen. exec.
  eexists. split; [reflexivity|done].
Qed.

Lemma absolute_caption_witness :
  let fs : gmap string node := {[ "/tmp" := Dir ]} in
  let s := set_prevline "/tmp/x.cpp"
             (set_firstFile false (AutoProject "doc.md" "doc" [] fs)) in
  exists s',
    step false "```" s = Ret tt s' /\
    inDelimitedFile s' = true /\
    srcfilename s' = "/tmp/x.cpp" /\
    disk s' = <[ "/tmp/x.cpp" := File "" ]> fs /\
    srcnames s' = {[ "x.cpp" ]} ∪ ∅.
Proof.
  intros fs s.
  apply (absolute_caption false "```" s); vm_compute; reflexivity.
Defined.

(** X22. Every file name [createProject] records is the name of a regular
    file that exists when the run ends, however it ends: a name is recorded
    only after its file has been opened, and no file is removed or turned
    into a directory afterwards. So [add_executable] never lists a name
    whose file was not written. *)
Theorem recorded_names_exist ow md stem doc fs n :
  n ∈ srcnames (final (createProject ow (AutoProject md stem doc fs))) ->
  exists p c,
    Path.filename p = n /\
    disk (final (createProject ow (AutoProject md stem doc fs))) !! p = Some (File c).
Proof.
  revert n. change (names_exist (final (createProject ow (AutoProject md stem doc fs)))).
  rewrite createProject_run.
  pose proof (scan_preserves names_exist ow (step_names_exist ow)
                (input (AutoProject md stem doc fs))
                (init_locals (AutoProject md stem doc fs))) as Hscan.
  destruct (scan ow _ _) as [[] s1|e s1]; cbn [final] in *.
  - apply finish_names_exist, Hscan. intros n Hn. by apply not_elem_of_empty in Hn.
  - apply Hscan. intros n Hn. by apply not_elem_of_empty in Hn.
Qed.

Lemma recorded_names_exist_witness :
  let fs : gmap string node := {[ "doc.md" := File "text" ]} in
  let doc := ["a.cpp"; "```"; "x"; "```"; "lib/b.cpp"; "```"; "y"] in
  let s' := final (createProject false (AutoProject "doc.md" "doc" doc fs)) in
  "a.cpp" ∈ srcnames s' /\
  exists p c, Path.filename p = "a.cpp" /\ disk s' !! p = Some (File c).
Proof.
  intros fs doc s'.
  assert ("a.cpp" ∈ srcnames s') as Hin.
  { replace (srcnames s') with ({[ "a.cpp" ]} : gset string)
      by (vm_compute; reflexivity).
    by apply elem_of_singleton. }
  split; [exact Hin|].
  apply (recorded_names_exist false "doc.md" "doc" doc fs "a.cpp" Hin).
Defined.

(** * The generated build file and the caption test *)

(** ** Rules matched more than once *)

Section generated.
Implicit Types (s : state) (raw : string) (doc pre rest : list string).



End generated.




(** ** Recognized captions and the fallback *)

Section caption_test.
Implicit Types (s : state) (raw base e name : string).

Lemma rfind_from_none e i : Str.mem "." e = false -> Str.rfind_from "." e i = None.
Proof.
  revert i. induction e as [|c e IH]; intros i Hm; [done|].
  cbn [Str.mem] in Hm. apply orb_false_iff in Hm as [Hc Hm].
  cbn [Str.rfind_from]. rewrite IH by done.
  apply eqc_false in Hc. cbn [String.prefix].
  destruct (ascii_dec "." c) as [<-|_]; done.
Qed.

Lemma rfind_from_dot base e i :
  Str.mem "." e = false ->
  Str.rfind_from "." (base +:+ "." +:+ e) i = Some (i + String.length base).
Proof.
  intros He. revert i. induction base as [|c base IH]; intros i.
  - rewrite app_empty_l. change ("." +:+ e) with (String "." e).
    cbn [Str.rfind_from]. rewrite rfind_from_none by done.
    cbn [String.prefix]. destruct (ascii_dec "." ".") as [_|H]; [|done].
    destruct e; cbn; f_equal; lia.
  - rewrite app_cons. cbn [Str.rfind_from String.length]. rewrite IH.
    f_equal. lia.
Qed.

(** The extension of [base.e]. *)
Lemma extension_dot base e :
  base <> "" -> Str.mem "/" base = false ->
  e <> "" -> Str.mem "." e = false -> Str.mem "/" e = false ->
  Path.extension (base +:+ "." +:+ e) = "." +:+ e.
Proof.
  intros Hb Hbs He Hed Hes. unfold Path.extension, Path.filename.
  assert (Str.mem "/" (base +:+ "." +:+ e) = false) as Hm.
  { rewrite !mem_app, Hbs, Hes. done. }
  rewrite filename_go_plain by done.
  change (String.rev "") with "". rewrite app_empty_l.
  destruct base as [|c base]; [done|].
  unfold Str.rfind. rewrite rfind_from_dot by done.
  rewrite app_cons. cbn [Str.size String.length].
  replace (S (String.length (base +:+ "." +:+ e)) <=? 2) with false.
  2:{ symmetry. apply Nat.leb_gt. rewrite !length_app_s.
      destruct e; [done|]. cbn. lia. }
  cbn [andb Nat.add]. rewrite <- app_cons. apply substr_app.
Qed.

(** The pieces of a decorated caption, as layers. *)
Lemma decorated_layers h st q c d q' st' h' (b b' : bool) :
  cls "#" h -> cls "*" st -> cls Str.dquote q ->
  cls ":" c -> cls "-" d -> cls Str.dquote q' -> cls "*" st' -> cls "#" h' ->
  layered front_decoration (h +:+ st +:+ tagged b "<b>" +:+ q +:+ "") /\
  layered back_decoration
    (String.rev (c +:+ d +:+ q' +:+ tagged b' "</b>" +:+ st' +:+ h')).
Proof.
  intros Hh Hs Hq Hc Hd Hq' Hs' Hh'. split.
  - exists h, (st +:+ tagged b "<b>" +:+ q +:+ ""). repeat split; try done.
    exists st, (tagged b "<b>" +:+ q +:+ ""). repeat split; try done.
    exists (tagged b "<b>"), (q +:+ ""). repeat split; try done.
    { destruct b; [by right|by left]. }
    by exists q, "".
  - rewrite !rev_app_s, !app_assoc_s.
    rewrite <- (app_empty_r (String.rev c)).
    exists (String.rev h'), (String.rev st' +:+ String.rev (tagged b' "</b>") +:+
       String.rev q' +:+ String.rev d +:+ String.rev c +:+ "").
    split; [done|]. split; [unfold cls; by rewrite all_chars_rev|].
    exists (String.rev st'), (String.rev (tagged b' "</b>") +:+
       String.rev q' +:+ String.rev d +:+ String.rev c +:+ "").
    split; [done|]. split; [unfold cls; by rewrite all_chars_rev|].
    exists (String.rev (tagged b' "</b>")),
      (String.rev q' +:+ String.rev d +:+ String.rev c +:+ "").
    split; [done|]. split; [destruct b'; [by right|by left]|].
    exists (String.rev q'), (String.rev d +:+ String.rev c +:+ "").
    split; [done|]. split; [unfold cls; by rewrite all_chars_rev|].
    exists (String.rev d), (String.rev c +:+ "").
    split; [done|]. split; [unfold cls; by rewrite all_chars_rev|].
    exists (String.rev c), "".
    split; [done|]. split; [unfold cls; by rewrite all_chars_rev|done].
Qed.

(** The file a fence read outside a block is to open. *)
Lemma step_fence_filename ow raw s s' :
  inIndentedFile s = false -> inDelimitedFile s = false ->
  isDelimited (replaceLeadingTabs raw) = true ->
  step ow raw s = Ret tt s' ->
  prevline s' = trimExtras (prevline s) /\
  srcfilename s' =
    Path.join (srcdir s)
      (if isSourceFilename (prevline s) then trimExtras (prevline s) else "main.cpp").
Proof.
  intros Hi Hdl Hd. open_state s. subst i dl.
  revert s'. abstract_step P. exec. rewrite Hd.
  step_split tree_frame; subst P; cbv beta; intros s' Hs';
    try discriminate; injection Hs' as <-; close_state; done.
Qed.

(** The first line of an indented run read outside a block. *)
Lemma step_indent_filename ow raw s s' :
  inIndentedFile s = false -> inDelimitedFile s = false ->
  isNonEmptyIndented (replaceLeadingTabs raw) = true ->
  step ow raw s = Ret tt s' ->
  prevline s' = trimExtras (prevline s) /\
  if isSourceFilename (prevline s)
  then srcfilename s' = Path.join (srcdir s) (trimExtras (prevline s))
  else if firstFile s
       then srcfilename s' = Path.join (srcdir s) "main.cpp" /\ firstFile s' = false
       else s' = set_prevline (trimExtras (prevline s)) s.
Proof.
  intros Hi Hdl Hl. open_state s. subst i dl.
  revert s'. abstract_step P. exec.
  rewrite (nonEmptyIndented_not_delimited _ Hl), Hl.
  rewrite (nonEmptyIndented_nonempty _ Hl).
  destruct (isSourceFilename prev) eqn:Hs, ff.
  all: step_split tree_frame; subst P; cbv beta; intros s' Hs';
    try discriminate; injection Hs' as <-; close_state; done.
Qed.

End caption_test.

(** C10. A caption candidate is recognized as a source file name exactly
    when the extension of what is left after stripping is one of [.cpp],
    [.c], [.h] and [.hpp], letter for letter. For a candidate that is a
    name [base.e] inside decoration that [trimExtras] strips (heading
    marks, emphasis marks, bold tags, quotes, a trailing colon or dash),
    that is exactly when [e] is [cpp], [c], [h] or [hpp]: [CPP] and [cc]
    are not recognized. What a step that reads a line outside a block does
    with the answer: a fence opens the stripped name in the sources
    directory when the candidate is recognized and [main.cpp] there when it
    is not; the first line of an indented run opens the stripped name when
    the candidate is recognized, opens [main.cpp] when it is not and no
    block has been attempted yet, and otherwise is skipped, the state
    changing in nothing but the candidate, which is left stripped. *)
Theorem source_filename_recognized ow raw s s' base e h st q c d q' st' h'
    (b b' : bool) :
  let name := base +:+ "." +:+ e in
  let line := replaceLeadingTabs raw in
  bare name = true ->
  base <> "" -> Str.mem "/" base = false ->
  e <> "" -> Str.mem "." e = false -> Str.mem "/" e = false ->
  cls "#" h -> cls "*" st -> cls Str.dquote q ->
  cls ":" c -> cls "-" d -> cls Str.dquote q' -> cls "*" st' -> cls "#" h' ->
  prevline s =
    h +:+ st +:+ tagged b "<b>" +:+ q +:+ name +:+
    c +:+ d +:+ q' +:+ tagged b' "</b>" +:+ st' +:+ h' ->
  inIndentedFile s = false -> inDelimitedFile s = false ->
  step ow raw s = Ret tt s' ->
  (forall cand,
     isSourceFilename cand = true <->
     Path.extension (trimExtras cand) = ".cpp" \/
     Path.extension (trimExtras cand) = ".c" \/
     Path.extension (trimExtras cand) = ".h" \/
     Path.extension (trimExtras cand) = ".hpp") /\
  (isSourceFilename (prevline s) = true <->
   e = "cpp" \/ e = "c" \/ e = "h" \/ e = "hpp") /\
  (e = "CPP" \/ e = "cc" -> isSourceFilename (prevline s) = false) /\
  (isDelimited line = true ->
   prevline s' = name /\
   srcfilename s' =
     srcdir s +:+ "/" +:+ (if isSourceFilename (prevline s) then name else "main.cpp")) /\
  (isNonEmptyIndented line = true ->
   prevline s' = name /\
   if isSourceFilename (prevline s)
   then srcfilename s' = srcdir s +:+ "/" +:+ name
   else if firstFile s
        then srcfilename s' = srcdir s +:+ "/" +:+ "main.cpp" /\ firstFile s' = false
        else s' = set_prevline name s).
Proof.
  intros name line Hbare Hb Hbs He Hed Hes Hh Hst Hq Hc Hd Hq' Hst' Hh'
    Hprev Hi Hdl Hstep.
  assert (trimExtras (prevline s) = name) as Htrim.
  { destruct (decorated_layers h st q c d q' st' h' b b'
                Hh Hst Hq Hc Hd Hq' Hst' Hh') as [HP HY].
    rewrite Hprev.
    replace (h +:+ st +:+ tagged b "<b>" +:+ q +:+ name +:+
             c +:+ d +:+ q' +:+ tagged b' "</b>" +:+ st' +:+ h')
      with ((h +:+ st +:+ tagged b "<b>" +:+ q +:+ "") +:+ name +:+
            String.rev (String.rev
              (c +:+ d +:+ q' +:+ tagged b' "</b>" +:+ st' +:+ h')))
      by (by rewrite rev_involutive_s, app_empty_r, !app_assoc_s).
    by apply trimExtras_layered. }
  assert (Str.mem "/" name = false) as Hname.
  { unfold name. by rewrite !mem_app, Hbs, Hes. }
  assert (isSourceFilename (prevline s) = true <->
          e = "cpp" \/ e = "c" \/ e = "h" \/ e = "hpp") as Hrec.
  { unfold isSourceFilename. rewrite Htrim. unfold name.
    rewrite extension_dot by done. rewrite isSourceExtension_spec.
    change ("." +:+ e) with (String "." e).
    split; intros [H|[H|[H|H]]]; first [injection H as -> | subst e]; tauto. }
  split; [intros cand; unfold isSourceFilename; apply isSourceExtension_spec|].
  split; [exact Hrec|]. split; [|split].
  - intros Hbad. apply not_true_is_false. intros E%Hrec.
    destruct Hbad as [-> | ->], E as [?|[?|[?|?]]]; discriminate.
  - intros Hline.
    destruct (step_fence_filename ow raw s s' Hi Hdl Hline Hstep) as [H1 H2].
    rewrite Htrim in H1, H2. split; [done|]. rewrite H2.
    destruct (isSourceFilename (prevline s)); by rewrite join_plain.
  - intros Hline.
    destruct (step_indent_filename ow raw s s' Hi Hdl Hline Hstep) as [H1 H2].
    rewrite Htrim in H1, H2. split; [done|].
    destruct (isSourceFilename (prevline s)).
    + by rewrite join_plain in H2.
    + destruct (firstFile s); [|done]. by rewrite join_plain in H2.
Qed.

Lemma source_filename_recognized_witness :
  let fs : gmap string node := {[ "doc" := Dir; "doc/src" := Dir ]} in
  let s := set_prevline "### **prog.CPP:**"
             (set_firstFile false (AutoProject "doc.md" "doc" [] fs)) in
  isSourceFilename "### **prog.CPP:**" = false /\
  srcfilename (final (step false "```" s)) = "doc/src/main.cpp" /\
  step false "    int x;" s = Ret tt (set_prevline "prog.CPP" s).
Proof.
  intros fs s.
  assert (step false "```" s = Ret tt (final (step false "```" s))) as Hfence
    by (vm_compute; reflexivity).
  assert (step false "    int x;" s = Ret tt (final (step false "    int x;" s)))
    as Hrun by (vm_compute; reflexivity).
  destruct (source_filename_recognized false "```" s (final (step false "```" s))
              "prog" "CPP" "### " "**" "" ":" "" "" "**" "" false false
              eq_refl ltac:(discriminate) eq_refl ltac:(discriminate) eq_refl eq_refl
              eq_refl eq_refl eq_refl eq_refl eq_refl eq_refl eq_refl eq_refl
              eq_refl eq_refl eq_refl Hfence)
    as (_ & _ & Hbad & Hf & _).
  destruct (source_filename_recognized false "    int x;" s
              (final (step false "    int x;" s))
              "prog" "CPP" "### " "**" "" ":" "" "" "**" "" false false
              eq_refl ltac:(discriminate) eq_refl ltac:(discriminate) eq_refl eq_refl
              eq_refl eq_refl eq_refl eq_refl eq_refl eq_refl eq_refl eq_refl
              eq_refl eq_refl eq_refl Hrun)
    as (_ & _ & _ & _ & Hind).
  pose proof (Hbad (or_introl eq_refl)) as Hno.
  split; [exact Hno|]. split.
  - destruct (Hf eq_refl) as [_ H2]. by rewrite H2, Hno.
  - destruct (Hind eq_refl) as [_ H2]. rewrite Hno in H2.
    change (firstFile s) with false in H2. cbv beta iota in H2.
    by rewrite Hrun, H2.
Defined.
